(** * OS/161 kernel subsystems: a shallow embedding and its properties

    The development follows the kernel sources file by file:
    - [Coremap]    kern/vm/coremap.c             (physical frame allocator)
    - [VM]         kern/vm/addrspace.c, vm.c     (address space, page faults)
    - [Sbrk]       kern/syscall/sbrk_syscall.c
    - [Files]      kern/syscall/file_syscalls/   (open-file objects, tables)
    - [Procs]      kern/proc/proc.c, waitpid/exit
    - [Execv]      kern/syscall/execv_syscall.c

    Kernel code runs here as a sequential program: a lock acquire/release
    pair is the identity on the modelled state, so locks are left out. *)

From Stdlib Require Import ZArith Lia Bool List.
From stdpp Require Import base tactics option list gmap strings.

Set Default Proof Using "Type".

(** ** Machine integers *)

(** [uint32_t], [vaddr_t], [paddr_t], [size_t] on the 32-bit MIPS target. *)
Definition u32 (x : Z) : Z := (x mod 2 ^ 32)%Z.

(** [int32_t], [intptr_t], [int]: the signed reading of a 32-bit word. *)
Definition s32 (x : Z) : Z :=
  (if u32 x <? 2 ^ 31 then u32 x else u32 x - 2 ^ 32)%Z.

(** [off_t] is a signed 64-bit integer. *)
Definition s64 (x : Z) : Z :=
  (if x mod 2 ^ 64 <? 2 ^ 63 then x mod 2 ^ 64 else x mod 2 ^ 64 - 2 ^ 64)%Z.

Definition is_u32 (x : Z) : Prop := (0 <= x < 2 ^ 32)%Z.
Definition is_s32 (x : Z) : Prop := (- 2 ^ 31 <= x < 2 ^ 31)%Z.

(** ** Error codes (kern/errno.h)

    The kernel only ever compares the codes with zero and with each other,
    so they are an enumeration here. *)
Inductive errno : Set :=
  | ENOMEM | EFAULT | ENAMETOOLONG | EINVAL | ENPROC | E2BIG | ESRCH
  | ECHILD | ENOENT | EMFILE | EBADF | EIO | ESPIPE.

Global Instance errno_eq_dec : EqDecision errno.
Proof. solve_decision. Defined.

(** A system call returns 0 and stores its value through [retval], or
    returns a non-zero error code. *)
Inductive result (A : Type) : Type :=
  | Ok (a : A)
  | Err (e : errno).
Arguments Ok {A} a.
Arguments Err {A} e.

(** ** Headers that are not part of the sources at hand

    The constants and macros the code takes from kern/limits.h,
    kern/errno.h, kern/fcntl.h, kern/wait.h, mips/vm.h, mips/tlb.h and
    vm.h.  The development is parametric in them; [os161] below holds the
    values of the stock OS/161 tree and is used for concrete runs only. *)
Class headers : Type := Headers {
  (* kern/limits.h *)
  OPEN_MAX : Z;
  PID_MIN : Z;
  PID_MAX : Z;
  PATH_MAX : Z;
  ARG_MAX : Z;
  (* kern/errno.h: the integer behind a code *)
  errno_code : errno -> Z;
  (* kern/fcntl.h *)
  O_RDONLY : Z;
  O_WRONLY : Z;
  O_ACCMODE : Z;
  O_APPEND : Z;
  (* kern/wait.h: _MKWAIT_EXIT *)
  MKWAIT_EXIT : Z -> Z;
  (* mips/vm.h *)
  MIPS_KSEG0 : Z;
  USERSTACK : Z;
  (* mips/tlb.h *)
  NUM_TLB : nat;
  TLBLO_VALID : Z;
  TLBLO_DIRTY : Z;
  TLBHI_INVALID : nat -> Z;
  TLBLO_INVALID : Z;
  (* vm.h *)
  VM_FAULT_READONLY : Z
}.

Definition os161 : headers :=
  {| OPEN_MAX := 128;
     PID_MIN := 2;
     PID_MAX := 32767;
     PATH_MAX := 1024;
     ARG_MAX := 65536;
     errno_code := fun e =>
       match e with
       | ENOMEM => 3 | EFAULT => 6 | ENAMETOOLONG => 7 | EINVAL => 8
       | ENPROC => 12 | E2BIG => 14 | ESRCH => 15 | ECHILD => 16
       | ENOENT => 19 | EMFILE => 28 | EBADF => 30 | EIO => 32
       | ESPIPE => 33
       end%Z;
     O_RDONLY := 0;
     O_WRONLY := 1;
     O_ACCMODE := 3;
     O_APPEND := 32;
     MKWAIT_EXIT := fun x => Z.lor (Z.shiftl x 2) 0;
     MIPS_KSEG0 := 0x80000000;
     USERSTACK := 0x80000000;
     NUM_TLB := 64;
     TLBLO_VALID := 0x200;
     TLBLO_DIRTY := 0x400;
     TLBHI_INVALID := fun entryno => Z.shiftl (0x80000 + Z.of_nat entryno) 12;
     TLBLO_INVALID := 0;
     VM_FAULT_READONLY := 2 |}.

(** ** Paging constants

    [PAGE_SIZE] is 4096 and an address splits into 10 + 10 + 12 bits, so
    [PAGE_FRAME] masks the upper 20 bits of a 32-bit word. *)
Definition PAGE_SIZE : Z := 4096.
Definition PAGE_FRAME : Z := 0xfffff000.

(** The direct-mapped kernel segment (mips/vm.h). *)
Definition PADDR_TO_KVADDR `{headers} (pa : Z) : Z := u32 (pa + MIPS_KSEG0).
Definition KVADDR_TO_PADDR `{headers} (kva : Z) : Z := u32 (kva - MIPS_KSEG0).

(* ================================================================== *)
(** * kern/vm/coremap.c *)
(* ================================================================== *)

Module Coremap.

(** [struct coremap_entry]. *)
Record coremap_entry : Set := Entry {
  free : bool;        (* true if this physical page is not allocated *)
  block_size : nat    (* size of the block, set at the block head *)
}.

Global Instance coremap_entry_eq_dec : EqDecision coremap_entry.
Proof. solve_decision. Defined.

(** The file's globals.  Frame indices and page counts are [unsigned]; the
    only sums the code forms on them are [i + j] and [index + i], which the
    loop guards keep at or below [total_pages], so they are naturals here.
    Addresses are 32-bit words. *)
Record state : Type := State {
  coremap : list coremap_entry;
  total_pages : nat;
  first_paddr : Z;
  coremap_ready : bool
}.

(** What a call does: it returns, or it stops the kernel in [KASSERT]. *)
Inductive outcome (A : Type) : Type :=
  | Ret (a : A)
  | Panic.
Arguments Ret {A} a.
Arguments Panic {A}.

Definition sizeof_coremap_entry : Z := 8.

Section WithHeaders.
Context {hdr : headers}.

(** [vm_bootstrap], with [ram_getsize] and [ram_getfirstfree] answering
    [hi0] and [lo0]. *)
Definition vm_bootstrap (hi0 lo0 : Z) : state :=
  let hi := (hi0 / PAGE_SIZE * PAGE_SIZE)%Z in
  let lo := u32 ((lo0 + PAGE_SIZE - 1) / PAGE_SIZE * PAGE_SIZE) in
  let total_ram_pages := (u32 (hi - lo) / PAGE_SIZE)%Z in
  let coremap_bytes := u32 (total_ram_pages * sizeof_coremap_entry) in
  let coremap_pages := (u32 (coremap_bytes + PAGE_SIZE - 1) / PAGE_SIZE)%Z in
  let first := u32 (lo + coremap_pages * PAGE_SIZE) in
  let total := Z.to_nat (u32 (hi - first) / PAGE_SIZE) in
  {| coremap := replicate total (Entry true 0);
     total_pages := total;
     first_paddr := first;
     coremap_ready := true |}.

(** The state before [vm_bootstrap] has run. *)
Definition boot_state : state :=
  {| coremap := []; total_pages := 0; first_paddr := 0;
     coremap_ready := false |}.

Definition set_coremap (s : state) (cm : list coremap_entry) : state :=
  {| coremap := cm; total_pages := total_pages s;
     first_paddr := first_paddr s; coremap_ready := coremap_ready s |}.

Definition frame_paddr (s : state) (i : nat) : Z :=
  u32 (first_paddr s + Z.of_nat i * PAGE_SIZE).

(** The scan [for (i = 0; i < total_pages; i++) if (coremap[i].free)]:
    first index in [i, i + n) whose frame is free. *)
Fixpoint first_free (cm : list coremap_entry) (i n : nat) : option nat :=
  match n with
  | O => None
  | S n' =>
      match cm !! i with
      | Some e => if free e then Some i else first_free cm (S i) n'
      | None => first_free cm (S i) n'
      end
  end.

(** [alloc_page]; [steal] is what [ram_stealmem(1)] answers during early
    boot.  Returns the physical address, 0 when memory is exhausted. *)
Definition alloc_page (steal : Z) (s : state) : Z * state :=
  if negb (coremap_ready s) then (steal, s)
  else
    match first_free (coremap s) 0 (total_pages s) with
    | Some i => (frame_paddr s i,
                 set_coremap s (<[i := Entry false 1]> (coremap s)))
    | None => (0%Z, s)
    end.

(** [free_page]. *)
Definition free_page (pa : Z) (s : state) : outcome state :=
  if negb (coremap_ready s) then Ret s
  else if (pa <? first_paddr s)%Z then Ret s
  else
    let cm_idx := Z.to_nat (u32 (pa - first_paddr s) / PAGE_SIZE) in
    if negb (cm_idx <? total_pages s) then Panic
    else
      match coremap s !! cm_idx with
      | Some e =>
          if negb (block_size e =? 1) then Panic
          else Ret (set_coremap s (<[cm_idx := Entry true 0]> (coremap s)))
      | None => Panic
      end.

(** The inner loop of [alloc_kpages]: are frames [i, i + npages) all inside
    the map and free?  The C loop leaves at the first [j] that fails. *)
Definition run_ok (s : state) (i npages : nat) : bool :=
  forallb
    (fun j => negb ((total_pages s <=? i + j)
                    || negb (from_option free false (coremap s !! (i + j)))))
    (seq 0 npages).

(** The outer scan of [alloc_kpages] from index [i], [n] iterations. *)
Fixpoint find_run (s : state) (npages i n : nat) : option nat :=
  match n with
  | O => None
  | S n' =>
      if negb (from_option free false (coremap s !! i)) then
        find_run s npages (S i) n'
      else if run_ok s i npages then Some i
      else find_run s npages (S i) n'
  end.

(** [for (j = 1; j < npages; j++) coremap[i + j] = {false, 0}] and the
    like: store [e] at the [n] indices from [i] on. *)
Fixpoint fill (cm : list coremap_entry) (i n : nat) (e : coremap_entry)
  : list coremap_entry :=
  match n with
  | O => cm
  | S n' => fill (<[i := e]> cm) (S i) n' e
  end.

(** [alloc_kpages]; returns the kernel virtual address, 0 on failure. *)
Definition alloc_kpages (steal : Z) (npages : nat) (s : state) : Z * state :=
  if negb (coremap_ready s) then
    (if (steal =? 0)%Z then 0%Z else PADDR_TO_KVADDR steal, s)
  else
    match find_run s npages 0 (total_pages s) with
    | Some i =>
        let cm1 := <[i := Entry false npages]> (coremap s) in
        let cm2 := fill cm1 (i + 1) (npages - 1) (Entry false 0) in
        (PADDR_TO_KVADDR (frame_paddr s i), set_coremap s cm2)
    | None => (0%Z, s)
    end.

(** [free_kpages]. *)
Definition free_kpages (kvaddr : Z) (s : state) : outcome state :=
  if negb (coremap_ready s) then Ret s
  else
    let pa := KVADDR_TO_PADDR kvaddr in
    if (pa <? first_paddr s)%Z then Ret s
    else
      let index := Z.to_nat (u32 (pa - first_paddr s) / PAGE_SIZE) in
      if negb (index <? total_pages s) then Panic
      else
        match coremap s !! index with
        | Some e =>
            let block_ln := block_size e in
            if negb (0 <? block_ln) then Panic
            else Ret (set_coremap s (fill (coremap s) index block_ln
                                          (Entry true 0)))
        | None => Panic
        end.

(** *** The accounting of the map *)

(** Number of entries with [free == false]. *)
Definition used_frames (cm : list coremap_entry) : nat :=
  length (filter (fun e => free e = false) cm).

(** Sum of [block_size] over the heads of the live allocations: the frames
    that are not free (an interior frame carries 0). *)
Definition head_block_sizes (cm : list coremap_entry) : nat :=
  foldr (fun e acc => (if free e then 0 else block_size e) + acc) 0 cm.

Definition accounting (s : state) : Prop :=
  head_block_sizes (coremap s) = used_frames (coremap s).

(** *** Reachable states *)

(** The public operations of the allocator, with the answer of
    [ram_stealmem] for the two that may run before bootstrap. *)
Inductive op : Type :=
  | AllocPage (steal : Z)
  | FreePage (pa : Z)
  | AllocKpages (steal : Z) (npages : nat)
  | FreeKpages (kvaddr : Z).

Definition step (o : op) (s : state) : outcome state :=
  match o with
  | AllocPage steal => Ret (snd (alloc_page steal s))
  | FreePage pa => free_page pa s
  | AllocKpages steal n => Ret (snd (alloc_kpages steal n s))
  | FreeKpages kva => free_kpages kva s
  end.

(** States reached from a bootstrapped (or not yet bootstrapped) map by
    operations that satisfy [P] and return. *)
Inductive reachable (P : op -> Prop) : state -> Prop :=
  | reach_early : reachable P boot_state
  | reach_boot hi lo : reachable P (vm_bootstrap hi lo)
  | reach_step o s s' :
      reachable P s -> P o -> step o s = Ret s' -> reachable P s'.

(** Requests for at least one page. *)
Definition nonempty_request (o : op) : Prop :=
  match o with
  | AllocKpages _ n => 0 < n
  | _ => True
  end.

(** The shape every map built by non-empty requests has: free frames and
    blocks, a block being a head that records its length followed by its
    interior frames. *)
Inductive blocks : list coremap_entry -> Prop :=
  | blocks_nil : blocks []
  | blocks_free l : blocks l -> blocks (Entry true 0 :: l)
  | blocks_alloc n l :
      blocks l ->
      blocks (Entry false (S n) :: replicate n (Entry false 0) ++ l).

Definition wf (s : state) : Prop :=
  blocks (coremap s) /\ length (coremap s) = total_pages s.

(** Frame [i] is the head of a live allocation of [n] frames. *)
Definition is_head (cm : list coremap_entry) (i n : nat) : Prop :=
  0 < n /\ cm !! i = Some (Entry false n).

(** A machine with RAM [0x1000, 0x6000): one page holds the map, four
    frames are managed, the first at 0x2000. *)
Definition small_ram : state := vm_bootstrap 0x6000 0x1000.

(** Frames [i, i + n) exist and are free. *)
Definition free_run (cm : list coremap_entry) (i n : nat) : Prop :=
  forall j, j < n -> cm !! (i + j) = Some (Entry true 0).


(** The managed frames lie in the 32-bit physical address space. *)
Definition addressable (s : state) : Prop :=
  (0 <= first_paddr s /\
   first_paddr s + Z.of_nat (total_pages s) * PAGE_SIZE <= 2 ^ 32)%Z.

End WithHeaders.
End Coremap.

(* ================================================================== *)
(** * kern/vm/addrspace.c, kern/vm/vm.c, kern/syscall/sbrk_syscall.c *)
(* ================================================================== *)

Module VM.
Section WithHeaders.
Context {hdr : headers}.

(** Page-table geometry (vm.c, addrspace.h). *)
Definition PT_L1_SIZE : nat := 1024.
Definition PT_L2_SIZE : nat := 1024.
Definition PT_L1_SHIFT : Z := 22.
Definition PT_L2_SHIFT : Z := 12.
Definition PT_INDEX_MASK : Z := 0x3ff.

(** [struct region] (the [next] link is the tail of the list). *)
Record region : Type := Region {
  vbase : Z;
  npages : Z;
  readable : bool;
  writeable : bool;
  executable : bool
}.

(** [struct addrspace]: [pt_l1] holds, per level-1 index, no table or a
    level-2 array of frame addresses (0: not mapped yet). *)
Record addrspace : Type := Addrspace {
  regions : list region;
  pt_l1 : list (option (list Z));
  heap_base : Z;
  heap_end : Z;
  stack_base : Z;
  stack_end : Z;
  loading : bool
}.

(** The current process's address space, the TLB (entryhi, entrylo per
    slot) and the frame allocator. *)
Record kstate : Type := KState {
  cur_as : option addrspace;
  tlb : list (Z * Z);
  cm : Coremap.state
}.

(** What the environment answers during one call: does [kmalloc] of a
    level-2 table succeed, what does [ram_stealmem] give before bootstrap,
    what does [random()] return. *)
Record env : Type := Env {
  kmalloc_ok : bool;
  steal : Z;
  rnd : Z
}.

Definition set_as (k : kstate) (a : addrspace) : kstate :=
  {| cur_as := Some a; tlb := tlb k; cm := cm k |}.

Definition set_pt (a : addrspace) (pt : list (option (list Z))) : addrspace :=
  {| regions := regions a; pt_l1 := pt; heap_base := heap_base a;
     heap_end := heap_end a; stack_base := stack_base a;
     stack_end := stack_end a; loading := loading a |}.

Definition set_heap_end (a : addrspace) (e : Z) : addrspace :=
  {| regions := regions a; pt_l1 := pt_l1 a; heap_base := heap_base a;
     heap_end := e; stack_base := stack_base a;
     stack_end := stack_end a; loading := loading a |}.

(** [as_create]. *)
Definition as_create : addrspace :=
  {| regions := []; pt_l1 := replicate PT_L1_SIZE None;
     heap_base := 0; heap_end := 0; stack_base := 0; stack_end := 0;
     loading := false |}.

(** [as_define_region]; [node_ok] tells whether [kmalloc] of the region
    node succeeds. *)
Definition as_define_region (node_ok : bool) (a : addrspace) (vaddr sz : Z)
    (r w x : bool) : result addrspace :=
  let sz1 := u32 (sz + Z.land vaddr (Z.lxor PAGE_FRAME 0xffffffff)) in
  let vaddr1 := Z.land vaddr PAGE_FRAME in
  let sz2 := Z.land (u32 (sz1 + PAGE_SIZE - 1)) PAGE_FRAME in
  let np := (sz2 / PAGE_SIZE)%Z in
  if negb node_ok then Err ENOMEM
  else
    let reg_end := u32 (vaddr1 + np * PAGE_SIZE) in
    let grow := (heap_base a =? 0)%Z || (heap_base a <? reg_end)%Z in
    Ok {| regions := Region vaddr1 np r w x :: regions a;
          pt_l1 := pt_l1 a;
          heap_base := if grow then reg_end else heap_base a;
          heap_end := if grow then reg_end else heap_end a;
          stack_base := stack_base a; stack_end := stack_end a;
          loading := loading a |}.

(** [as_define_stack]; returns the initial stack pointer. *)
Definition as_define_stack (a : addrspace) : addrspace * Z :=
  ({| regions := regions a; pt_l1 := pt_l1 a; heap_base := heap_base a;
      heap_end := heap_end a; stack_base := USERSTACK;
      stack_end := USERSTACK - 1 * PAGE_SIZE; loading := loading a |},
   USERSTACK).

(** The test of the region loop in [vm_fault]. *)
Definition region_contains (r : region) (faultaddress : Z) : bool :=
  let start := vbase r in
  let end_ := u32 (vbase r + npages r * PAGE_SIZE) in
  (start <=? faultaddress)%Z && (faultaddress <? end_)%Z.

(** The region loop: the first region of the list that contains the
    address. *)
Fixpoint find_region (rs : list region) (faultaddress : Z) : option region :=
  match rs with
  | [] => None
  | r :: rs' =>
      if region_contains r faultaddress then Some r
      else find_region rs' faultaddress
  end.

Definition in_heap (a : addrspace) (faultaddress : Z) : bool :=
  (heap_base a <=? faultaddress)%Z && (faultaddress <? heap_end a)%Z.

Definition in_stack (a : addrspace) (faultaddress : Z) : bool :=
  (stack_end a <=? faultaddress)%Z && (faultaddress <? stack_base a)%Z.

(** Steps 2 and 3 of [vm_fault]: [None] when the address is in no region,
    heap or stack ([in_region] stays false), else the [writeable] flag. *)
Definition classify (a : addrspace) (faultaddress : Z) : option bool :=
  match find_region (regions a) faultaddress with
  | Some r => Some (writeable r || loading a)
  | None =>
      if in_heap a faultaddress then Some true
      else if in_stack a faultaddress then Some true
      else None
  end.

(** The scan of the TLB for a slot whose valid bit is clear. *)
Fixpoint tlb_free_slot (t : list (Z * Z)) (i : nat) : option nat :=
  match t with
  | [] => None
  | (_, old_elo) :: t' =>
      if (Z.land old_elo TLBLO_VALID =? 0)%Z then Some i
      else tlb_free_slot t' (S i)
  end.

(** The tail of [vm_fault]: write the entry into the first slot that is
    not valid, else into slot [random() % NUM_TLB]. *)
Definition tlb_install (e : env) (ehi elo : Z) (t : list (Z * Z))
  : list (Z * Z) :=
  match tlb_free_slot (take NUM_TLB t) 0 with
  | Some i => <[i := (ehi, elo)]> t
  | None => <[Z.to_nat (rnd e mod Z.of_nat NUM_TLB) := (ehi, elo)]> t
  end.

(** "Get or allocate the level 2 table" of [vm_fault]: the table and the
    address space with the table in place, [None] when [kmalloc] fails. *)
Definition get_l2_table (e : env) (a : addrspace) (l1 : nat)
  : option (list Z * addrspace) :=
  match pt_l1 a !! l1 with
  | Some (Some t) => Some (t, a)
  | _ =>
      if kmalloc_ok e then
        let t := replicate PT_L2_SIZE 0%Z in
        Some (t, set_pt a (<[l1 := Some t]> (pt_l1 a)))
      else None
  end.

(** [vm_fault]: the error code returned ([None] for 0) and the state
    left behind.  The contents of frames are not modelled, so the [bzero]
    of a fresh frame leaves no trace. *)
Definition vm_fault (e : env) (faulttype faultaddress : Z) (k : kstate)
  : option errno * kstate :=
  let faultaddress := Z.land faultaddress PAGE_FRAME in
  match cur_as k with
  | None => (Some EFAULT, k)
  | Some a =>
      match classify a faultaddress with
      | None => (Some EFAULT, k)
      | Some writeable =>
          if (faulttype =? VM_FAULT_READONLY)%Z && negb writeable then
            (Some EFAULT, k)
          else
            let l1 := Z.to_nat (Z.land (Z.shiftr faultaddress PT_L1_SHIFT)
                                       PT_INDEX_MASK) in
            let l2 := Z.to_nat (Z.land (Z.shiftr faultaddress PT_L2_SHIFT)
                                       PT_INDEX_MASK) in
            match get_l2_table e a l1 with
            | None => (Some ENOMEM, k)
            | Some (l2_table, a1) =>
                let paddr := default 0%Z (l2_table !! l2) in
                let ehi := faultaddress in
                let elo pa :=
                  Z.lor (Z.lor pa TLBLO_VALID)
                        (if writeable then TLBLO_DIRTY else 0) in
                if (paddr =? 0)%Z then
                  (* first access: allocate a physical frame *)
                  let '(pa, cm') := Coremap.alloc_page (steal e) (cm k) in
                  if (pa =? 0)%Z then
                    (Some ENOMEM,
                     {| cur_as := Some a1; tlb := tlb k; cm := cm' |})
                  else
                    let a2 :=
                      set_pt a1 (<[l1 := Some (<[l2 := pa]> l2_table)]>
                                   (pt_l1 a1)) in
                    (None,
                     {| cur_as := Some a2;
                        tlb := tlb_install e ehi (elo pa) (tlb k);
                        cm := cm' |})
                else
                  (None,
                   {| cur_as := Some a1;
                      tlb := tlb_install e ehi (elo paddr) (tlb k);
                      cm := cm k |})
            end
      end
  end.

(** A page fault as it reaches [vm_fault]: what the environment answers
    while it is served, its type and its address. *)
Record fault : Type := Fault {
  f_env : env;
  f_type : Z;
  f_addr : Z
}.

Definition take_fault (f : fault) (k : kstate) : option errno * kstate :=
  vm_fault (f_env f) (f_type f) (f_addr f) k.

(** Faults served one after the other, whatever each returns. *)
Definition take_faults (fs : list fault) (k : kstate) : kstate :=
  foldl (fun k f => snd (take_fault f k)) k fs.

(** The inner loop of [as_destroy]: [free_page] for every entry of a
    level-2 table that is not 0. *)
Fixpoint free_frames (l2 : list Z) (s : Coremap.state)
  : Coremap.outcome Coremap.state :=
  match l2 with
  | [] => Coremap.Ret s
  | pa :: rest =>
      if (pa =? 0)%Z then free_frames rest s
      else
        match Coremap.free_page pa s with
        | Coremap.Ret s' => free_frames rest s'
        | Coremap.Panic => Coremap.Panic
        end
  end.

(** The outer loop of [as_destroy] over the level-1 array. *)
Fixpoint free_tables (l1 : list (option (list Z))) (s : Coremap.state)
  : Coremap.outcome Coremap.state :=
  match l1 with
  | [] => Coremap.Ret s
  | None :: rest => free_tables rest s
  | Some l2 :: rest =>
      match free_frames l2 s with
      | Coremap.Ret s' => free_tables rest s'
      | Coremap.Panic => Coremap.Panic
      end
  end.

(** [as_destroy], as far as the frame allocator goes: every frame the
    page table maps is freed (the level-2 tables, the region nodes and
    the structure itself go back to [kfree]). *)
Definition as_destroy (a : addrspace) (s : Coremap.state)
  : Coremap.outcome Coremap.state :=
  free_tables (pt_l1 a) s.

(** [sys_sbrk].  [retval0] is what the caller's [retval] cell held; the
    result is the error code ([None] for 0), the cell afterwards (an
    [int32_t]) and the state. *)
Definition sys_sbrk (amount : Z) (retval0 : Z) (k : kstate)
  : option errno * Z * kstate :=
  match cur_as k with
  | None => (Some ENOMEM, retval0, k)
  | Some a =>
      let retval := s32 (heap_end a) in
      if (amount =? 0)%Z then (None, retval, k)
      else
        let old_end := heap_end a in
        let new_end := u32 (old_end + amount) in
        if ((0 <? amount)%Z && (new_end <? old_end)%Z)
           || ((amount <? 0)%Z && (old_end <? new_end)%Z) then
          (Some ENOMEM, retval, k)
        else if (new_end <? heap_base a)%Z then (Some EINVAL, retval, k)
        else if (stack_end a <=? new_end)%Z then (Some ENOMEM, retval, k)
        else (None, retval, set_as k (set_heap_end a new_end))
  end.

(** *** Vocabulary of the page-fault properties *)

(** The address lies in [[base, base + npages * PAGE_SIZE)]. *)
Definition lies_in (r : region) (addr : Z) : Prop :=
  (vbase r <= addr < vbase r + npages r * PAGE_SIZE)%Z.

(** The fields of a region are unsigned. *)
Definition region_ok (r : region) : Prop := (0 <= vbase r /\ 0 <= npages r)%Z.

Definition l1_index (faultaddress : Z) : nat :=
  Z.to_nat (Z.land (Z.shiftr faultaddress PT_L1_SHIFT) PT_INDEX_MASK).
Definition l2_index (faultaddress : Z) : nat :=
  Z.to_nat (Z.land (Z.shiftr faultaddress PT_L2_SHIFT) PT_INDEX_MASK).

(** The page at [faultaddress] cannot be given memory: the level-2 table
    is missing and [kmalloc] fails, or the page has no frame yet and
    [alloc_page] returns 0. *)
Definition out_of_memory (e : env) (k : kstate) (a : addrspace)
    (faultaddress : Z) : bool :=
  match get_l2_table e a (l1_index faultaddress) with
  | None => true
  | Some (t, _) =>
      (default 0 (t !! l2_index faultaddress) =? 0)%Z
      && (fst (Coremap.alloc_page (steal e) (cm k)) =? 0)%Z
  end.

(** [as_prepare_load] and [as_complete_load] (the latter also flushes the
    TLB through [as_activate]). *)
Definition set_loading (a : addrspace) (b : bool) : addrspace :=
  {| regions := regions a; pt_l1 := pt_l1 a; heap_base := heap_base a;
     heap_end := heap_end a; stack_base := stack_base a;
     stack_end := stack_end a; loading := b |}.

Definition as_prepare_load (a : addrspace) : addrspace := set_loading a true.

(** [as_activate]: with an address space current, every TLB slot is
    overwritten with the invalid entry. *)
Definition as_activate (k : kstate) : kstate :=
  match cur_as k with
  | None => k
  | Some _ =>
      {| cur_as := cur_as k;
         tlb := map (fun i => (TLBHI_INVALID i, TLBLO_INVALID)) (seq 0 NUM_TLB);
         cm := cm k |}
  end.

Definition as_complete_load (k : kstate) : kstate :=
  match cur_as k with
  | None => k
  | Some a => as_activate (set_as k (set_loading a false))
  end.

(** *** Vocabulary of the page-table properties *)

(** The level-1 array has its [PT_L1_SIZE] cells and every level-2 table
    its [PT_L2_SIZE] cells. *)
Definition pt_ok (a : addrspace) : Prop :=
  length (pt_l1 a) = PT_L1_SIZE /\
  (forall i t, pt_l1 a !! i = Some (Some t) -> length t = PT_L2_SIZE).

(** The frame the page table gives for an address: [pt_l1[l1][l2]], and 0
    when there is no level-2 table. *)
Definition pt_lookup (a : addrspace) (va : Z) : Z :=
  match pt_l1 a !! l1_index va with
  | Some (Some t) => default 0%Z (t !! l2_index va)
  | _ => 0%Z
  end.

(** Every page that has a frame in [a] has the same frame in [a']. *)
Definition pt_extends (a a' : addrspace) : Prop :=
  forall va,
    pt_lookup a (Z.land va PAGE_FRAME) <> 0%Z ->
    pt_lookup a' (Z.land va PAGE_FRAME) = pt_lookup a (Z.land va PAGE_FRAME).

(** The [entrylo] word [vm_fault] builds for a frame. *)
Definition tlb_lo (pa : Z) (writeable : bool) : Z :=
  Z.lor (Z.lor pa TLBLO_VALID) (if writeable then TLBLO_DIRTY else 0).

(** The fields of an address space that only [as_define_region],
    [as_define_stack], [sys_sbrk] and the loader set. *)
Definition same_layout (a a' : addrspace) : Prop :=
  regions a' = regions a /\ heap_base a' = heap_base a /\
  heap_end a' = heap_end a /\ stack_base a' = stack_base a /\
  stack_end a' = stack_end a /\ loading a' = loading a.

(** The end of a region, as the sum the code forms without wrap-around. *)
Definition region_end (r : region) : Z := (vbase r + npages r * PAGE_SIZE)%Z.

(** The heap is empty and starts at or above the end of every region. *)
Definition heap_above_regions (a : addrspace) : Prop :=
  heap_end a = heap_base a /\
  Forall (fun r => region_ok r /\ (region_end r <= heap_base a)%Z) (regions a).

(** The break lies between the heap base and the bottom of the stack. *)
Definition heap_ok (a : addrspace) : Prop :=
  (0 <= heap_base a <= heap_end a /\ heap_end a < stack_end a /\
   stack_end a < 2 ^ 32)%Z.

(** A text segment of one page at 0x400000, a stack, an empty heap, a
    flushed TLB and a frame allocator whose only frame is in use. *)
Definition text_region : region := Region 0x400000 1 true false true.

Definition sample_as : addrspace :=
  {| regions := [text_region]; pt_l1 := replicate PT_L1_SIZE None;
     heap_base := 0x401000; heap_end := 0x401000;
     stack_base := USERSTACK; stack_end := USERSTACK - PAGE_SIZE;
     loading := false |}.

Definition full_coremap : Coremap.state :=
  Coremap.State [Coremap.Entry false 1] 1 0x2000 true.

Definition free_coremap : Coremap.state :=
  Coremap.State [Coremap.Entry true 0] 1 0x2000 true.

Definition sample_env : env := Env true 0 0.

Definition sample_kstate (a : addrspace) (c : Coremap.state) : kstate :=
  {| cur_as := Some a; tlb := replicate NUM_TLB (0%Z, 0%Z); cm := c |}.

End WithHeaders.
End VM.

(* ================================================================== *)
(** * kern/syscall/file_syscalls/ *)
(* ================================================================== *)

Module Files.

(** [struct open_file_handler]; the reference count is bounded by the
    number of table slots plus the calls in flight, far below 2^31. *)
Record open_file_handler : Type := OpenFile {
  offset : Z;            (* off_t: current position in the file *)
  flags : Z;             (* file status flags *)
  file_vn : nat;         (* the vnode *)
  reference_count : Z
}.

(** [struct file_table]: the array [files[__OPEN_MAX]] of pointers to
    open files, [None] for [NULL]. *)
Abbreviation file_table := (list (option nat)).

(** The kernel heap as far as files go, and two traces: the vnodes handed
    to [vfs_close] and the indices at which some [files[]] array was read
    (latest first). *)
Record kstate : Type := KState {
  objs : gmap nat open_file_handler;
  tables : gmap nat file_table;
  vfs_closed : list nat;
  slot_reads : list (nat * Z)
}.

(** Memory errors of the C program, which leave its behaviour undefined:
    indexing [files[]] outside the array, following a pointer to freed
    memory, following [NULL]. *)
Inductive fault : Type :=
  | OutOfBounds (table : nat) (index : Z)
  | Dangling (p : nat)
  | NullPointer.

Inductive res (A : Type) : Type :=
  | Val (a : A) (k : kstate)
  | Fault (f : fault).
Arguments Val {A} a k.
Arguments Fault {A} f.

(** Kernel code as a state transformer that may fault. *)
Definition M (A : Type) : Type := kstate -> res A.

Definition ret {A} (a : A) : M A := fun k => Val a k.

Definition bind {A B} (f : A -> M B) (m : M A) : M B :=
  fun k => match m k with
           | Val a k' => f a k'
           | Fault e => Fault e
           end.

(** The monad notations [x ← m; f] and [m;; f] of stdpp. *)
Global Instance M_ret : MRet M := @ret.
Global Instance M_bind : MBind M := @bind.

(** The value a run ends with, if it ends. *)
Definition value_of {A} (r : res A) : option A :=
  match r with
  | Val a _ => Some a
  | Fault _ => None
  end.

(** [for (i = ...; ...; i++) body(i)] over the given indices. *)
Fixpoint for_each (l : list Z) (body : Z -> M unit) : M unit :=
  match l with
  | [] => ret tt
  | i :: l' => body i;; for_each l' body
  end.

(** What the VFS answers (vnode.h): [VOP_ISSEEKABLE]; [VOP_STAT], giving
    [st_size]; [VOP_READ] and [VOP_WRITE] on a uio that starts at an
    offset with a residual count, giving the final [uio_offset] and
    [uio_resid]. *)
Record vfs_ops : Type := VfsOps {
  VOP_ISSEEKABLE : nat -> bool;
  VOP_STAT : nat -> result Z;
  VOP_READ : nat -> Z -> Z -> result (Z * Z);
  VOP_WRITE : nat -> Z -> Z -> result (Z * Z)
}.

(* lseek_syscall.c *)
Definition SEEK_SET : Z := 0.
Definition SEEK_CUR : Z := 1.
Definition SEEK_END : Z := 2.

Section WithHeaders.
Context {hdr : headers}.

(** *** Memory accesses *)

Definition set_objs (k : kstate) (o : gmap nat open_file_handler) : kstate :=
  {| objs := o; tables := tables k; vfs_closed := vfs_closed k;
     slot_reads := slot_reads k |}.

Definition set_tables (k : kstate) (ts : gmap nat file_table) : kstate :=
  {| objs := objs k; tables := ts; vfs_closed := vfs_closed k;
     slot_reads := slot_reads k |}.

Definition log_close (k : kstate) (vn : nat) : kstate :=
  {| objs := objs k; tables := tables k; vfs_closed := vn :: vfs_closed k;
     slot_reads := slot_reads k |}.

Definition log_read (k : kstate) (ft : nat) (i : Z) : kstate :=
  {| objs := objs k; tables := tables k; vfs_closed := vfs_closed k;
     slot_reads := (ft, i) :: slot_reads k |}.

(** [ft->files[i]] read. *)
Definition read_slot (ft : nat) (i : Z) : M (option nat) :=
  fun k =>
    match tables k !! ft with
    | Some t =>
        if (0 <=? i)%Z && (i <? OPEN_MAX)%Z then
          match t !! Z.to_nat i with
          | Some slot => Val slot (log_read k ft i)
          | None => Fault (OutOfBounds ft i)
          end
        else Fault (OutOfBounds ft i)
    | None => Fault (Dangling ft)
    end.

(** [ft->files[i] = v]. *)
Definition write_slot (ft : nat) (i : Z) (v : option nat) : M unit :=
  fun k =>
    match tables k !! ft with
    | Some t =>
        if (0 <=? i)%Z && (i <? OPEN_MAX)%Z && (Z.to_nat i <? length t) then
          Val tt (set_tables k (<[ft := <[Z.to_nat i := v]> t]> (tables k)))
        else Fault (OutOfBounds ft i)
    | None => Fault (Dangling ft)
    end.

(** [*file] read and written. *)
Definition load (file : nat) : M open_file_handler :=
  fun k =>
    match objs k !! file with
    | Some h => Val h k
    | None => Fault (Dangling file)
    end.

Definition store (file : nat) (h : open_file_handler) : M unit :=
  fun k =>
    match objs k !! file with
    | Some _ => Val tt (set_objs k (<[file := h]> (objs k)))
    | None => Fault (Dangling file)
    end.

(** [kfree(file)] and [kfree(ft)]. *)
Definition kfree_obj (file : nat) : M unit :=
  fun k => Val tt (set_objs k (delete file (objs k))).

Definition kfree_table (ft : nat) : M unit :=
  fun k => Val tt (set_tables k (delete ft (tables k))).

Definition vfs_close (vn : nat) : M unit :=
  fun k => Val tt (log_close k vn).

(** *** open_file_handler.c *)

Definition set_offset (h : open_file_handler) (off : Z) : open_file_handler :=
  OpenFile off (flags h) (file_vn h) (reference_count h).

Definition set_refs (h : open_file_handler) (n : Z) : open_file_handler :=
  OpenFile (offset h) (flags h) (file_vn h) n.

(** [create_open_file]; [kmalloc] answers [None] or a fresh address. *)
Definition create_open_file (kmalloc : option nat) (vn : nat) (fl : Z)
  : M (option nat) :=
  fun k =>
    match kmalloc with
    | None => Val None k
    | Some file =>
        Val (Some file) (set_objs k (<[file := OpenFile 0 fl vn 1]> (objs k)))
    end.

Definition open_file_destroy (file : nat) : M unit :=
  h ← load file;
  vfs_close (file_vn h);;
  kfree_obj file.

Definition open_file_incref (file : option nat) : M unit :=
  match file with
  | None => fun _ => Fault NullPointer
  | Some file =>
      h ← load file;
      store file (set_refs h (reference_count h + 1))
  end.

Definition open_file_decref (file : option nat) : M unit :=
  match file with
  | None => ret tt
  | Some file =>
      h ← load file;
      store file (set_refs h (reference_count h - 1));;
      h' ← load file;
      if (reference_count h' =? 0)%Z then open_file_destroy file
      else ret tt
  end.

(** *** file_table.c *)

(** [create_file_table]; [kmalloc] answers [None] or a fresh address. *)
Definition create_file_table (kmalloc : option nat) : M (option nat) :=
  fun k =>
    match kmalloc with
    | None => Val None k
    | Some ft =>
        Val (Some ft)
            (set_tables k (<[ft := replicate (Z.to_nat OPEN_MAX) None]>
                             (tables k)))
    end.

(** The body of the loop in [destroy_file_table]: a slot that is not
    [NULL] is first set to [NULL], then [open_file_decref] is called on
    what the slot now holds. *)
Definition destroy_body (ft : nat) (i : Z) : M unit :=
  f ← read_slot ft i;
  match f with
  | Some _ =>
      write_slot ft i None;;
      f' ← read_slot ft i;
      open_file_decref f'
  | None => ret tt
  end.

(** [destroy_file_table]. *)
Definition destroy_file_table (ft : option nat) : M unit :=
  match ft with
  | None => ret tt
  | Some ft =>
      for_each (seqZ 0 OPEN_MAX) (destroy_body ft);;
      kfree_table ft
  end.

(** [copy_file_table]. *)
Definition copy_file_table (kmalloc : option nat) (ft : nat)
  : M (option nat) :=
  new_ft ← create_file_table kmalloc;
  match new_ft with
  | None => ret None
  | Some new_ft =>
      for_each (seqZ 0 OPEN_MAX) (fun i =>
        f ← read_slot ft i;
        match f with
        | Some file =>
            write_slot new_ft i (Some file);;
            f' ← read_slot ft i;
            open_file_incref f'
        | None => ret tt
        end);;
      ret (Some new_ft)
  end.

(** *** The system calls; [cur] is [curproc->file_table] *)


(** [sys_open]; [path] is what [copyinstr] answers, [opened] what
    [vfs_open] answers, [kmalloc] as in [create_open_file]. *)
Definition sys_open (path : result unit) (opened : result nat)
    (kmalloc : option nat) (cur : nat) (fl : Z) : M (result Z) :=
  match path with
  | Err e => ret (Err e)
  | Ok _ =>
      match opened with
      | Err e => ret (Err e)
      | Ok vn =>
          f ← create_open_file kmalloc vn fl;
          match f with
          | None => vfs_close vn;; ret (Err ENOMEM)
          | Some file =>
              (* the first slot that is NULL, [OPEN_MAX] when there is none *)
              fd ← foldr (fun i (rest : M Z) =>
                            slot ← read_slot cur i;
                            match slot with
                            | None => write_slot cur i f;; ret i
                            | Some _ => rest
                            end)
                         (ret OPEN_MAX) (seqZ 0 OPEN_MAX);
              if (fd =? OPEN_MAX)%Z then
                open_file_destroy file;; ret (Err EMFILE)
              else ret (Ok fd)
          end
      end
  end.

(** [sys_close]. *)
Definition sys_close (cur : nat) (fd : Z) : M (result unit) :=
  if (OPEN_MAX <=? fd)%Z || (fd <? 0)%Z then ret (Err EBADF)
  else
    f ← read_slot cur fd;
    match f with
    | None => ret (Err EBADF)
    | Some _ =>
        write_slot cur fd None;;
        open_file_decref f;;
        ret (Ok tt)
    end.

(** [sys_read]; the value is [bytes_read], an [ssize_t]. *)
Definition sys_read (vfs : vfs_ops) (cur : nat) (fd buflen : Z)
  : M (result Z) :=
  if (OPEN_MAX <=? fd)%Z || (fd <? 0)%Z then ret (Err EBADF)
  else
    file ← read_slot cur fd;
    match file with
    | None => ret (Err EBADF)
    | Some p =>
        h ← load p;
        if (Z.land (flags h) O_ACCMODE =? O_WRONLY)%Z then ret (Err EBADF)
        else
          open_file_incref file;;
          h ← load p;
          match VOP_READ vfs (file_vn h) (offset h) buflen with
          | Err e => open_file_decref file;; ret (Err e)
          | Ok (uio_offset, uio_resid) =>
              h ← load p;
              store p (set_offset h uio_offset);;
              open_file_decref file;;
              ret (Ok (s32 (buflen - uio_resid)))
          end
    end.

(** [sys_write]; the value is [bytes_written], an [ssize_t]. *)
Definition sys_write (vfs : vfs_ops) (cur : nat) (fd nbytes : Z)
  : M (result Z) :=
  if (fd <? 0)%Z || (OPEN_MAX <? fd)%Z then ret (Err EBADF)
  else
    f ← read_slot cur fd;
    match f with
    | None => ret (Err EBADF)
    | Some p =>
        h ← load p;
        if (Z.land (flags h) O_ACCMODE =? O_RDONLY)%Z then ret (Err EBADF)
        else
          open_file_incref f;;
          h ← load p;
          (* the uio starts at [f->offset], or at the file size on append *)
          let start :=
            if negb (Z.land (flags h) O_APPEND =? 0)%Z then
              VOP_STAT vfs (file_vn h)
            else Ok (offset h) in
          match start with
          | Err stat_result => open_file_decref f;; ret (Err stat_result)
          | Ok uio_offset0 =>
              match VOP_WRITE vfs (file_vn h) uio_offset0 nbytes with
              | Err e => open_file_decref f;; ret (Err e)
              | Ok (uio_offset, uio_resid) =>
                  h ← load p;
                  store p (set_offset h uio_offset);;
                  open_file_decref f;;
                  ret (Ok (s32 (nbytes - uio_resid)))
              end
          end
    end.

(** [sys_lseek]; [pos] and the value are [off_t]. *)
Definition sys_lseek (vfs : vfs_ops) (cur : nat) (fd pos whence : Z)
  : M (result Z) :=
  if (fd <? 0)%Z || (OPEN_MAX <=? fd)%Z then ret (Err EBADF)
  else
    f ← read_slot cur fd;
    match f with
    | None => ret (Err EBADF)
    | Some p =>
        open_file_incref f;;
        h ← load p;
        if negb (VOP_ISSEEKABLE vfs (file_vn h)) then
          open_file_decref f;; ret (Err ESPIPE)
        else
          let computed : result Z :=
            if (whence =? SEEK_SET)%Z then Ok pos
            else if (whence =? SEEK_CUR)%Z then Ok (s64 (offset h + pos))
            else if (whence =? SEEK_END)%Z then
              match VOP_STAT vfs (file_vn h) with
              | Err e => Err e
              | Ok st_size => Ok (s64 (st_size + pos))
              end
            else Err EINVAL in
          match computed with
          | Err e => open_file_decref f;; ret (Err e)
          | Ok new_offset =>
              if (new_offset <? 0)%Z then
                open_file_decref f;; ret (Err EINVAL)
              else
                h ← load p;
                store p (set_offset h new_offset);;
                open_file_decref f;;
                ret (Ok new_offset)
          end
    end.

(** [sys_dup2]. *)
Definition sys_dup2 (cur : nat) (oldfd newfd : Z) : M (result Z) :=
  if (oldfd <? 0)%Z || (newfd <? 0)%Z
     || (OPEN_MAX <=? oldfd)%Z || (OPEN_MAX <=? newfd)%Z
  then ret (Err EBADF)
  else if (oldfd =? newfd)%Z then ret (Ok newfd)
  else
    old_fh ← read_slot cur oldfd;
    new_fh ← read_slot cur newfd;
    match old_fh with
    | None => ret (Err EBADF)
    | Some _ =>
        if decide (new_fh = old_fh) then ret (Ok newfd)
        else
          open_file_incref old_fh;;
          match new_fh with
          | Some _ => open_file_decref new_fh;; write_slot cur newfd None
          | None => ret tt
          end;;
          write_slot cur newfd old_fh;;
          ret (Ok newfd)
    end.

(** *** Reference counting *)

(** Number of slots of one table that point to [file]. *)
Definition slots_in (file : nat) (t : file_table) : nat :=
  length (filter (fun slot => slot = Some file) t).

(** Number of (table, fd) pairs that point to [file]. *)
Definition slot_count (k : kstate) (file : nat) : nat :=
  map_fold (fun _ t n => slots_in file t + n) 0 (tables k).

(** How often [vn] was handed to [vfs_close]. *)
Definition times_closed (k : kstate) (vn : nat) : nat :=
  length (filter (fun v => v = vn) (vfs_closed k)).

(** The file-object refcount invariant: every table has [OPEN_MAX] slots,
    a slot points to a live object, and each live object is pointed to as
    often as its reference count says. *)
Definition refcount_inv (k : kstate) : Prop :=
  (forall ft t, tables k !! ft = Some t -> length t = Z.to_nat OPEN_MAX) /\
  (forall ft t i file, tables k !! ft = Some t -> t !! i = Some (Some file) ->
                       is_Some (objs k !! file)) /\
  (forall file h, objs k !! file = Some h ->
                  reference_count h = Z.of_nat (slot_count k file)).

(** The two states agree on the open-file objects, the file tables and
    the vnodes closed so far. *)
Definition same_files (k k' : kstate) : Prop :=
  objs k' = objs k /\ tables k' = tables k /\ vfs_closed k' = vfs_closed k.

(** Every slot of the table points to a live object. *)
Definition slots_live (k : kstate) (t : file_table) : Prop :=
  forall i file, t !! i = Some (Some file) -> is_Some (objs k !! file).

(** The descriptors are the same, or their slots hold the same open-file
    object. *)
Definition same_object (t : file_table) (oldfd newfd : Z) : Prop :=
  oldfd = newfd \/
  exists file, t !! Z.to_nat oldfd = Some (Some file) /\
               t !! Z.to_nat newfd = Some (Some file).



(** *** A process as [proc_create_runprogram] leaves it

    The table at address 1 holds the console three times: objects 10, 11
    and 12 on the vnodes 100, 101 and 102. *)
Definition console_table : file_table :=
  [Some 10; Some 11; Some 12] ++ replicate (Z.to_nat OPEN_MAX - 3) None.

Definition console_state : kstate :=
  {| objs := {[ 10 := OpenFile 0 O_RDONLY 100 1;
                11 := OpenFile 0 O_WRONLY 101 1;
                12 := OpenFile 0 O_WRONLY 102 1 ]};
     tables := {[ 1 := console_table ]};
     vfs_closed := [];
     slot_reads := [] |}.

(** A VFS whose vnodes are not seekable and transfer everything. *)
Definition console_vfs : vfs_ops :=
  {| VOP_ISSEEKABLE := fun _ => false;
     VOP_STAT := fun _ => Ok 0%Z;
     VOP_READ := fun _ off n => Ok ((off + n)%Z, 0%Z);
     VOP_WRITE := fun _ off n => Ok ((off + n)%Z, 0%Z) |}.

(** The same process after it opened a file of 100 bytes for reading
    and writing (object 13 on vnode 200, descriptor 3) and moved to
    position 5.  Vnodes from 200 on are seekable. *)
Definition disk_table : file_table :=
  [Some 10; Some 11; Some 12; Some 13] ++ replicate (Z.to_nat OPEN_MAX - 4) None.

Definition disk_state : kstate :=
  {| objs := <[13 := OpenFile 5 (Z.lor O_RDONLY 2) 200 1]> (objs console_state);
     tables := {[ 1 := disk_table ]};
     vfs_closed := [];
     slot_reads := [] |}.

Definition disk_vfs : vfs_ops :=
  {| VOP_ISSEEKABLE := fun vn => 200 <=? vn;
     VOP_STAT := fun _ => Ok 100%Z;
     VOP_READ := fun _ off n => Ok ((off + n)%Z, 0%Z);
     VOP_WRITE := fun _ off n => Ok ((off + n)%Z, 0%Z) |}.

End WithHeaders.
End Files.

(* ================================================================== *)
(** * kern/proc/proc.c, waitpid_syscall.c, exit_syscall.c *)
(* ================================================================== *)

Module Procs.

(** [struct proc]; the thread array, the spinlock, the wait lock and the
    wait CV carry no data of their own in a sequential run. *)
Record proc : Type := Proc {
  p_name : string;
  p_addrspace : option nat;
  p_cwd : option nat;
  file_table : option nat;
  p_pid : Z;
  p_parent : Z;
  p_exitcode : Z;
  p_exited : bool
}.

(** Calls [proc_destroy] makes into the other subsystems. *)
Inductive call : Type :=
  | VOP_DECREF (vn : nat)
  | as_destroy (a : nat)
  | destroy_file_table (ft : nat).

Global Instance call_eq_dec : EqDecision call.
Proof. solve_decision. Defined.

(** The process structures on the kernel heap, the PID table
    ([pid_table[i]] is [NULL] where the map has no entry), the kernel
    process, the calls made so far (latest first) and the [int]s that
    [copyout] stored in user memory, by address. *)
Record kstate : Type := KState {
  procs : gmap Z proc;
  pid_table : gmap Z Z;
  kproc : Z;
  calls : list call;
  umem : gmap Z Z
}.

(** What a system call of this file does: it returns, it sleeps in
    [cv_wait], it stops in a [KASSERT], or it follows a pointer to no
    process structure. *)
Inductive outcome : Type :=
  | Returns (r : result Z) (k : kstate)
  | Sleeps
  | Panics
  | Crashes.

Definition set_procs (k : kstate) (ps : gmap Z proc) : kstate :=
  {| procs := ps; pid_table := pid_table k; kproc := kproc k;
     calls := calls k; umem := umem k |}.

Definition set_pid_table (k : kstate) (t : gmap Z Z) : kstate :=
  {| procs := procs k; pid_table := t; kproc := kproc k;
     calls := calls k; umem := umem k |}.

Definition add_calls (k : kstate) (cs : list call) : kstate :=
  {| procs := procs k; pid_table := pid_table k; kproc := kproc k;
     calls := cs ++ calls k; umem := umem k |}.

Definition set_umem (k : kstate) (m : gmap Z Z) : kstate :=
  {| procs := procs k; pid_table := pid_table k; kproc := kproc k;
     calls := calls k; umem := m |}.

Section WithHeaders.
Context {hdr : headers}.

(** The loop of [proc_allocpid]: the first index among the [n] from [i]
    on whose entry is [NULL]. *)
Fixpoint free_slot (t : gmap Z Z) (i : Z) (n : nat) : option Z :=
  match n with
  | O => None
  | S n' =>
      match t !! i with
      | None => Some i
      | Some _ => free_slot t (i + 1) n'
      end
  end.

(** [proc_allocpid]: the [pid_t] returned and the table afterwards. *)
Definition proc_allocpid (p : Z) (k : kstate) : Z * kstate :=
  match free_slot (pid_table k) PID_MIN (Z.to_nat (PID_MAX - PID_MIN)) with
  | Some i => (i, set_pid_table k (<[i := p]> (pid_table k)))
  | None => (errno_code ENPROC, k)
  end.

(** [proc_get]. *)
Definition proc_get (pid : Z) (k : kstate) : option Z :=
  if (PID_MIN <=? pid)%Z && (pid <? PID_MAX)%Z then pid_table k !! pid
  else None.

(** [proc_freepid]. *)
Definition proc_freepid (pid : Z) (k : kstate) : kstate :=
  set_pid_table k (delete pid (pid_table k)).

(** [proc_create]; [kmalloc] answers [NULL] or a fresh address for the
    structure, [name_ok] tells whether [kstrdup] succeeds.  The
    [file_table] field is not written by [proc_create]: it keeps [stale],
    whatever the memory [kmalloc] handed out holds at that place. *)
Definition proc_create (kmalloc : option Z) (name_ok : bool)
    (stale : option nat) (name : string) (k : kstate) : option Z * kstate :=
  match kmalloc with
  | None => (None, k)
  | Some p =>
      if negb name_ok then (None, k)
      else
        let '(pid, k1) :=
          if negb (String.eqb name "[kernel]") then proc_allocpid p k
          else (1%Z, k) in
        (Some p,
         set_procs k1
           (<[p := {| p_name := name; p_addrspace := None; p_cwd := None;
                      file_table := stale; p_pid := pid; p_parent := -1;
                      p_exitcode := 0; p_exited := false |}]> (procs k1)))
  end.

(** [proc_destroy]; [None] when a [KASSERT] fails or the pointer leads
    to no structure. *)
Definition proc_destroy (p : Z) (k : kstate) : option kstate :=
  if decide (p = kproc k) then None
  else
    match procs k !! p with
    | None => None
    | Some pr =>
        let cwd := match p_cwd pr with Some vn => [VOP_DECREF vn] | None => [] end in
        let asp := match p_addrspace pr with Some a => [as_destroy a] | None => [] end in
        let ft := match file_table pr with
                  | Some ft => [destroy_file_table ft] | None => [] end in
        let k1 := add_calls k (ft ++ asp ++ cwd) in
        let k2 := proc_freepid (p_pid pr) k1 in
        Some (set_procs k2 (delete p (procs k2)))
    end.

(** [copyout(&exitcode, status, sizeof(int))]; [uaddr_ok] tells which
    user addresses can be written. *)
Definition copyout_int (uaddr_ok : Z -> bool) (v status : Z) (k : kstate)
  : result kstate :=
  if uaddr_ok status then Ok (set_umem k (<[status := v]> (umem k)))
  else Err EFAULT.

(** [sys__exit] up to [thread_exit]; [cur] is [curproc]. *)
Definition sys__exit (cur : Z) (code : Z) (k : kstate) : option kstate :=
  match procs k !! cur with
  | None => None
  | Some me =>
      Some (set_procs k
              (<[cur := {| p_name := p_name me;
                           p_addrspace := p_addrspace me;
                           p_cwd := p_cwd me; file_table := file_table me;
                           p_pid := p_pid me; p_parent := p_parent me;
                           p_exitcode := MKWAIT_EXIT (Z.land code 0xff);
                           p_exited := true |}]> (procs k)))
  end.

(** [sys_waitpid]; [cur] is [curproc], [status] the user pointer (0 for
    [NULL]). *)
Definition sys_waitpid (uaddr_ok : Z -> bool) (cur : Z)
    (pid status options : Z) (k : kstate) : outcome :=
  if negb (options =? 0)%Z then Returns (Err EINVAL) k
  else
    match proc_get pid k with
    | None => Returns (Err ESRCH) k
    | Some c =>
        match procs k !! c, procs k !! cur with
        | Some child, Some me =>
            if negb (p_parent child =? p_pid me)%Z then Returns (Err ECHILD) k
            else if negb (p_exited child) then Sleeps
            else
              let exitcode := p_exitcode child in
              match
                if negb (status =? 0)%Z then
                  copyout_int uaddr_ok exitcode status k
                else Ok k
              with
              | Err err => Returns (Err err) k
              | Ok k1 =>
                  match proc_destroy c k1 with
                  | Some k2 => Returns (Ok pid) k2
                  | None => Panics
                  end
              end
        | _, _ => Crashes
        end
    end.

(** *** Vocabulary of the properties *)

(** Every slot of the PID table in [PID_MIN, PID_MAX) is taken. *)
Definition table_full (k : kstate) : bool :=
  forallb (fun i => bool_decide (is_Some (pid_table k !! i)))
          (seqZ PID_MIN (PID_MAX - PID_MIN)).

(** Each entry of the PID table points to a process structure that
    carries the entry's index as its PID and is not the kernel process. *)
Definition pid_table_ok (k : kstate) : Prop :=
  forall i c, pid_table k !! i = Some c ->
              c <> kproc k /\ exists pr, procs k !! c = Some pr /\ p_pid pr = i.

(** *** Sample states *)

(** The kernel process at address 0, a parent (address 1, PID 2) and its
    child (address 2, PID 3) that has not exited yet. *)
Definition family : kstate :=
  {| procs :=
       {[ 0%Z := Proc "[kernel]" None None None 1 (-1) 0 false;
          1%Z := Proc "sh" (Some 1) (Some 50) (Some 1) 2 (-1) 0 false;
          2%Z := Proc "sh" (Some 2) (Some 50) (Some 2) 3 2 0 false ]};
     pid_table := {[ 2%Z := 1%Z; 3%Z := 2%Z ]};
     kproc := 0;
     calls := [];
     umem := ∅ |}.

(** The same family after the child called [_exit(7)]. *)
Definition family_after_exit : kstate :=
  default family (sys__exit 2 7 family).

(** A state whose PID table has no free slot: slot [i] points to a
    process at address [i]. *)
Definition crowded : kstate :=
  {| procs := {[ 1%Z := Proc "sh" None None None 2 (-1) 0 false ]};
     pid_table :=
       list_to_map (map (fun i => (i, i))
                        (seqZ PID_MIN (PID_MAX - PID_MIN)));
     kproc := 0;
     calls := [];
     umem := ∅ |}.

End WithHeaders.
End Procs.

(* ================================================================== *)
(** * kern/syscall/execv_syscall.c *)
(* ================================================================== *)

Module Execv.

(** The calling process, the address spaces on the kernel heap, the TLB
    and the frame allocator. *)
Record kstate : Type := KState {
  curproc : Procs.proc;
  spaces : gmap nat VM.addrspace;
  tlb : list (Z * Z);
  cm : Coremap.state
}.

(** What the rest of the kernel answers during one call.  User memory is
    read through [copyin] (a pointer, a byte) and [copyinstr] (up to a
    number of bytes, the terminating 0 included; the string is given
    without it) and written through [copyout].  An access to user memory
    may raise page faults, which [vm_fault] serves in the current
    address space: [faults k uaddr] lists those raised by the access at
    [uaddr] that starts in state [k].  [kmalloc_ok n] tells whether the
    [n]-th [kmalloc] of the call succeeds.  [load_elf] works on the
    current address space, the TLB and the frames and may change all
    three. *)
Record env : Type := Env {
  copyin_ptr : Z -> result Z;
  copyin_byte : Z -> result Z;
  copyinstr : Z -> Z -> result (list Z);
  copyout : list Z -> Z -> option errno;
  faults : kstate -> Z -> list VM.fault;
  kmalloc_ok : nat -> bool;
  vfs_open : list Z -> result nat;
  as_create : option nat;
  load_elf : nat -> VM.kstate -> result Z * VM.kstate
}.

(** The call returns an error; or it enters user mode through
    [enter_new_process]; or it hands [as_destroy] [NULL] or a pointer to
    no address space, or stops in a [KASSERT] of [free_page]; or its
    first pass has not ended after the rounds it was given. *)
Inductive outcome : Type :=
  | Fails (e : errno) (k : kstate)
  | EntersUser (argc argv stackptr entrypoint : Z) (k : kstate)
  | Crashes
  | Spins.

Definition set_addrspace (pr : Procs.proc) (a : option nat) : Procs.proc :=
  {| Procs.p_name := Procs.p_name pr; Procs.p_addrspace := a;
     Procs.p_cwd := Procs.p_cwd pr; Procs.file_table := Procs.file_table pr;
     Procs.p_pid := Procs.p_pid pr; Procs.p_parent := Procs.p_parent pr;
     Procs.p_exitcode := Procs.p_exitcode pr;
     Procs.p_exited := Procs.p_exited pr |}.

(** [sizeof(userptr_t)] and [sizeof(vaddr_t)]. *)
Definition sizeof_ptr : Z := 4.

(** The four bytes of a 32-bit word, most significant first (the MIPS of
    System/161 is big-endian). *)
Definition word_bytes (w : Z) : list Z :=
  [Z.land (Z.shiftr w 24) 0xff; Z.land (Z.shiftr w 16) 0xff;
   Z.land (Z.shiftr w 8) 0xff; Z.land w 0xff].

(** What [vm_fault] sees of the state: the address space of the current
    process ([proc_getas]), the TLB and the frames. *)
Definition vm_view (k : kstate) : VM.kstate :=
  {| VM.cur_as := match Procs.p_addrspace (curproc k) with
                  | Some a => spaces k !! a
                  | None => None
                  end;
     VM.tlb := tlb k;
     VM.cm := cm k |}.

(** What it leaves behind: the current address space is written back in
    place. *)
Definition vm_store (vk : VM.kstate) (k : kstate) : kstate :=
  {| curproc := curproc k;
     spaces := match Procs.p_addrspace (curproc k), VM.cur_as vk with
               | Some a, Some v => <[a := v]> (spaces k)
               | _, _ => spaces k
               end;
     tlb := VM.tlb vk;
     cm := VM.cm vk |}.

Definition set_space (k : kstate) (a : nat) (v : VM.addrspace) : kstate :=
  {| curproc := curproc k; spaces := <[a := v]> (spaces k); tlb := tlb k;
     cm := cm k |}.

Section WithHeaders.
Context {hdr : headers}.

(** An access of the kernel to user memory at [uaddr]: the page faults
    it raises are served one after the other. *)
Definition user_access (e : env) (uaddr : Z) (k : kstate) : kstate :=
  vm_store (VM.take_faults (faults e k uaddr) (vm_view k)) k.

(** [proc_setas] (proc.c): install [newas], return the old one. *)
Definition proc_setas (newas : option nat) (k : kstate)
  : option nat * kstate :=
  (Procs.p_addrspace (curproc k),
   {| curproc := set_addrspace (curproc k) newas;
      spaces := spaces k; tlb := tlb k; cm := cm k |}).

(** [as_activate] (addrspace.c). *)
Definition as_activate (k : kstate) : kstate :=
  match Procs.p_addrspace (curproc k) with
  | None => k
  | Some _ =>
      {| curproc := curproc k; spaces := spaces k;
         tlb := map (fun i => (TLBHI_INVALID i, TLBLO_INVALID))
                    (seq 0 NUM_TLB);
         cm := cm k |}
  end.

(** [as_destroy] (addrspace.c): the frames go back to the allocator and
    the structure leaves the heap; [None] when [free_page] stops in a
    [KASSERT] or the pointer leads to no address space. *)
Definition as_destroy (a : nat) (k : kstate) : option kstate :=
  match spaces k !! a with
  | None => None
  | Some v =>
      match VM.as_destroy v (cm k) with
      | Coremap.Ret s =>
          Some {| curproc := curproc k; spaces := delete a (spaces k);
                  tlb := tlb k; cm := s |}
      | Coremap.Panic => None
      end
  end.

(** The [do ... while (ch != 0)] loop of the first pass: the length of
    the string at [p], its 0 included.  [rounds] counts the rounds that
    remain; [None] when they are used up before the loop has left. *)
Fixpoint measure_arg (e : env) (p arglen : Z) (rounds : nat) (k : kstate)
  : option (result Z * kstate) :=
  match rounds with
  | O => None
  | S rounds' =>
      let uaddr := u32 (p + arglen) in
      let k := user_access e uaddr k in
      match copyin_byte e uaddr with
      | Err r => Some (Err r, k)
      | Ok ch =>
          let arglen := (arglen + 1)%Z in
          if (ARG_MAX <? arglen)%Z then Some (Err E2BIG, k)
          else if (ch =? 0)%Z then Some (Ok arglen, k)
          else measure_arg e p arglen rounds' k
      end
  end.

(** The [while (1)] loop of the first pass: [argc] and [total_bytes];
    [None] when the rounds are used up before a loop has left. *)
Fixpoint count_args (e : env) (argv argc total_bytes : Z) (rounds : nat)
    (k : kstate) : option (result (Z * Z) * kstate) :=
  match rounds with
  | O => None
  | S rounds' =>
      let uaddr := u32 (argv + argc * sizeof_ptr) in
      let k := user_access e uaddr k in
      match copyin_ptr e uaddr with
      | Err r => Some (Err r, k)
      | Ok current_argument =>
          if (current_argument =? 0)%Z then Some (Ok (argc, total_bytes), k)
          else
            match measure_arg e current_argument 0 (S (Z.to_nat ARG_MAX)) k
            with
            | None => None
            | Some (Err r, k) => Some (Err r, k)
            | Some (Ok arglen, k) =>
                let total_bytes := (total_bytes + arglen)%Z in
                if (ARG_MAX <? total_bytes + (argc + 1) * sizeof_ptr)%Z
                then Some (Err E2BIG, k)
                else count_args e argv (argc + 1) total_bytes rounds' k
            end
      end
  end.

(** The second pass, [for (i = ...; i < argc; i++)] with [n] rounds to
    go: the strings of [kargv] in order. *)
Fixpoint copy_args (e : env) (argv i : Z) (n : nat) (k : kstate)
  : result (list (list Z)) * kstate :=
  match n with
  | O => (Ok [], k)
  | S n' =>
      let uaddr := u32 (argv + i * sizeof_ptr) in
      let k := user_access e uaddr k in
      match copyin_ptr e uaddr with
      | Err r => (Err r, k)
      | Ok current_argument =>
          let k := user_access e current_argument k in
          match copyinstr e current_argument ARG_MAX with
          | Err r => (Err (if decide (r = ENAMETOOLONG) then E2BIG else r), k)
          | Ok karg =>
              let arg_length := (Z.of_nat (length karg) + 1)%Z in
              if (ARG_MAX <? arg_length)%Z then (Err E2BIG, k)
              else
                match copy_args e argv (i + 1) n' k with
                | (Err r, k) => (Err r, k)
                | (Ok rest, k) => (Ok (karg :: rest), k)
                end
          end
      end
  end.

(** [for (i = argc - 1; i >= 0; i--)]: push the strings, last first.
    [strs] is [kargv] reversed; the result lists the user addresses in
    the same (reversed) order. *)
Fixpoint push_strings (e : env) (strs : list (list Z)) (stackptr : Z)
    (k : kstate) : result (list Z * Z) * kstate :=
  match strs with
  | [] => (Ok ([], stackptr), k)
  | str :: strs' =>
      let arg_length := (Z.of_nat (length str) + 1)%Z in
      let stackptr := u32 (stackptr - arg_length) in
      let k := user_access e stackptr k in
      match copyout e (str ++ [0%Z]) stackptr with
      | Some r => (Err r, k)
      | None =>
          match push_strings e strs' stackptr k with
          | (Err r, k) => (Err r, k)
          | (Ok (ptrs, sp), k) => (Ok (stackptr :: ptrs, sp), k)
          end
      end
  end.

(** [for (i = argc; i >= 0; i--)]: push the words of [arg_pointers], last
    first ([ptrs] is the array reversed). *)
Fixpoint push_pointers (e : env) (ptrs : list Z) (stackptr : Z)
    (k : kstate) : result Z * kstate :=
  match ptrs with
  | [] => (Ok stackptr, k)
  | w :: ptrs' =>
      let stackptr := u32 (stackptr - sizeof_ptr) in
      let k := user_access e stackptr k in
      match copyout e (word_bytes w) stackptr with
      | Some r => (Err r, k)
      | None => push_pointers e ptrs' stackptr k
      end
  end.

(** The way back of every failure after the switch:
    [proc_setas(old_as); as_activate(); as_destroy(as); return r]. *)
Definition back_out (r : errno) (old_as : option nat) (a : nat) (k : kstate)
  : outcome :=
  match as_destroy a (as_activate (snd (proc_setas old_as k))) with
  | Some k' => Fails r k'
  | None => Crashes
  end.

(** [sys_execv]; [path] and [argv] are user pointers (0 for [NULL]). *)
Definition sys_execv (e : env) (path argv : Z) (k : kstate) : outcome :=
  if (path =? 0)%Z then Fails EFAULT k
  else if (argv =? 0)%Z then Fails EFAULT k
  else
    let k := user_access e path k in
    match copyinstr e path PATH_MAX with
    | Err r => Fails r k
    | Ok kpath =>
    if decide (kpath = []) then Fails EINVAL k
    else if negb (kmalloc_ok e 0) then Fails ENOMEM k
    else
    (* first pass: count the arguments and their bytes *)
    match count_args e argv 0 0 (S (Z.to_nat ARG_MAX)) k with
    | None => Spins
    | Some (Err r, k) => Fails r k
    | Some (Ok (argc, total_bytes), k) =>
    if negb (kmalloc_ok e 1) then Fails ENOMEM k
    else if negb (kmalloc_ok e 2) then Fails ENOMEM k
    else
    (* second pass: copy the strings *)
    match copy_args e argv 0 (Z.to_nat argc) k with
    | (Err r, k) => Fails r k
    | (Ok kargv, k) =>
    match vfs_open e kpath with
    | Err r => Fails r k
    | Ok v =>
    match as_create e with
    | None => Fails ENOMEM k
    | Some as_ =>
        let k := set_space k as_ VM.as_create in
        (* switch to the new address space *)
        let '(old_as, k) := proc_setas (Some as_) k in
        let k := as_activate k in
        match load_elf e v (vm_view k) with
        | (Err r, vk) => back_out r old_as as_ (vm_store vk k)
        | (Ok entrypoint, vk) =>
            let k := vm_store vk k in
            match spaces k !! as_ with
            | None => Crashes
            | Some a =>
            let '(a, stackptr) := VM.as_define_stack a in
            let k := set_space k as_ a in
            if negb (kmalloc_ok e 3) then back_out ENOMEM old_as as_ k
            else
              match push_strings e (rev kargv) stackptr k with
              | (Err r, k) => back_out r old_as as_ k
              | (Ok (ptrs, stackptr), k) =>
                  (* align the stack pointer to a multiple of 8 *)
                  let stackptr := Z.land stackptr 0xfffffff8 in
                  (* [ptrs] holds arg_pointers[argc - 1] down to
                     arg_pointers[0]; arg_pointers[argc] = 0 goes first *)
                  match push_pointers e (0%Z :: ptrs) stackptr k with
                  | (Err r, k) => back_out r old_as as_ k
                  | (Ok stackptr, k) =>
                      match old_as with
                      | None => Crashes
                      | Some old =>
                          match as_destroy old k with
                          | Some k' =>
                              EntersUser argc stackptr stackptr entrypoint k'
                          | None => Crashes
                          end
                      end
                  end
              end
            end
        end
    end end end end end.

(** *** Vocabulary of the properties *)

(** The state [k1] differs from [k] at most in the address space [old]
    (which has the layout and the mapped pages [v] had), the TLB and the
    frames. *)
Definition kept (old : nat) (v : VM.addrspace) (k k1 : kstate) : Prop :=
  curproc k1 = curproc k /\
  exists v1,
    spaces k1 = <[old := v1]> (spaces k) /\
    VM.same_layout v v1 /\ VM.pt_ok v1 /\ VM.pt_extends v v1.


(** After the switch: the process of [k1] runs in the address space
    [as_], and the heap of address spaces is that of [k1] with [as_]
    added. *)
Definition switched (as_ : nat) (k1 k2 : kstate) : Prop :=
  curproc k2 = set_addrspace (curproc k1) (Some as_) /\
  exists vn, spaces k2 = <[as_ := vn]> (spaces k1).

(** *** Sample calls *)

(** A process (address space 1) that has run: its text page has a
    frame; the page of heap it got from [sbrk] at 0x401000 has not been
    touched yet. *)
Definition sample_proc : Procs.proc :=
  Procs.Proc "sh" (Some 1) (Some 50) (Some 1) 2 (-1) 0 false.

Definition started : VM.kstate :=
  VM.take_faults
    [{| VM.f_env := VM.sample_env; VM.f_type := 0; VM.f_addr := 0x400000 |}]
    {| VM.cur_as := Some (VM.set_heap_end VM.sample_as 0x402000);
       VM.tlb := replicate NUM_TLB (0%Z, 0%Z);
       VM.cm := Coremap.small_ram |}.

Definition sample_as : VM.addrspace :=
  default VM.sample_as (VM.cur_as started).

Definition sample_state : kstate :=
  {| curproc := sample_proc;
     spaces := {[ 1 := sample_as ]};
     tlb := VM.tlb started;
     cm := VM.cm started |}.

(** The page faults of the samples: the first access to a page that has
    no frame yet raises one, of the given type. *)
Definition touched (k : kstate) (uaddr : Z) : bool :=
  match VM.cur_as (vm_view k) with
  | Some v => negb (VM.pt_lookup v (Z.land uaddr PAGE_FRAME) =? 0)%Z
  | None => true
  end.

Definition first_touch (faulttype : Z) (k : kstate) (uaddr : Z)
  : list VM.fault :=
  if touched k uaddr then []
  else [{| VM.f_env := VM.sample_env; VM.f_type := faulttype;
           VM.f_addr := uaddr |}].

(** The path "a" lies at 0x400100 and the argument array at 0x400200,
    both in the text page; the array holds the address 0x400300 of the
    string "a" and [NULL].  The executable cannot be loaded: [load_elf]
    fails with [ENOENT] after [as_prepare_load]. *)
Definition failing_env : env :=
  {| copyin_ptr := fun uaddr => if (uaddr =? 0x400200)%Z then Ok 0x400300%Z
                                else Ok 0%Z;
     copyin_byte := fun uaddr => if (uaddr =? 0x400300)%Z then Ok 97%Z
                                 else Ok 0%Z;
     copyinstr := fun _ _ => Ok [97%Z];
     copyout := fun _ _ => None;
     faults := first_touch 0;
     kmalloc_ok := fun _ => true;
     vfs_open := fun _ => Ok 7;
     as_create := Some 2;
     load_elf := fun _ vk =>
       (Err ENOENT,
        match VM.cur_as vk with
        | Some a => VM.set_as vk (VM.as_prepare_load a)
        | None => vk
        end) |}.


(** A call whose path points to the untouched heap page at 0x401000:
    reading it raises a page fault, the fresh page holds zeros, and the
    path is the empty string. *)
Definition blank_env : env :=
  {| copyin_ptr := fun _ => Ok 0%Z;
     copyin_byte := fun _ => Ok 0%Z;
     copyinstr := fun _ _ => Ok [];
     copyout := fun _ _ => None;
     faults := first_touch 0;
     kmalloc_ok := fun _ => true;
     vfs_open := fun _ => Ok 7;
     as_create := Some 2;
     load_elf := fun _ vk => (Ok 0x400000%Z, vk) |}.

End WithHeaders.
End Execv.

(* ================================================================== *)
(** * kern/syscall/fork_syscall.c *)
(* ================================================================== *)

Module Fork.
Import Procs.

(** The process heap and PID table of [Procs], and the vnodes handed to
    [VOP_INCREF] (latest first). *)
Record kstate : Type := KState {
  base : Procs.kstate;
  increfs : list nat
}.

(** What the rest of the kernel answers during one call: [kmalloc] of
    the process structure, what that memory holds where [file_table]
    lies, and [kstrdup] of the name; [as_copy] (the child's address
    space or an error), [copy_file_table] ([NULL] or the new table),
    [kmalloc] of the trap frame, and [thread_fork] (0 or an error). *)
Record env : Type := Env {
  kmalloc_proc : option Z;
  stale_file_table : option nat;
  name_ok : bool;
  as_copy : result nat;
  copy_file_table : option nat;
  kmalloc_tf : bool;
  thread_fork : option errno
}.

(** The call returns; or it stops in a [KASSERT] of [proc_destroy]; or
    it follows a [NULL] pointer (the caller has no address space for
    [as_copy] to read, or no file table for [copy_file_table] to lock);
    or it makes a destroy call on memory that is no such object: an
    address space or file table already destroyed in this call, or what
    a field that was never written points to. *)
Inductive outcome : Type :=
  | Returns (r : result Z) (k : kstate)
  | Panics
  | Crashes
  | Misuses (c : call).

Definition set_base (k : kstate) (b : Procs.kstate) : kstate :=
  {| base := b; increfs := increfs k |}.

Definition VOP_INCREF (vn : nat) (k : kstate) : kstate :=
  {| base := base k; increfs := vn :: increfs k |}.

(** A store to one field of [*child]. *)
Definition update_proc (c : Z) (f : proc -> proc) (b : Procs.kstate)
  : Procs.kstate :=
  match procs b !! c with
  | Some pr => set_procs b (<[c := f pr]> (procs b))
  | None => b
  end.

Definition with_addrspace (a : option nat) (pr : proc) : proc :=
  Proc (p_name pr) a (p_cwd pr) (file_table pr) (p_pid pr) (p_parent pr)
       (p_exitcode pr) (p_exited pr).

Definition with_cwd (vn : option nat) (pr : proc) : proc :=
  Proc (p_name pr) (p_addrspace pr) vn (file_table pr) (p_pid pr)
       (p_parent pr) (p_exitcode pr) (p_exited pr).

Definition with_file_table (ft : option nat) (pr : proc) : proc :=
  Proc (p_name pr) (p_addrspace pr) (p_cwd pr) ft (p_pid pr) (p_parent pr)
       (p_exitcode pr) (p_exited pr).

Definition with_parent (pid : Z) (pr : proc) : proc :=
  Proc (p_name pr) (p_addrspace pr) (p_cwd pr) (file_table pr) (p_pid pr)
       pid (p_exitcode pr) (p_exited pr).

Section WithHeaders.
Context {hdr : headers}.

(** The calls [proc_destroy] makes for a structure, in the order it
    makes them. *)
Definition destroys (c : proc) : list call :=
  match p_cwd c with Some vn => [VOP_DECREF vn] | None => [] end ++
  match p_addrspace c with Some a => [as_destroy a] | None => [] end ++
  match file_table c with Some ft => [destroy_file_table ft] | None => [] end.

(** The end of a failure exit: [proc_destroy(child); return r].  [gone]
    lists the destroy calls that would act on memory which is no such
    object: [sys_fork] destroyed it before this point, or the pointer
    comes from the field [proc_create] left unwritten.  The first call of
    [proc_destroy] that is in [gone] is where the exit goes wrong. *)
Definition abandon (gone : list call) (child : Z) (r : errno) (k : kstate)
  : outcome :=
  match procs (base k) !! child with
  | None => Crashes
  | Some c =>
      match filter (fun cl => cl ∈ gone) (destroys c) with
      | cl :: _ => Misuses cl
      | [] =>
          match proc_destroy child (base k) with
          | Some b => Returns (Err r) (set_base k b)
          | None => Panics
          end
      end
  end.

(** [sys_fork]; [cur] is [curproc].  The value is the child's PID. *)
Definition sys_fork (e : env) (cur : Z) (k : kstate) : outcome :=
  match procs (base k) !! cur with
  | None => Crashes
  | Some me =>
      (* 1. the child's process structure *)
      match proc_create (kmalloc_proc e) (name_ok e) (stale_file_table e)
                        (p_name me) (base k) with
      | (None, _) => Returns (Err ENOMEM) k
      | (Some child, b1) =>
          let k := set_base k b1 in
          (* 2. the address space *)
          match as_copy e, p_addrspace me with
          | Err result, _ =>
              (* [child->file_table] has not been written yet *)
              let unset :=
                match stale_file_table e with
                | Some ft => [destroy_file_table ft]
                | None => []
                end in
              abandon unset child result k
          | Ok _, None => Crashes
          | Ok child_as, Some _ =>
              let k := set_base k (update_proc child
                                     (with_addrspace (Some child_as))
                                     (base k)) in
              let pcwd := p_cwd me in
              let k := match pcwd with
                       | Some vn => VOP_INCREF vn k
                       | None => k
                       end in
              let k := set_base k (update_proc child (with_cwd pcwd)
                                     (base k)) in
              (* 3. the file table *)
              match copy_file_table e, file_table me with
              | None, _ =>
                  let k := set_base k (update_proc child
                                         (with_file_table None) (base k)) in
                  let k := set_base k (add_calls (base k)
                                         [as_destroy child_as]) in
                  abandon [as_destroy child_as] child ENOMEM k
              | Some _, None => Crashes
              | Some ft, Some _ =>
                  let k := set_base k (update_proc child
                                         (with_file_table (Some ft))
                                         (base k)) in
                  let k := set_base k (update_proc child
                                         (with_parent (p_pid me))
                                         (base k)) in
                  (* 4. the trap frame, 5. the thread *)
                  let undo (r : errno) :=
                    let k := set_base k (add_calls (base k)
                                           [destroy_file_table ft]) in
                    let k := set_base k (add_calls (base k)
                                           [as_destroy child_as]) in
                    abandon [as_destroy child_as; destroy_file_table ft]
                            child r k in
                  if negb (kmalloc_tf e) then undo ENOMEM
                  else
                    match thread_fork e with
                    | Some result => undo result
                    | None =>
                        match procs (base k) !! child with
                        | Some c => Returns (Ok (p_pid c)) k
                        | None => Crashes
                        end
                    end
              end
          end
      end
  end.

(** A shell (the parent of [Procs.family]) about to fork. *)
Definition sample_state : kstate :=
  {| base := family; increfs := [] |}.

Definition sample_env : env :=
  {| kmalloc_proc := Some 3%Z; stale_file_table := None; name_ok := true;
     as_copy := Ok 3; copy_file_table := Some 3; kmalloc_tf := true;
     thread_fork := None |}.

(** The same fork with [thread_fork] failing. *)
Definition failing_env : env :=
  {| kmalloc_proc := Some 3%Z; stale_file_table := None; name_ok := true;
     as_copy := Ok 3; copy_file_table := Some 3; kmalloc_tf := true;
     thread_fork := Some ENOMEM |}.

(** The same fork with [as_copy] failing. *)
Definition no_space_env : env :=
  {| kmalloc_proc := Some 3%Z; stale_file_table := None; name_ok := true;
     as_copy := Err ENOMEM; copy_file_table := Some 3; kmalloc_tf := true;
     thread_fork := None |}.

End WithHeaders.

End Fork.

(* ================================================================== *)
(** * Properties *)
(* ================================================================== *)

(** ** Machine integers *)

Lemma mod_shift x k m :
  (0 < m -> 0 <= x + k * m < m -> x mod m = x + k * m)%Z.
Proof.
  intros Hm Hx. rewrite <- (Z.mod_add x k m) by lia. by apply Z.mod_small.
Qed.

Lemma u32_s32 x : is_u32 x -> u32 (s32 x) = x.
Proof.
  unfold is_u32, s32, u32. intros H.
  rewrite (Z.mod_small x) by lia.
  destruct (x <? 2 ^ 31)%Z eqn:E.
  - apply Z.mod_small. lia.
  - apply Z.ltb_ge in E. rewrite (mod_shift _ 1); lia.
Qed.


Module CoremapSpec.
Import Coremap.

Section Generic.
Context {hdr : headers}.

Lemma hbs_app l1 l2 :
  head_block_sizes (l1 ++ l2) = head_block_sizes l1 + head_block_sizes l2.
Proof.
  induction l1 as [|e l1 IH]; simpl; [done|].
  unfold head_block_sizes in *. rewrite IH. lia.
Qed.

Lemma used_app l1 l2 : used_frames (l1 ++ l2) = used_frames l1 + used_frames l2.
Proof. unfold used_frames. by rewrite filter_app, length_app. Qed.

Lemma hbs_replicate b n :
  head_block_sizes (replicate n (Entry b 0)) = 0.
Proof. induction n as [|n IH]; simpl; [done|]. rewrite IH. by destruct b. Qed.

Lemma used_replicate_free n : used_frames (replicate n (Entry true 0)) = 0.
Proof.
  induction n as [|n IH]; [done|]. simpl. unfold used_frames in *.
  rewrite filter_cons_False; [done|]. simpl. congruence.
Qed.

Lemma used_replicate_interior n :
  used_frames (replicate n (Entry false 0)) = n.
Proof.
  induction n as [|n IH]; [done|]. simpl. unfold used_frames in *.
  rewrite filter_cons_True by done. simpl. by rewrite IH.
Qed.

Lemma used_cons e l :
  used_frames (e :: l) = (if free e then 0 else 1) + used_frames l.
Proof.
  unfold used_frames. destruct (free e) eqn:E.
  - rewrite filter_cons_False; [done|]. congruence.
  - by rewrite filter_cons_True.
Qed.

(** A map made of free frames and blocks is accounted for. *)
Lemma blocks_accounting cm :
  blocks cm -> head_block_sizes cm = used_frames cm.
Proof.
  induction 1 as [|l _ IH|n l _ IH].
  - done.
  - rewrite used_cons. simpl. by rewrite IH.
  - rewrite used_cons, used_app, used_replicate_interior. simpl.
    change (foldr _ 0 ?l) with (head_block_sizes l).
    rewrite hbs_app, hbs_replicate, IH. lia.
Qed.

Lemma blocks_app l1 l2 : blocks l1 -> blocks l2 -> blocks (l1 ++ l2).
Proof.
  induction 1 as [|l _ IH|n l _ IH]; intros H2; simpl.
  - done.
  - constructor. auto.
  - rewrite <- app_assoc. constructor. auto.
Qed.

Lemma blocks_replicate_free n : blocks (replicate n (Entry true 0)).
Proof. induction n; simpl; constructor; done. Qed.

(** A free frame of a well-shaped map stands between two well-shaped
    halves. *)
Lemma blocks_split_free cm i e :
  blocks cm -> cm !! i = Some e -> free e = true ->
  exists l1 l2, cm = l1 ++ Entry true 0 :: l2 /\ length l1 = i /\
                blocks l1 /\ blocks l2.
Proof.
  intros Hb. revert i. induction Hb as [|l Hb IH|n l Hb IH]; intros i Hi Hf.
  - done.
  - destruct i as [|i]; simpl in Hi.
    + exists [], l. split_and!; try done. constructor.
    + destruct (IH i Hi Hf) as (l1 & l2 & -> & <- & H1 & H2).
      exists (Entry true 0 :: l1), l2. split_and!; try done. by constructor.
  - destruct i as [|i]; simpl in Hi; [by simplify_eq|].
    destruct (decide (i < n)) as [Hlt|Hge].
    + rewrite lookup_app_l in Hi by (by rewrite length_replicate).
      apply lookup_replicate in Hi as [-> _]. done.
    + rewrite lookup_app_r in Hi by (rewrite length_replicate; lia).
      rewrite length_replicate in Hi.
      destruct (IH _ Hi Hf) as (l1 & l2 & -> & Hlen & H1 & H2).
      exists (Entry false (S n) :: replicate n (Entry false 0) ++ l1), l2.
      split_and!; try done.
      * simpl. by rewrite <- app_assoc.
      * simpl. rewrite length_app, length_replicate. lia.
      * by constructor.
Qed.

(** A frame with a non-zero [block_size] is the head of a block that lies
    inside the map, followed by its interior frames. *)
Lemma blocks_split_head cm i e :
  blocks cm -> cm !! i = Some e -> 0 < block_size e ->
  exists l1 l2 n,
    cm = l1 ++ Entry false (S n) :: replicate n (Entry false 0) ++ l2 /\
    length l1 = i /\ e = Entry false (S n) /\ blocks l1 /\ blocks l2.
Proof.
  intros Hb. revert i. induction Hb as [|l Hb IH|n l Hb IH]; intros i Hi Hs.
  - done.
  - destruct i as [|i]; simpl in Hi.
    + simplify_eq. simpl in Hs. lia.
    + destruct (IH i Hi Hs) as (l1 & l2 & m & -> & <- & He & H1 & H2).
      exists (Entry true 0 :: l1), l2, m. split_and!; try done.
      by constructor.
  - destruct i as [|i]; simpl in Hi.
    + simplify_eq. exists [], l, n. split_and!; try done. constructor.
    + destruct (decide (i < n)) as [Hlt|Hge].
      * rewrite lookup_app_l in Hi by (by rewrite length_replicate).
        apply lookup_replicate in Hi as [-> _]. simpl in Hs. lia.
      * rewrite lookup_app_r in Hi by (rewrite length_replicate; lia).
        rewrite length_replicate in Hi.
        destruct (IH _ Hi Hs) as (l1 & l2 & m & -> & Hlen & He & H1 & H2).
        exists (Entry false (S n) :: replicate n (Entry false 0) ++ l1), l2, m.
        split_and!; try done.
        -- simpl. by rewrite <- app_assoc.
        -- simpl. rewrite length_app, length_replicate. lia.
        -- by constructor.
Qed.

Lemma blocks_head_free_inv e l :
  blocks (e :: l) -> free e = true -> e = Entry true 0 /\ blocks l.
Proof. inversion 1; subst; simpl; intros; [done|discriminate]. Qed.

(** A run of [n >= 1] free frames from [i] on is a segment of free frames
    between two well-shaped halves. *)
Lemma blocks_split_run cm i n :
  blocks cm ->
  (forall j, j < S n -> exists e, cm !! (i + j) = Some e /\ free e = true) ->
  exists l1 l2, cm = l1 ++ replicate (S n) (Entry true 0) ++ l2 /\
                length l1 = i /\ blocks l1 /\ blocks l2.
Proof.
  intros Hb. induction n as [|n IH]; intros Hrun.
  - destruct (Hrun 0) as (e & He & Hf); [lia|].
    rewrite Nat.add_0_r in He.
    destruct (blocks_split_free _ _ _ Hb He Hf) as (l1 & l2 & ? & ? & ? & ?).
    by exists l1, l2.
  - destruct IH as (l1 & l2 & -> & Hlen & H1 & H2).
    { intros j Hj. apply Hrun. lia. }
    destruct (Hrun (S n)) as (e & He & Hf); [lia|].
    rewrite lookup_app_r in He by lia.
    rewrite lookup_app_r in He by (rewrite length_replicate; lia).
    rewrite length_replicate in He.
    replace (i + S n - length l1 - S n) with 0 in He by lia.
    destruct l2 as [|e' l2]; [done|]. simpl in He. simplify_eq.
    apply blocks_head_free_inv in H2 as [-> H2]; [|done].
    exists l1, l2. split_and!; try done.
    f_equal. change (Entry true 0 :: replicate n (Entry true 0))
      with (replicate (S n) (Entry true 0)).
    rewrite (replicate_S_end (S n)). by rewrite <- app_assoc.
Qed.

(** [fill] over a segment. *)
Lemma fill_segment l1 seg l2 e :
  fill (l1 ++ seg ++ l2) (length l1) (length seg) e =
  l1 ++ replicate (length seg) e ++ l2.
Proof.
  revert l1. induction seg as [|x seg IH]; intros l1; simpl; [done|].
  replace (length l1) with (length l1 + 0) at 1 by lia.
  rewrite insert_app_r. simpl.
  specialize (IH (l1 ++ [e])).
  rewrite length_app in IH. simpl in IH.
  rewrite <- !app_assoc in IH. simpl in IH.
  replace (length l1 + 1) with (S (length l1)) in IH by lia.
  by rewrite IH.
Qed.

Lemma lookup_past_segment (l1 seg l2 : list coremap_entry) d :
  (l1 ++ seg ++ l2) !! (length l1 + length seg + d) = l2 !! d.
Proof.
  rewrite lookup_app_r by lia. rewrite lookup_app_r by lia. f_equal. lia.
Qed.

Lemma fill_length cm i n e : length (fill cm i n e) = length cm.
Proof.
  revert cm i. induction n as [|n IH]; intros cm i; simpl; [done|].
  by rewrite IH, length_insert.
Qed.

Lemma first_free_spec cm i n k :
  first_free cm i n = Some k ->
  exists e, cm !! k = Some e /\ free e = true.
Proof.
  revert i. induction n as [|n IH]; intros i; simpl; [done|].
  destruct (cm !! i) as [e|] eqn:E; [|by apply IH].
  destruct (free e) eqn:F; [|by apply IH].
  intros [= <-]. eauto.
Qed.

Lemma run_ok_spec s i n :
  run_ok s i n = true ->
  forall j, j < n -> exists e, coremap s !! (i + j) = Some e /\ free e = true.
Proof.
  unfold run_ok. rewrite forallb_forall. intros H j Hj.
  specialize (H j). rewrite in_seq in H. specialize (H ltac:(lia)).
  apply negb_true_iff, orb_false_iff in H as [_ H].
  apply negb_false_iff in H.
  destruct (coremap s !! (i + j)) as [e|]; simpl in H; [eauto|done].
Qed.

Lemma find_run_spec s npages i n k :
  find_run s npages i n = Some k -> run_ok s k npages = true.
Proof.
  revert i. induction n as [|n IH]; intros i; simpl; [done|].
  destruct (negb _); [by apply IH|].
  destruct (run_ok s i npages) eqn:E; [|by apply IH].
  by intros [= <-].
Qed.

(** *** The operations keep the shape *)

Lemma insert_middle (l1 l2 : list coremap_entry) x y :
  <[length l1 := y]> (l1 ++ x :: l2) = l1 ++ y :: l2.
Proof.
  replace (length l1) with (length l1 + 0) by lia. by rewrite insert_app_r.
Qed.

Lemma wf_boot : wf boot_state.
Proof. split; [constructor|done]. Qed.

Lemma wf_vm_bootstrap hi lo : wf (vm_bootstrap hi lo).
Proof.
  split; simpl; [apply blocks_replicate_free|by rewrite length_replicate].
Qed.

Lemma wf_alloc_page steal s : wf s -> wf (snd (alloc_page steal s)).
Proof.
  intros [Hb Hl]. unfold alloc_page.
  destruct (negb (coremap_ready s)); [done|].
  destruct (first_free _ _ _) as [i|] eqn:E; [|done].
  apply first_free_spec in E as (e & He & Hf).
  destruct (blocks_split_free _ _ _ Hb He Hf) as (l1 & l2 & Hcm & <- & H1 & H2).
  split; simpl; [|by rewrite length_insert].
  rewrite Hcm, insert_middle.
  apply blocks_app; [done|]. by apply (blocks_alloc 0).
Qed.

Lemma wf_free_page pa s s' : wf s -> free_page pa s = Ret s' -> wf s'.
Proof.
  intros [Hb Hl]. unfold free_page.
  destruct (negb (coremap_ready s)); [by intros [= <-]|].
  destruct (pa <? first_paddr s)%Z; [by intros [= <-]|].
  destruct (negb (_ <? _)); [done|].
  destruct (coremap s !! _) as [e|] eqn:He; [|done].
  destruct (block_size e =? 1) eqn:E1; [|done]. simpl.
  intros [= <-]. apply Nat.eqb_eq in E1.
  destruct (blocks_split_head _ _ _ Hb He) as (l1 & l2 & n & Hcm & Hi & -> & H1 & H2);
    [lia|].
  simpl in E1. assert (n = 0) as -> by lia. simpl in Hcm.
  split; simpl; [|by rewrite length_insert].
  rewrite Hcm, <- Hi, insert_middle.
  apply blocks_app; [done|]. by constructor.
Qed.

(** What [alloc_kpages] writes into a run of free frames: a block. *)
Lemma alloc_block_shape l1 l2 m :
  fill (<[length l1 := Entry false (S m)]>
          (l1 ++ replicate (S m) (Entry true 0) ++ l2))
       (length l1 + 1) (S m - 1) (Entry false 0) =
  l1 ++ Entry false (S m) :: replicate m (Entry false 0) ++ l2.
Proof.
  simpl. rewrite insert_middle, Nat.sub_0_r.
  pose proof (fill_segment (l1 ++ [Entry false (S m)])
                (replicate m (Entry true 0)) l2 (Entry false 0)) as H.
  rewrite length_app, length_replicate in H. simpl in H.
  rewrite <- !app_assoc in H. simpl in H. done.
Qed.

Lemma wf_alloc_kpages steal n s :
  0 < n -> wf s -> wf (snd (alloc_kpages steal n s)).
Proof.
  intros Hn [Hb Hl]. unfold alloc_kpages.
  destruct (negb (coremap_ready s)); [done|].
  destruct (find_run _ _ _ _) as [i|] eqn:E; [|done].
  apply find_run_spec in E. pose proof (run_ok_spec _ _ _ E) as Hrun.
  destruct n as [|m]; [lia|].
  destruct (blocks_split_run _ _ _ Hb Hrun) as (l1 & l2 & Hcm & <- & H1 & H2).
  split; simpl.
  - rewrite Hcm, alloc_block_shape. apply blocks_app; [done|]. by constructor.
  - by rewrite fill_length, length_insert.
Qed.

Lemma free_block_shape l1 l2 n :
  fill (l1 ++ Entry false (S n) :: replicate n (Entry false 0) ++ l2)
       (length l1) (S n) (Entry true 0) =
  l1 ++ replicate (S n) (Entry true 0) ++ l2.
Proof.
  pose proof (fill_segment l1 (Entry false (S n) :: replicate n (Entry false 0))
                l2 (Entry true 0)) as H.
  simpl in H. rewrite length_replicate in H. done.
Qed.

Lemma wf_free_kpages kva s s' : wf s -> free_kpages kva s = Ret s' -> wf s'.
Proof.
  intros [Hb Hl]. unfold free_kpages.
  destruct (negb (coremap_ready s)); [by intros [= <-]|].
  destruct (_ <? first_paddr s)%Z; [by intros [= <-]|].
  destruct (negb (_ <? _)); [done|].
  destruct (coremap s !! _) as [e|] eqn:He; [|done].
  destruct (0 <? block_size e) eqn:E1; [|done]. simpl.
  intros [= <-]. apply Nat.ltb_lt in E1.
  destruct (blocks_split_head _ _ _ Hb He E1)
    as (l1 & l2 & n & Hcm & Hi & -> & H1 & H2).
  split; cbn [set_coremap coremap total_pages block_size];
    [|by rewrite fill_length].
  rewrite Hcm at 1. rewrite <- Hi, free_block_shape.
  apply blocks_app; [done|].
  apply blocks_app; [apply blocks_replicate_free|done].
Qed.

Lemma wf_step o s s' : nonempty_request o -> wf s -> step o s = Ret s' -> wf s'.
Proof.
  destruct o as [steal|pa|steal n|kva]; simpl; intros Hne Hwf Hs.
  - injection Hs as <-. by apply wf_alloc_page.
  - by eapply wf_free_page.
  - injection Hs as <-. by apply wf_alloc_kpages.
  - by eapply wf_free_kpages.
Qed.

Lemma wf_reachable s : reachable nonempty_request s -> wf s.
Proof.
  induction 1 as [|hi lo|o s s' _ IH Hne Hs].
  - apply wf_boot.
  - apply wf_vm_bootstrap.
  - by eapply wf_step.
Qed.

(** What [free_kpages] does to a well-shaped map: the address names the
    head of a block of [n] frames, exactly these become free, and every
    other frame is left as it was. *)
Lemma free_kpages_exact kva s s' :
  wf s -> coremap_ready s = true ->
  (first_paddr s <= KVADDR_TO_PADDR kva)%Z ->
  free_kpages kva s = Ret s' ->
  let index :=
    Z.to_nat (u32 (KVADDR_TO_PADDR kva - first_paddr s) / PAGE_SIZE) in
  exists n,
    is_head (coremap s) index n /\
    index + n <= total_pages s /\
    (forall j, index < j < index + n ->
               coremap s !! j = Some (Entry false 0)) /\
    (forall j, index <= j < index + n ->
               coremap s' !! j = Some (Entry true 0)) /\
    (forall j, ~ (index <= j < index + n) ->
               coremap s' !! j = coremap s !! j) /\
    used_frames (coremap s') + n = used_frames (coremap s).
Proof.
  intros [Hb Hl] Hready Hpa. unfold free_kpages. rewrite Hready. simpl.
  destruct (_ <? first_paddr s)%Z eqn:Elt; [apply Z.ltb_lt in Elt; lia|].
  destruct (negb (_ <? _)); [done|].
  destruct (coremap s !! _) as [e|] eqn:He; [|done].
  destruct (0 <? block_size e) eqn:E1; [|done]. simpl.
  intros [= <-]. apply Nat.ltb_lt in E1.
  destruct (blocks_split_head _ _ _ Hb He E1)
    as (l1 & l2 & n & Hcm & Hi & -> & H1 & H2).
  cbn [set_coremap coremap total_pages block_size].
  exists (S n). rewrite <- Hi in *. clear Hi.
  pose proof (free_block_shape l1 l2 n) as Hfill.
  rewrite <- Hcm in Hfill. rewrite !Hfill. clear Hfill.
  split_and!.
  - split; [lia|done].
  - rewrite <- Hl, Hcm, length_app. simpl. rewrite length_app, length_replicate. lia.
  - intros j Hj. rewrite Hcm, lookup_app_r by lia.
    destruct (j - length l1) as [|k] eqn:Ek; [lia|]. simpl.
    rewrite lookup_app_l by (rewrite length_replicate; lia).
    apply lookup_replicate. split; [done|lia].
  - intros j Hj. rewrite lookup_app_r by lia.
    rewrite lookup_app_l by (rewrite length_replicate; lia).
    apply lookup_replicate. split; [done|lia].
  - intros j Hj. rewrite Hcm.
    destruct (decide (j < length l1)) as [Hlt|Hge].
    + by rewrite !lookup_app_l by done.
    + assert (exists d, j = length l1 + S n + d) as [d ->]
        by (exists (j - length l1 - S n); lia).
      pose proof (lookup_past_segment l1 (replicate (S n) (Entry true 0)) l2 d)
        as Ha.
      pose proof (lookup_past_segment l1
        (Entry false (S n) :: replicate n (Entry false 0)) l2 d) as Hb'.
      simpl in Ha, Hb'. rewrite length_replicate in Ha, Hb'.
      simpl. by rewrite Ha, Hb'.
  - rewrite Hcm, !used_app, used_cons, used_app, used_replicate_free,
      used_replicate_interior. simpl. lia.
Qed.

(** *** Accounting *)

(** Every state reached by requests for at least one page is accounted
    for. *)
Lemma accounting_reachable s : reachable nonempty_request s -> accounting s.
Proof. intros H. apply blocks_accounting, wf_reachable, H. Qed.

(** Coremap accounting for requests of at least one page: after any
    allocator operation on a reachable state the sum of the head block
    sizes equals the number of frames in use, and [free_kpages] frees
    exactly the [block_size] frames of the block whose head its argument
    names. *)
Theorem coremap_accounting_nonempty s o s' :
  reachable nonempty_request s -> nonempty_request o -> step o s = Ret s' ->
  accounting s' /\
  (forall kva,
      o = FreeKpages kva -> coremap_ready s = true ->
      (first_paddr s <= KVADDR_TO_PADDR kva)%Z ->
      let index :=
        Z.to_nat (u32 (KVADDR_TO_PADDR kva - first_paddr s) / PAGE_SIZE) in
      exists n,
        is_head (coremap s) index n /\
        index + n <= total_pages s /\
        (forall j, index < j < index + n ->
                   coremap s !! j = Some (Entry false 0)) /\
        (forall j, index <= j < index + n ->
                   coremap s' !! j = Some (Entry true 0)) /\
        (forall j, ~ (index <= j < index + n) ->
                   coremap s' !! j = coremap s !! j) /\
        used_frames (coremap s') + n = used_frames (coremap s)).
Proof.
  intros Hr Ho Hs. split.
  - apply accounting_reachable. by eapply reach_step.
  - intros kva -> Hready Hpa. simpl in Hs.
    eapply free_kpages_exact; eauto using wf_reachable.
Qed.

End Generic.

Section Runs.
Local Existing Instance os161.

Lemma coremap_accounting_nonempty_witness :
  let s1 := snd (alloc_kpages 0 3 small_ram) in
  reachable nonempty_request s1 /\
  nonempty_request (FreeKpages 0x80002000) /\
  step (FreeKpages 0x80002000) s1 = Ret small_ram /\
  accounting small_ram.
Proof.
  assert (reachable nonempty_request (snd (alloc_kpages 0 3 small_ram))) as Hr.
  { eapply (reach_step _ (AllocKpages 0 3)); [apply reach_boot|simpl; lia|done]. }
  split_and!; [done|done|by vm_compute|].
  eapply (coremap_accounting_nonempty _ (FreeKpages 0x80002000));
    [exact Hr|done|by vm_compute].
Defined.

(** C3 at [npages = 0].  On the freshly bootstrapped map [alloc_kpages(0)]
    finds the empty run at frame 0, marks that frame as in use with
    [block_size = 0] and returns its address: one frame is in use, the head
    block sizes sum to 0, and [free_kpages] of the returned address stops
    in [KASSERT(block_ln > 0)]. *)
Theorem alloc_kpages_zero_unaccounted :
  reachable (fun _ => True) small_ram /\
  coremap small_ram = replicate 4 (Entry true 0) /\
  alloc_kpages 0 0 small_ram =
    (0x80002000%Z,
     set_coremap small_ram
       [Entry false 0; Entry true 0; Entry true 0; Entry true 0]) /\
  head_block_sizes (coremap (snd (alloc_kpages 0 0 small_ram))) = 0 /\
  used_frames (coremap (snd (alloc_kpages 0 0 small_ram))) = 1 /\
  ~ accounting (snd (alloc_kpages 0 0 small_ram)) /\
  free_kpages 0x80002000 (snd (alloc_kpages 0 0 small_ram)) = Panic.
Proof.
  split_and!; [apply reach_boot|by vm_compute..].
Qed.

End Runs.
End CoremapSpec.

Module VMSpec.
Import VM.

Section PageFault.
Context {hdr : headers}.

Lemma region_contains_lies_in r addr :
  region_ok r -> region_contains r addr = true -> lies_in r addr.
Proof.
  intros [Hb Hn]. unfold region_contains, lies_in, u32, PAGE_SIZE.
  rewrite andb_true_iff, Z.leb_le, Z.ltb_lt. intros [H1 H2].
  split; [done|].
  eapply Z.lt_le_trans; [exact H2|]. apply Z.mod_le; lia.
Qed.

Lemma find_region_none rs addr :
  Forall region_ok rs ->
  (forall r, r ∈ rs -> ~ lies_in r addr) ->
  find_region rs addr = None.
Proof.
  induction 1 as [|r rs Hr _ IH]; intros Hout; simpl; [done|].
  destruct (region_contains r addr) eqn:E.
  - exfalso. apply (Hout r); [left|]. by apply region_contains_lies_in.
  - apply IH. intros r' Hin. apply Hout. by right.
Qed.

(** Outside every region, the heap and the stack: [EFAULT], and the
    address space, the TLB and the frame allocator are as before. *)
Lemma vm_fault_outside e faulttype va k a :
  cur_as k = Some a ->
  Forall region_ok (regions a) ->
  (forall r, r ∈ regions a -> ~ lies_in r (Z.land va PAGE_FRAME)) ->
  in_heap a (Z.land va PAGE_FRAME) = false ->
  in_stack a (Z.land va PAGE_FRAME) = false ->
  vm_fault e faulttype va k = (Some EFAULT, k).
Proof.
  intros Ha Hok Hout Hh Hs. unfold vm_fault, classify. rewrite Ha.
  by rewrite (find_region_none _ _ Hok Hout), Hh, Hs.
Qed.

Lemma vm_fault_readonly_region e va k a r :
  cur_as k = Some a ->
  find_region (regions a) (Z.land va PAGE_FRAME) = Some r ->
  writeable r = false -> loading a = false ->
  vm_fault e VM_FAULT_READONLY va k = (Some EFAULT, k).
Proof.
  intros Ha Hr Hw Hl. unfold vm_fault, classify.
  by rewrite Ha, Hr, Hw, Hl, Z.eqb_refl.
Qed.

Lemma vm_fault_loading e va k a r :
  cur_as k = Some a ->
  find_region (regions a) (Z.land va PAGE_FRAME) = Some r ->
  loading a = true ->
  fst (vm_fault e VM_FAULT_READONLY va k) =
    if out_of_memory e k a (Z.land va PAGE_FRAME) then Some ENOMEM else None.
Proof.
  intros Ha Hr Hl. unfold vm_fault, classify, out_of_memory.
  rewrite Ha, Hr, Hl, orb_true_r, Z.eqb_refl.
  cbn [negb andb].
  fold (l1_index (Z.land va PAGE_FRAME)) (l2_index (Z.land va PAGE_FRAME)).
  destruct (get_l2_table _ _ _) as [[t a1]|]; [|done].
  destruct (default 0%Z _ =? 0)%Z; [|done]. cbn [andb].
  destruct (Coremap.alloc_page _ _) as [pa cm']. cbn [fst].
  by destruct (pa =? 0)%Z.
Qed.

(** C4, as the code has it, for every address space [a] and fault
    address [va].  (1) A fault whose page-aligned address lies in no
    region, nor in the heap, nor in the stack returns [EFAULT] and leaves
    the address space, the TLB and the frame allocator untouched.  (2) A
    read-only-violation fault that falls in a region whose [writeable]
    flag is false returns [EFAULT] while [loading] is false, again with
    no change.  (3) The same fault with [loading] set passes the
    permission check: it returns 0, unless the page cannot be given
    memory, in which case it returns [ENOMEM]. *)
Theorem vm_fault_safety e k a faulttype va :
  cur_as k = Some a ->
  Forall region_ok (regions a) ->
  ((forall r, r ∈ regions a -> ~ lies_in r (Z.land va PAGE_FRAME)) ->
   in_heap a (Z.land va PAGE_FRAME) = false ->
   in_stack a (Z.land va PAGE_FRAME) = false ->
   vm_fault e faulttype va k = (Some EFAULT, k)) /\
  (forall r,
     find_region (regions a) (Z.land va PAGE_FRAME) = Some r ->
     writeable r = false ->
     (loading a = false ->
      vm_fault e VM_FAULT_READONLY va k = (Some EFAULT, k)) /\
     (loading a = true ->
      fst (vm_fault e VM_FAULT_READONLY va k) =
        if out_of_memory e k a (Z.land va PAGE_FRAME)
        then Some ENOMEM else None)).
Proof.
  intros Ha Hok. split.
  - intros Hout Hh Hs. by eapply vm_fault_outside.
  - intros r Hr Hw. split; intros Hl.
    + by eapply vm_fault_readonly_region.
    + by eapply vm_fault_loading.
Qed.

End PageFault.

Section PageFaultRuns.
Local Existing Instance os161.

(** Three address spaces: the one [as_create] makes, where every fault
    is outside; the sample one, with a fault outside and a write to its
    text page; and the sample one while it is loaded. *)
Lemma vm_fault_safety_witness :
  let k0 := sample_kstate as_create free_coremap in
  let k := sample_kstate sample_as free_coremap in
  let kl := sample_kstate (as_prepare_load sample_as) free_coremap in
  vm_fault sample_env 0 0x400123 k0 = (Some EFAULT, k0) /\
  vm_fault sample_env 0 0x10000abc k = (Some EFAULT, k) /\
  vm_fault sample_env VM_FAULT_READONLY 0x400123 k = (Some EFAULT, k) /\
  fst (vm_fault sample_env VM_FAULT_READONLY 0x400123 kl) = None.
Proof.
  assert (Forall region_ok (regions sample_as)) as Hok.
  { apply Forall_singleton. unfold region_ok, text_region. simpl. lia. }
  destruct (vm_fault_safety sample_env (sample_kstate as_create free_coremap)
              as_create 0 0x400123 eq_refl) as [Hout0 _];
    [by apply Forall_nil|].
  destruct (vm_fault_safety sample_env (sample_kstate sample_as free_coremap)
              sample_as 0 0x10000abc eq_refl Hok) as [Hout _].
  destruct (vm_fault_safety sample_env (sample_kstate sample_as free_coremap)
              sample_as 0 0x400123 eq_refl Hok) as [_ Hro].
  destruct (vm_fault_safety sample_env
              (sample_kstate (as_prepare_load sample_as) free_coremap)
              (as_prepare_load sample_as) 0 0x400123 eq_refl Hok)
    as [_ Hld].
  split_and!.
  - apply Hout0; [|reflexivity..]. intros r Hin. by apply elem_of_nil in Hin.
  - apply Hout; [|reflexivity..].
    intros r' Hin. apply list_elem_of_singleton in Hin as ->.
    unfold lies_in, text_region, PAGE_SIZE. simpl.
    replace (Z.land _ PAGE_FRAME) with 0x10000000%Z by (by vm_compute). lia.
  - by apply (Hro text_region).
  - destruct (Hld text_region) as [_ ->]; reflexivity.
Defined.

(** C4 as stated fails in its last part: with [loading] set, a write to
    the read-only text page does not succeed when no frame is left. *)
Lemma vm_fault_loading_enomem :
  let a := as_prepare_load sample_as in
  let k := sample_kstate a full_coremap in
  cur_as k = Some a /\
  find_region (regions a) (Z.land 0x400123 PAGE_FRAME) = Some text_region /\
  writeable text_region = false /\
  loading a = true /\
  fst (vm_fault sample_env VM_FAULT_READONLY 0x400123 k) = Some ENOMEM /\
  fst (vm_fault sample_env VM_FAULT_READONLY 0x400123 k) <> None.
Proof. by vm_compute. Qed.

End PageFaultRuns.

(** *** [sys_sbrk] *)

Section Sbrk.
Context {hdr : headers}.

(** The 32-bit sum of the break and a signed amount: exact when the sum
    is representable, otherwise on the far side of the old break. *)
Lemma u32_add_cases he amount :
  is_u32 he -> is_s32 amount ->
  (is_u32 (he + amount) /\ u32 (he + amount) = he + amount)%Z \/
  (0 < amount /\ 2 ^ 32 <= he + amount /\ u32 (he + amount) < he)%Z \/
  (amount < 0 /\ he + amount < 0 /\ he < u32 (he + amount))%Z.
Proof.
  unfold is_u32, is_s32, u32. intros Hh Ha.
  destruct (decide (0 <= he + amount < 2 ^ 32)%Z) as [Hin|Hout].
  - left. split; [done|]. by apply Z.mod_small.
  - right. destruct (decide (0 < amount)%Z).
    + left. split_and!; [lia..|]. rewrite (mod_shift _ (-1)); lia.
    + right. split_and!; [lia..|]. rewrite (mod_shift _ 1); lia.
Qed.

(** C6.  [sys_sbrk] stores the break it found in [retval]; an amount of 0
    changes nothing; a sum that leaves the 32-bit range is rejected; a new
    break below [heap_base] gives [EINVAL]; one that reaches [stack_end]
    gives [ENOMEM]; on success [heap_end] is the old break plus the amount
    and nothing else changes (no frame is allocated, no TLB entry written,
    no page-table entry filled); on failure the state is as before. *)
Theorem sys_sbrk_spec amount retval0 k a :
  cur_as k = Some a ->
  is_u32 (heap_end a) ->
  is_s32 amount ->
  exists r k',
    sys_sbrk amount retval0 k = (r, s32 (heap_end a), k') /\
    u32 (s32 (heap_end a)) = heap_end a /\
    (amount = 0%Z -> r = None /\ k' = k) /\
    (amount <> 0%Z -> ~ is_u32 (heap_end a + amount) -> r = Some ENOMEM) /\
    (amount <> 0%Z -> is_u32 (heap_end a + amount) ->
     (heap_end a + amount < heap_base a)%Z -> r = Some EINVAL) /\
    (amount <> 0%Z -> is_u32 (heap_end a + amount) ->
     (heap_base a <= heap_end a + amount)%Z ->
     (stack_end a <= heap_end a + amount)%Z -> r = Some ENOMEM) /\
    (amount <> 0%Z -> is_u32 (heap_end a + amount) ->
     (heap_base a <= heap_end a + amount < stack_end a)%Z -> r = None) /\
    (r = None ->
     exists a',
       cur_as k' = Some a' /\
       heap_end a' = (heap_end a + amount)%Z /\
       heap_base a' = heap_base a /\
       stack_base a' = stack_base a /\ stack_end a' = stack_end a /\
       regions a' = regions a /\ pt_l1 a' = pt_l1 a /\
       loading a' = loading a /\
       cm k' = cm k /\ tlb k' = tlb k) /\
    (r <> None -> k' = k /\ cur_as k' = Some a).
Proof.
  intros Hk Hh Ha. unfold sys_sbrk. rewrite Hk.
  assert (forall r : option errno, r <> None -> r = None -> False) as Hno
    by (intros r H1 H2; by apply H1).
  destruct (Z.eqb_spec amount 0) as [->|Hne].
  { eexists _, _. split; [done|]. rewrite Z.add_0_r.
    split_and!; try done; [by apply u32_s32|].
    intros _. exists a. by split_and!. }
  destruct (u32_add_cases _ _ Hh Ha) as [[Hin Heq]|[(H1 & H2 & H3)|(H1 & H2 & H3)]].
  - (* no wrap *)
    rewrite Heq.
    replace ((0 <? amount)%Z && (heap_end a + amount <? heap_end a)%Z
             || (amount <? 0)%Z && (heap_end a <? heap_end a + amount)%Z)
      with false.
    2:{ symmetry. apply orb_false_iff. split; apply andb_false_iff.
        - destruct (Z.ltb_spec 0 amount); [right; apply Z.ltb_ge; lia|by left].
        - destruct (Z.ltb_spec amount 0); [right; apply Z.ltb_ge; lia|by left]. }
    destruct (Z.ltb_spec (heap_end a + amount) (heap_base a)).
    { eexists _, _. split; [done|].
      split_and!; try done; try lia; by apply u32_s32. }
    destruct (Z.leb_spec (stack_end a) (heap_end a + amount)).
    { eexists _, _. split; [done|].
      split_and!; try done; try lia; by apply u32_s32. }
    eexists _, _. split; [done|].
    split_and!; try done; try lia; [by apply u32_s32|].
    intros _. eexists. split; [reflexivity|]. by split_and!.
  - (* the sum overflows *)
    replace ((0 <? amount)%Z && (u32 (heap_end a + amount) <? heap_end a)%Z)
      with true.
    2:{ symmetry. apply andb_true_iff. split; [apply Z.ltb_lt|apply Z.ltb_lt]; lia. }
    simpl. eexists _, _. split; [done|]. unfold is_u32.
    split_and!; try done; try lia; by apply u32_s32.
  - (* the sum underflows *)
    replace ((amount <? 0)%Z && (heap_end a <? u32 (heap_end a + amount))%Z)
      with true.
    2:{ symmetry. apply andb_true_iff. split; [apply Z.ltb_lt|apply Z.ltb_lt]; lia. }
    rewrite orb_true_r. eexists _, _. split; [done|]. unfold is_u32.
    split_and!; try done; try lia; by apply u32_s32.
Qed.

End Sbrk.

Section SbrkRuns.
Local Existing Instance os161.

(** A process whose heap is empty at 0x401000 grows it by one page. *)
Lemma sys_sbrk_spec_witness :
  let k := sample_kstate sample_as free_coremap in
  exists k' a',
    sys_sbrk 4096 0 k = (None, 0x401000%Z, k') /\
    cur_as k' = Some a' /\ heap_end a' = 0x402000%Z /\
    heap_base a' = 0x401000%Z /\ cm k' = cm k.
Proof.
  destruct (sys_sbrk_spec 4096 0 (sample_kstate sample_as free_coremap)
              sample_as)
    as (r & k' & Hrun & _ & _ & _ & _ & _ & Hok & Hst & _).
  - reflexivity.
  - unfold is_u32. simpl. lia.
  - unfold is_s32. lia.
  - assert (r = None) as ->.
    { apply Hok; [lia|unfold is_u32; simpl; lia|simpl; unfold USERSTACK, MIPS_KSEG0, PAGE_SIZE; lia]. }
    destruct (Hst eq_refl) as (a' & Ha' & Hend & Hbase & _ & _ & _ & _ & _ & Hcm & _).
    exists k', a'. split_and!; done.
Defined.

End SbrkRuns.
End VMSpec.

Module FilesSpec.
Import Files.

Section Generic.
Context {hdr : headers}.

(** *** One step of each memory access *)

Lemma bind_val {A B} (m : M A) (f : A -> M B) k a k' :
  m k = Val a k' -> (m ≫= f) k = f a k'.
Proof. intros H. unfold mbind, M_bind, bind. by rewrite H. Qed.

Lemma bind_fault {A B} (m : M A) (f : A -> M B) k e :
  m k = Fault e -> (m ≫= f) k = Fault e.
Proof. intros H. unfold mbind, M_bind, bind. by rewrite H. Qed.

Lemma read_slot_ok k ft t i slot :
  tables k !! ft = Some t -> (0 <= i < OPEN_MAX)%Z ->
  t !! Z.to_nat i = Some slot ->
  read_slot ft i k = Val slot (log_read k ft i).
Proof.
  intros Ht Hi Hs. unfold read_slot. rewrite Ht, Hs.
  destruct (Z.leb_spec 0 i); [|lia]. destruct (Z.ltb_spec i OPEN_MAX); [|lia].
  done.
Qed.

Lemma write_slot_ok k ft t i v :
  tables k !! ft = Some t -> (0 <= i < OPEN_MAX)%Z ->
  Z.to_nat i < length t ->
  write_slot ft i v k =
    Val tt (set_tables k (<[ft := <[Z.to_nat i := v]> t]> (tables k))).
Proof.
  intros Ht Hi Hl. unfold write_slot. rewrite Ht.
  destruct (Z.leb_spec 0 i); [|lia]. destruct (Z.ltb_spec i OPEN_MAX); [|lia].
  destruct (Nat.ltb_spec (Z.to_nat i) (length t)); [|lia]. done.
Qed.

Lemma load_ok k file h : objs k !! file = Some h -> load file k = Val h k.
Proof. intros H. unfold load. by rewrite H. Qed.

Lemma store_ok k file h h' :
  objs k !! file = Some h ->
  store file h' k = Val tt (set_objs k (<[file := h']> (objs k))).
Proof. intros H. unfold store. by rewrite H. Qed.

Lemma open_file_incref_ok k file h :
  objs k !! file = Some h ->
  open_file_incref (Some file) k =
    Val tt (set_objs k (<[file := set_refs h (reference_count h + 1)]> (objs k))).
Proof.
  intros H. unfold open_file_incref.
  rewrite (bind_val _ _ _ _ _ (load_ok _ _ _ H)). by eapply store_ok.
Qed.

(** Dropping a reference that is not the last one. *)
Lemma open_file_decref_shared k file h :
  objs k !! file = Some h -> reference_count h <> 1%Z ->
  open_file_decref (Some file) k =
    Val tt (set_objs k (<[file := set_refs h (reference_count h - 1)]> (objs k))).
Proof.
  intros H Hrc. unfold open_file_decref.
  rewrite (bind_val _ _ _ _ _ (load_ok _ _ _ H)).
  rewrite (bind_val _ _ _ _ _ (store_ok _ _ _ _ H)).
  erewrite bind_val by (apply load_ok; simpl; apply lookup_insert_eq).
  simpl. destruct (Z.eqb_spec (reference_count h - 1) 0); [lia|done].
Qed.

(** Dropping the last reference: the vnode is closed, once, and the
    object is freed. *)
Lemma open_file_decref_last k file h :
  objs k !! file = Some h -> reference_count h = 1%Z ->
  open_file_decref (Some file) k =
    Val tt (set_objs (log_close k (file_vn h)) (delete file (objs k))).
Proof.
  intros H Hrc. unfold open_file_decref.
  rewrite (bind_val _ _ _ _ _ (load_ok _ _ _ H)).
  rewrite (bind_val _ _ _ _ _ (store_ok _ _ _ _ H)).
  erewrite bind_val by (apply load_ok; simpl; apply lookup_insert_eq).
  simpl. rewrite Hrc. simpl. unfold open_file_destroy.
  erewrite bind_val by (apply load_ok; simpl; apply lookup_insert_eq).
  unfold mbind, M_bind, bind, vfs_close, kfree_obj, set_objs, log_close. simpl.
  by rewrite delete_insert_eq.
Qed.

(** *** Descriptors outside [0, OPEN_MAX) *)

Lemma sys_read_bad_fd vfs cur fd buflen k :
  (fd < 0 \/ OPEN_MAX <= fd)%Z ->
  sys_read vfs cur fd buflen k = Val (Err EBADF) k.
Proof.
  intros H. unfold sys_read.
  destruct (Z.leb_spec OPEN_MAX fd), (Z.ltb_spec fd 0); simpl; done || lia.
Qed.

Lemma sys_close_bad_fd cur fd k :
  (fd < 0 \/ OPEN_MAX <= fd)%Z -> sys_close cur fd k = Val (Err EBADF) k.
Proof.
  intros H. unfold sys_close.
  destruct (Z.leb_spec OPEN_MAX fd), (Z.ltb_spec fd 0); simpl; done || lia.
Qed.


Lemma sys_dup2_bad_fd cur oldfd newfd k :
  (oldfd < 0 \/ OPEN_MAX <= oldfd \/ newfd < 0 \/ OPEN_MAX <= newfd)%Z ->
  sys_dup2 cur oldfd newfd k = Val (Err EBADF) k.
Proof.
  intros H. unfold sys_dup2.
  destruct (Z.ltb_spec oldfd 0), (Z.ltb_spec newfd 0),
    (Z.leb_spec OPEN_MAX oldfd), (Z.leb_spec OPEN_MAX newfd);
    simpl; done || lia.
Qed.

(** [sys_write] rejects a negative descriptor and one above
    [OPEN_MAX]. *)
Lemma sys_write_bad_fd vfs cur fd nbytes k :
  (fd < 0 \/ OPEN_MAX < fd)%Z ->
  sys_write vfs cur fd nbytes k = Val (Err EBADF) k.
Proof.
  intros H. unfold sys_write.
  destruct (Z.ltb_spec OPEN_MAX fd), (Z.ltb_spec fd 0); simpl; done || lia.
Qed.

(** The descriptor [OPEN_MAX] itself passes the test of [sys_write], and
    the call goes on to read [files[OPEN_MAX]], one past the array. *)
Lemma sys_write_open_max vfs cur nbytes k t :
  (0 <= OPEN_MAX)%Z ->
  tables k !! cur = Some t ->
  sys_write vfs cur OPEN_MAX nbytes k = Fault (OutOfBounds cur OPEN_MAX).
Proof.
  intros H0 Ht. unfold sys_write.
  destruct (Z.ltb_spec OPEN_MAX 0); [lia|].
  rewrite Z.ltb_irrefl. simpl.
  apply bind_fault. unfold read_slot. rewrite Ht.
  by rewrite Z.ltb_irrefl, andb_false_r.
Qed.

(** *** Closing a descriptor *)

Lemma sys_close_shared cur fd k t file h :
  tables k !! cur = Some t -> length t = Z.to_nat OPEN_MAX ->
  (0 <= fd < OPEN_MAX)%Z ->
  t !! Z.to_nat fd = Some (Some file) ->
  objs k !! file = Some h -> reference_count h <> 1%Z ->
  exists k',
    sys_close cur fd k = Val (Ok tt) k' /\
    tables k' = <[cur := <[Z.to_nat fd := None]> t]> (tables k) /\
    objs k' = <[file := set_refs h (reference_count h - 1)]> (objs k) /\
    vfs_closed k' = vfs_closed k.
Proof.
  intros Ht Hl Hfd Hs Ho Hrc. unfold sys_close.
  destruct (Z.leb_spec OPEN_MAX fd); [lia|].
  destruct (Z.ltb_spec fd 0); [lia|]. simpl.
  rewrite (bind_val _ _ _ _ _ (read_slot_ok _ _ _ _ _ Ht Hfd Hs)).
  erewrite bind_val by (apply (write_slot_ok _ _ t); [done|done|lia]).
  erewrite bind_val by (by apply (open_file_decref_shared _ _ h)).
  eexists. split; [done|]. done.
Qed.

Lemma sys_close_last cur fd k t file h :
  tables k !! cur = Some t -> length t = Z.to_nat OPEN_MAX ->
  (0 <= fd < OPEN_MAX)%Z ->
  t !! Z.to_nat fd = Some (Some file) ->
  objs k !! file = Some h -> reference_count h = 1%Z ->
  exists k',
    sys_close cur fd k = Val (Ok tt) k' /\
    tables k' = <[cur := <[Z.to_nat fd := None]> t]> (tables k) /\
    objs k' = delete file (objs k) /\
    vfs_closed k' = file_vn h :: vfs_closed k.
Proof.
  intros Ht Hl Hfd Hs Ho Hrc. unfold sys_close.
  destruct (Z.leb_spec OPEN_MAX fd); [lia|].
  destruct (Z.ltb_spec fd 0); [lia|]. simpl.
  rewrite (bind_val _ _ _ _ _ (read_slot_ok _ _ _ _ _ Ht Hfd Hs)).
  erewrite bind_val by (apply (write_slot_ok _ _ t); [done|done|lia]).
  erewrite bind_val by (by apply (open_file_decref_last _ _ h)).
  eexists. split; [done|]. done.
Qed.

(** *** [destroy_file_table] *)

(** One round of the loop clears the slot and leaves every open-file
    object and the list of closed vnodes as they were: the slot is read
    again after it was cleared, so [open_file_decref] is handed [NULL]. *)
Lemma destroy_body_spec ft i k t :
  tables k !! ft = Some t -> length t = Z.to_nat OPEN_MAX ->
  (0 <= i < OPEN_MAX)%Z ->
  exists k' t',
    destroy_body ft i k = Val tt k' /\
    tables k' !! ft = Some t' /\ length t' = Z.to_nat OPEN_MAX /\
    (forall ft', ft' <> ft -> tables k' !! ft' = tables k !! ft') /\
    objs k' = objs k /\ vfs_closed k' = vfs_closed k.
Proof.
  intros Ht Hl Hi.
  destruct (lookup_lt_is_Some_2 t (Z.to_nat i)) as [slot Hs]; [lia|].
  unfold destroy_body.
  rewrite (bind_val _ _ _ _ _ (read_slot_ok _ _ _ _ _ Ht Hi Hs)).
  destruct slot as [file|].
  - erewrite bind_val by (apply (write_slot_ok _ _ t); [done|done|lia]).
    erewrite bind_val.
    2:{ apply (read_slot_ok _ _ (<[Z.to_nat i := None]> t)); [|done|].
        - simpl. apply lookup_insert_eq.
        - apply list_lookup_insert_eq. lia. }
    simpl. eexists _, (<[Z.to_nat i := None]> t). split; [done|]. simpl.
    split_and!; try done.
    + apply lookup_insert_eq.
    + by rewrite length_insert.
    + intros ft' Hne. by rewrite lookup_insert_ne.
  - eexists _, t. split; [done|]. by simpl.
Qed.

Lemma destroy_loop_spec ft l :
  Forall (fun i => 0 <= i < OPEN_MAX)%Z l ->
  forall k t,
    tables k !! ft = Some t -> length t = Z.to_nat OPEN_MAX ->
    exists k' t',
      for_each l (destroy_body ft) k = Val tt k' /\
      tables k' !! ft = Some t' /\
      (forall ft', ft' <> ft -> tables k' !! ft' = tables k !! ft') /\
      objs k' = objs k /\ vfs_closed k' = vfs_closed k.
Proof.
  induction 1 as [|i l Hi _ IH]; intros k t Ht Hl; simpl.
  - by exists k, t.
  - destruct (destroy_body_spec ft i k t Ht Hl Hi)
      as (k1 & t1 & Hrun & Ht1 & Hl1 & Hoth1 & Ho1 & Hc1).
    rewrite (bind_val _ _ _ _ _ Hrun).
    destruct (IH k1 t1 Ht1 Hl1) as (k2 & t2 & Hrun2 & Ht2 & Hoth2 & Ho2 & Hc2).
    exists k2, t2. split_and!; try done.
    + intros ft' Hne. by rewrite Hoth2, Hoth1.
    + congruence.
    + congruence.
Qed.

(** [destroy_file_table] frees the table and nothing else: no reference
    count moves and no vnode is closed. *)
Lemma destroy_file_table_spec ft k t :
  tables k !! ft = Some t -> length t = Z.to_nat OPEN_MAX ->
  exists k',
    destroy_file_table (Some ft) k = Val tt k' /\
    tables k' = delete ft (tables k) /\
    objs k' = objs k /\ vfs_closed k' = vfs_closed k.
Proof.
  intros Ht Hl.
  destruct (destroy_loop_spec ft (seqZ 0 OPEN_MAX)) with (k := k) (t := t)
    as (k1 & t1 & Hrun & Ht1 & Hoth & Ho & Hc); [|done|done|].
  { apply Forall_seqZ. lia. }
  unfold destroy_file_table.
  rewrite (bind_val _ _ _ _ _ Hrun).
  eexists. split; [done|]. simpl. split_and!; try done.
  apply map_eq. intros ft'. destruct (decide (ft' = ft)) as [->|Hne].
  - by rewrite !lookup_delete_eq.
  - rewrite !lookup_delete_ne by done. by apply Hoth.
Qed.

(** *** [sys_dup2] *)

Lemma same_files_refl k : same_files k k.
Proof. done. Qed.

Lemma same_files_log_read k ft i : same_files k (log_read k ft i).
Proof. done. Qed.

Lemma same_files_trans k1 k2 k3 :
  same_files k1 k2 -> same_files k2 k3 -> same_files k1 k3.
Proof. intros (?&?&?) (?&?&?). split_and!; congruence. Qed.

(** Both slots are read when the descriptors are in range and differ. *)
Lemma sys_dup2_reads cur oldfd newfd k t so sn :
  tables k !! cur = Some t ->
  (0 <= oldfd < OPEN_MAX)%Z -> (0 <= newfd < OPEN_MAX)%Z -> oldfd <> newfd ->
  t !! Z.to_nat oldfd = Some so -> t !! Z.to_nat newfd = Some sn ->
  sys_dup2 cur oldfd newfd k =
    let k1 := log_read (log_read k cur oldfd) cur newfd in
    match so with
    | None => Val (Err EBADF) k1
    | Some _ =>
        if decide (sn = so) then Val (Ok newfd) k1
        else
          (open_file_incref so;;
           match sn with
           | Some _ => open_file_decref sn;; write_slot cur newfd None
           | None => ret tt
           end;;
           write_slot cur newfd so;;
           ret (Ok newfd)) k1
    end.
Proof.
  intros Ht Ho Hn Hne Hso Hsn. unfold sys_dup2.
  destruct (Z.ltb_spec oldfd 0); [lia|]. destruct (Z.ltb_spec newfd 0); [lia|].
  destruct (Z.leb_spec OPEN_MAX oldfd); [lia|].
  destruct (Z.leb_spec OPEN_MAX newfd); [lia|].
  destruct (Z.eqb_spec oldfd newfd); [lia|]. cbn [orb].
  rewrite (bind_val _ _ _ _ _ (read_slot_ok _ _ _ _ _ Ht Ho Hso)).
  erewrite bind_val by (by apply (read_slot_ok _ _ t)).
  destruct so; [|done]. by destruct (decide _).
Qed.

(** A call that finds the same object behind both descriptors returns
    [newfd] and changes nothing. *)
Lemma sys_dup2_same_object cur oldfd newfd k t :
  tables k !! cur = Some t ->
  (0 <= oldfd < OPEN_MAX)%Z -> (0 <= newfd < OPEN_MAX)%Z ->
  same_object t oldfd newfd ->
  exists k', sys_dup2 cur oldfd newfd k = Val (Ok newfd) k' /\ same_files k k'.
Proof.
  intros Ht Ho Hn [->|(file & Hso & Hsn)].
  - exists k. split; [|done]. unfold sys_dup2.
    destruct (Z.ltb_spec newfd 0); [lia|].
    destruct (Z.leb_spec OPEN_MAX newfd); [lia|].
    by rewrite Z.eqb_refl.
  - destruct (decide (oldfd = newfd)) as [->|Hne].
    + exists k. split; [|done]. unfold sys_dup2.
      destruct (Z.ltb_spec newfd 0); [lia|].
      destruct (Z.leb_spec OPEN_MAX newfd); [lia|].
      by rewrite Z.eqb_refl.
    + rewrite (sys_dup2_reads _ _ _ _ _ _ _ Ht Ho Hn Hne Hso Hsn).
      cbn zeta. rewrite decide_True by done. eexists. split; [done|]. done.
Qed.

(** The call proper: the object of [oldfd] gains a reference, the object
    [newfd] pointed to (if any) loses one, and the slot of [newfd] takes
    the object of [oldfd]. *)
Lemma sys_dup2_installs cur oldfd newfd k t po sn :
  tables k !! cur = Some t -> length t = Z.to_nat OPEN_MAX ->
  slots_live k t ->
  (0 <= oldfd < OPEN_MAX)%Z -> (0 <= newfd < OPEN_MAX)%Z -> oldfd <> newfd ->
  t !! Z.to_nat oldfd = Some (Some po) -> t !! Z.to_nat newfd = Some sn ->
  sn <> Some po ->
  exists k',
    sys_dup2 cur oldfd newfd k = Val (Ok newfd) k' /\
    tables k' = <[cur := <[Z.to_nat newfd := Some po]> t]> (tables k).
Proof.
  intros Ht Hl Hlive Ho Hn Hne Hso Hsn Hdiff.
  rewrite (sys_dup2_reads _ _ _ _ _ _ _ Ht Ho Hn Hne Hso Hsn).
  cbn zeta. rewrite decide_False by done.
  destruct (Hlive _ _ Hso) as [ho Hpo].
  erewrite bind_val by (by apply (open_file_incref_ok _ _ ho)).
  destruct sn as [pn|].
  - assert (pn <> po) as Hpn by congruence.
    destruct (Hlive _ _ Hsn) as [hn Hhn].
    set (k2 := set_objs _ _).
    assert (objs k2 !! pn = Some hn) as Hpn2.
    { subst k2. simpl. by rewrite lookup_insert_ne. }
    assert (exists k3, open_file_decref (Some pn) k2 = Val tt k3 /\
                       tables k3 = tables k) as (k3 & Hdec & Ht3).
    { destruct (decide (reference_count hn = 1%Z)).
      - eexists. split; [by apply (open_file_decref_last _ _ hn)|done].
      - eexists. split; [by apply (open_file_decref_shared _ _ hn)|done]. }
    erewrite bind_val.
    2:{ erewrite bind_val by exact Hdec.
        apply (write_slot_ok _ _ t); [by rewrite Ht3|done|lia]. }
    erewrite bind_val.
    2:{ apply (write_slot_ok _ _ (<[Z.to_nat newfd := None]> t)).
        - simpl. apply lookup_insert_eq.
        - done.
        - rewrite length_insert. lia. }
    eexists. split; [done|]. simpl.
    by rewrite Ht3, insert_insert_eq, list_insert_insert_eq.
  - erewrite bind_val by done.
    erewrite bind_val by (apply (write_slot_ok _ _ t); [done|done|lia]).
    eexists. split; [done|]. done.
Qed.

(** C10.  [sys_dup2] is idempotent.  On a state whose table slots point
    to live objects the call returns, and running the same call again
    returns the same result and leaves the open-file objects, the file
    tables and the closed vnodes as the first call left them.  When the
    slot of [newfd] already holds the object of [oldfd] (or the two
    descriptors are equal) the call returns [newfd] and changes neither
    the file table nor any reference count. *)
Theorem sys_dup2_idempotent cur oldfd newfd k t :
  tables k !! cur = Some t ->
  length t = Z.to_nat OPEN_MAX ->
  slots_live k t ->
  (exists r k1 k2,
      sys_dup2 cur oldfd newfd k = Val r k1 /\
      sys_dup2 cur oldfd newfd k1 = Val r k2 /\
      same_files k1 k2) /\
  ((0 <= oldfd < OPEN_MAX)%Z -> (0 <= newfd < OPEN_MAX)%Z ->
   same_object t oldfd newfd ->
   exists k', sys_dup2 cur oldfd newfd k = Val (Ok newfd) k' /\
              same_files k k').
Proof.
  intros Ht Hl Hlive. split; [|by apply sys_dup2_same_object].
  destruct (decide ((0 <= oldfd < OPEN_MAX)%Z /\ (0 <= newfd < OPEN_MAX)%Z))
    as [[Ho Hn]|Hbad].
  2:{ exists (Err EBADF), k, k.
      rewrite sys_dup2_bad_fd by lia. done. }
  assert (forall k0 t0,
    tables k0 !! cur = Some t0 -> same_object t0 oldfd newfd ->
    exists k1 k2,
      sys_dup2 cur oldfd newfd k0 = Val (Ok newfd) k1 /\
      sys_dup2 cur oldfd newfd k1 = Val (Ok newfd) k2 /\
      same_files k1 k2) as Hsame.
  { intros k0 t0 Ht0 Hs.
    destruct (sys_dup2_same_object _ _ _ _ _ Ht0 Ho Hn Hs) as (k1 & H1 & Hs1).
    assert (tables k1 !! cur = Some t0) as Ht1.
    { destruct Hs1 as (_ & -> & _). done. }
    destruct (sys_dup2_same_object _ _ _ _ _ Ht1 Ho Hn Hs) as (k2 & H2 & Hs2).
    by exists k1, k2. }
  destruct (decide (oldfd = newfd)) as [Heq|Hne].
  { destruct (Hsame k t Ht) as (k1 & k2 & ?); [by left|]. by exists (Ok newfd), k1, k2. }
  destruct (lookup_lt_is_Some_2 t (Z.to_nat oldfd)) as [so Hso]; [lia|].
  destruct (lookup_lt_is_Some_2 t (Z.to_nat newfd)) as [sn Hsn]; [lia|].
  destruct so as [po|].
  - destruct (decide (sn = Some po)) as [->|Hdiff].
    { destruct (Hsame k t Ht) as (k1 & k2 & ?); [right; by exists po|].
      by exists (Ok newfd), k1, k2. }
    destruct (sys_dup2_installs _ _ _ _ _ _ _ Ht Hl Hlive Ho Hn Hne Hso Hsn Hdiff)
      as (k1 & H1 & Ht1).
    destruct (sys_dup2_same_object cur oldfd newfd k1
                (<[Z.to_nat newfd := Some po]> t)) as (k2 & H2 & Hs2);
      [by rewrite Ht1, lookup_insert_eq|done|done| |].
    { right. exists po. split.
      - rewrite list_lookup_insert_ne by lia. done.
      - apply list_lookup_insert_eq. lia. }
    by exists (Ok newfd), k1, k2.
  - pose proof (sys_dup2_reads _ _ _ _ _ _ _ Ht Ho Hn Hne Hso Hsn) as H1.
    cbn zeta in H1. set (k1 := log_read (log_read k cur oldfd) cur newfd) in *.
    exists (Err EBADF), k1, (log_read (log_read k1 cur oldfd) cur newfd).
    split; [exact H1|]. split; [|done].
    by rewrite (sys_dup2_reads _ _ _ _ t None sn).
Qed.

(** *** [sys_lseek] *)





End Generic.

Section Runs.
Local Existing Instance os161.

(** C1 on [destroy_file_table].  A process holds the console on
    descriptor 1 through an object with reference count 1.  Destroying
    its file table frees the table, but the object stays on the heap with
    reference count 1 while no slot points to it any more, and its vnode
    is never closed: the loop clears each slot before it calls
    [open_file_decref] on the slot, so the call is handed [NULL]. *)
Lemma console_state_inv : refcount_inv console_state.
Proof.
  split_and!.
  - intros ft t Ht. unfold console_state in Ht. simpl in Ht.
    apply lookup_singleton_Some in Ht as [_ <-]. by vm_compute.
  - intros ft t i file Ht Hi. unfold console_state in Ht. simpl in Ht.
    apply lookup_singleton_Some in Ht as [_ <-].
    destruct i as [|[|[|i]]];
      [vm_compute in Hi; simplify_eq; eexists; vm_compute; reflexivity..|].
    unfold console_table in Hi.
    rewrite lookup_app_r in Hi by (simpl; lia).
    apply lookup_replicate in Hi as [? _]. done.
  - intros file h Hf.
    destruct (decide (file = 10)) as [->|];
      [vm_compute in Hf; simplify_eq; by vm_compute|].
    destruct (decide (file = 11)) as [->|];
      [vm_compute in Hf; simplify_eq; by vm_compute|].
    destruct (decide (file = 12)) as [->|];
      [vm_compute in Hf; simplify_eq; by vm_compute|].
    unfold console_state in Hf. simpl in Hf. by simplify_map_eq.
Qed.

Theorem destroy_file_table_drops_no_reference :
  refcount_inv console_state /\
  objs console_state !! 11 = Some (OpenFile 0 1 101 1) /\
  slot_count console_state 11 = 1 /\
  exists k',
    destroy_file_table (Some 1) console_state = Val tt k' /\
    tables k' = ∅ /\
    objs k' !! 11 = Some (OpenFile 0 1 101 1) /\
    slot_count k' 11 = 0 /\
    times_closed k' 101 = 0 /\
    ~ refcount_inv k'.
Proof.
  split_and!.
  - apply console_state_inv.
  - by vm_compute.
  - by vm_compute.
  - destruct (destroy_file_table_spec 1 console_state console_table)
      as (k' & Hrun & Ht & Ho & Hc); [done|done|].
    assert (tables k' = ∅) as Ht' by (rewrite Ht; by vm_compute).
    exists k'. split_and!.
    + done.
    + done.
    + by rewrite Ho.
    + unfold slot_count. by rewrite Ht'.
    + unfold times_closed. by rewrite Hc.
    + intros (_ & _ & Hrc).
      specialize (Hrc 11 (OpenFile 0 1 101 1)). rewrite Ho in Hrc.
      specialize (Hrc eq_refl). unfold slot_count in Hrc. rewrite Ht' in Hrc.
      by vm_compute in Hrc.
Qed.

(** C2 on [sys_write].  With [OPEN_MAX] = 128, [sys_read] of descriptor
    128 returns [EBADF] and touches nothing, while [sys_write] lets 128
    through its test ([fd > __OPEN_MAX]) and indexes [files[128]], one
    past the end of the array. *)
Theorem sys_write_accepts_open_max :
  sys_read console_vfs 1 128 16 console_state = Val (Err EBADF) console_state /\
  sys_write console_vfs 1 129 16 console_state = Val (Err EBADF) console_state /\
  sys_write console_vfs 1 128 16 console_state = Fault (OutOfBounds 1 128) /\
  sys_write console_vfs 1 128 16 console_state <> Val (Err EBADF) console_state.
Proof. split_and!; by vm_compute. Qed.

(** [dup2(1, 2)] on the console process drops the object behind
    descriptor 2 and installs the object of descriptor 1; a second
    [dup2(1, 2)] changes nothing.  [dup2(1, 1)] changes nothing. *)
Lemma sys_dup2_idempotent_witness :
  (exists r k1 k2,
      sys_dup2 1 1 2 console_state = Val r k1 /\
      sys_dup2 1 1 2 k1 = Val r k2 /\
      same_files k1 k2) /\
  (exists k', sys_dup2 1 1 1 console_state = Val (Ok 1%Z) k' /\
              same_files console_state k').
Proof.
  assert (slots_live console_state console_table) as Hlive.
  { intros i file Hi.
    by apply (proj1 (proj2 console_state_inv) 1 console_table i file). }
  split.
  - by apply (sys_dup2_idempotent 1 1 2 console_state console_table).
  - apply (sys_dup2_idempotent 1 1 1 console_state console_table);
      [done|done|done|done|done|by left].
Defined.



(** The seeks of an open file of size 100, and a seek on the console. *)
Example lseek_round_trip :
  value_of
    ((r1 ← sys_lseek disk_vfs 1 3 10 SEEK_SET;
      r2 ← sys_lseek disk_vfs 1 3 (-5) SEEK_CUR;
      r3 ← sys_lseek disk_vfs 1 3 0 SEEK_END;
      r4 ← sys_lseek disk_vfs 1 3 (-1) SEEK_SET;
      r5 ← sys_lseek disk_vfs 1 0 0 SEEK_SET;
      h ← load 13;
      ret ([r1; r2; r3; r4; r5], offset h)) disk_state) =
  Some ([Ok 10; Ok 5; Ok 100; Err EINVAL; Err ESPIPE], 100)%Z.
Proof. by vm_compute. Qed.

End Runs.
End FilesSpec.

Module ProcsSpec.
Import Procs.

Section Generic.
Context {hdr : headers}.

(** *** PID allocation *)

Lemma free_slot_some t i n r :
  free_slot t i n = Some r ->
  (i <= r < i + Z.of_nat n)%Z /\ t !! r = None /\
  (forall j, (i <= j < r)%Z -> is_Some (t !! j)).
Proof.
  revert i. induction n as [|n IH]; intros i; simpl; [done|].
  destruct (t !! i) as [c|] eqn:E.
  - intros H. destruct (IH _ H) as (Hr & Hnone & Hlow).
    split_and!; [lia..|done|].
    intros j Hj. destruct (decide (j = i)) as [->|]; [by rewrite E|].
    apply Hlow. lia.
  - intros [= <-]. split_and!; [lia..|done|]. intros j Hj. lia.
Qed.

Lemma free_slot_none t i n :
  (forall j, (i <= j < i + Z.of_nat n)%Z -> is_Some (t !! j)) ->
  free_slot t i n = None.
Proof.
  revert i. induction n as [|n IH]; intros i Hfull; simpl; [done|].
  destruct (Hfull i) as [c ->]; [lia|].
  apply IH. intros j Hj. apply Hfull. lia.
Qed.

Lemma table_full_spec k :
  table_full k = true ->
  forall j, (PID_MIN <= j < PID_MAX)%Z -> is_Some (pid_table k !! j).
Proof.
  unfold table_full. rewrite forallb_forall. intros H j Hj.
  eapply bool_decide_eq_true, H, list_elem_of_In, elem_of_seqZ. lia.
Qed.

(** With a free slot, [proc_allocpid] registers the process under the
    lowest free PID of the range and returns that PID. *)
Lemma proc_allocpid_lowest p k j :
  (PID_MIN <= j < PID_MAX)%Z -> pid_table k !! j = None ->
  exists i,
    proc_allocpid p k = (i, set_pid_table k (<[i := p]> (pid_table k))) /\
    (PID_MIN <= i <= j)%Z /\ pid_table k !! i = None /\
    (forall j', (PID_MIN <= j' < i)%Z -> is_Some (pid_table k !! j')).
Proof.
  intros Hj Hfree. unfold proc_allocpid.
  destruct (free_slot _ _ _) as [i|] eqn:E.
  - apply free_slot_some in E as (Hr & Hnone & Hlow).
    exists i. split_and!; try done; [lia|].
    destruct (decide (i <= j)%Z); [done|].
    destruct (Hlow j) as [c Hc]; [lia|]. congruence.
  - exfalso.
    assert (free_slot (pid_table k) PID_MIN (Z.to_nat (PID_MAX - PID_MIN))
            <> None) as Hne; [|done].
    clear E. intros E.
    assert (forall n i, free_slot (pid_table k) i n = None ->
              forall j', (i <= j' < i + Z.of_nat n)%Z ->
                         is_Some (pid_table k !! j')) as Hall.
    { clear. induction n as [|n IH]; intros i; simpl; [lia|].
      destruct (pid_table k !! i) as [c|] eqn:Ei; [|done].
      intros H j' Hj'. destruct (decide (j' = i)) as [->|]; [by rewrite Ei|].
      apply (IH _ H). lia. }
    destruct (Hall _ _ E j) as [c Hc]; [lia|]. congruence.
Qed.

(** With no free slot, [proc_allocpid] registers nothing and returns the
    integer of [ENPROC] as if it were a PID. *)
Lemma proc_allocpid_full p k :
  table_full k = true -> proc_allocpid p k = (errno_code ENPROC, k).
Proof.
  intros H. unfold proc_allocpid. rewrite free_slot_none; [done|].
  intros j Hj. apply table_full_spec; [done|lia].
Qed.

(** [proc_create] does not look at what [proc_allocpid] returned: with a
    full PID table it still succeeds, and the new process carries the
    integer of [ENPROC] as its PID without being entered in the table. *)
Lemma proc_create_full p stale name k :
  table_full k = true -> name <> "[kernel]" ->
  proc_create (Some p) true stale name k =
    (Some p,
     set_procs k (<[p := Proc name None None stale (errno_code ENPROC)
                              (-1) 0 false]> (procs k))).
Proof.
  intros Hfull Hname. unfold proc_create. simpl.
  destruct (String.eqb_spec name "[kernel]"); [done|]. simpl.
  by rewrite proc_allocpid_full.
Qed.

Lemma proc_create_full_effect p stale name k :
  table_full k = true -> name <> "[kernel]" ->
  exists k',
    proc_create (Some p) true stale name k = (Some p, k') /\
    pid_table k' = pid_table k /\
    p_pid <$> procs k' !! p = Some (errno_code ENPROC).
Proof.
  intros Hfull Hname. eexists. split; [by apply proc_create_full|].
  cbn [pid_table procs set_procs]. split; [done|].
  by rewrite lookup_insert_eq.
Qed.

(** The crowded table: slot [j] of the range points to address [j]. *)
Lemma crowded_lookup_inv i c :
  pid_table crowded !! i = Some c -> (PID_MIN <= i < PID_MAX)%Z /\ c = i.
Proof.
  unfold crowded. cbn [pid_table]. intros Hi.
  apply elem_of_list_to_map_2 in Hi.
  apply list_elem_of_fmap in Hi as (j & [= -> ->] & Hin).
  apply elem_of_seqZ in Hin. split; [lia|done].
Qed.

Lemma crowded_lookup j :
  (PID_MIN <= j < PID_MAX)%Z -> pid_table crowded !! j = Some j.
Proof.
  intros Hj. unfold crowded. cbn [pid_table].
  apply elem_of_list_to_map_1.
  - rewrite <- list_fmap_compose.
    replace (fst ∘ (fun i : Z => (i, i))) with (@id Z) by done.
    rewrite list_fmap_id. apply NoDup_seqZ.
  - apply list_elem_of_fmap. exists j. split; [done|].
    apply elem_of_seqZ. lia.
Qed.

Lemma crowded_full : table_full crowded = true.
Proof.
  unfold table_full. apply forallb_forall. intros j Hj.
  apply list_elem_of_In, elem_of_seqZ in Hj.
  apply bool_decide_eq_true. rewrite crowded_lookup by lia. done.
Qed.

(** *** [sys_waitpid] and [sys__exit] *)

Lemma proc_get_Some pid k c :
  proc_get pid k = Some c ->
  (PID_MIN <= pid < PID_MAX)%Z /\ pid_table k !! pid = Some c.
Proof.
  unfold proc_get.
  destruct (Z.leb_spec PID_MIN pid), (Z.ltb_spec pid PID_MAX); simpl; done.
Qed.

(** The child has exited and its status can be delivered: the status
    word is stored, the child is destroyed and its PID slot is free. *)
Lemma sys_waitpid_reaps uaddr_ok cur pid status k me c child :
  procs k !! cur = Some me -> pid_table_ok k ->
  proc_get pid k = Some c -> procs k !! c = Some child ->
  p_parent child = p_pid me -> p_exited child = true ->
  (status = 0%Z \/ uaddr_ok status = true) ->
  exists k',
    sys_waitpid uaddr_ok cur pid status 0 k = Returns (Ok pid) k' /\
    procs k' = delete c (procs k) /\
    pid_table k' = delete pid (pid_table k) /\
    proc_get pid k' = None /\
    umem k' = (if (status =? 0)%Z then umem k
               else <[status := p_exitcode child]> (umem k)).
Proof.
  intros Hme Hok Hget Hc Hpar Hex Hst.
  destruct (proc_get_Some _ _ _ Hget) as [Hrange Hslot].
  destruct (Hok _ _ Hslot) as (Hnk & pr & Hpr & Hpid).
  rewrite Hc in Hpr. injection Hpr as <-.
  unfold sys_waitpid. cbn [Z.eqb negb]. rewrite Hget, Hc, Hme, Hpar.
  rewrite Z.eqb_refl, Hex. cbn [negb].
  assert (forall k1, procs k1 = procs k -> pid_table k1 = pid_table k ->
                     kproc k1 = kproc k ->
            exists k2, proc_destroy c k1 = Some k2 /\
                       procs k2 = delete c (procs k) /\
                       pid_table k2 = delete pid (pid_table k) /\
                       umem k2 = umem k1) as Hdestroy.
  { intros k1 Hp Ht Hk. unfold proc_destroy.
    rewrite decide_False by (by rewrite Hk). rewrite Hp, Hc.
    eexists. split; [done|]. cbn. by rewrite Hp, Ht, Hpid. }
  assert (forall k2, pid_table k2 = delete pid (pid_table k) ->
                     proc_get pid k2 = None) as Hfree.
  { intros k2 Ht. unfold proc_get. rewrite Ht, lookup_delete_eq.
    by destruct (_ && _). }
  destruct (Z.eqb_spec status 0) as [->|Hnz]; cbn [negb].
  - destruct (Hdestroy k) as (k2 & -> & Hp2 & Ht2 & Hu2); [done..|].
    exists k2. split_and!; auto.
  - destruct Hst as [?|Hu]; [done|].
    unfold copyout_int. rewrite Hu.
    destruct (Hdestroy (set_umem k (<[status := p_exitcode child]> (umem k))))
      as (k2 & -> & Hp2 & Ht2 & Hu2); [done..|].
    exists k2. split_and!; auto.
Qed.

(** C7, as the code has it.  [sys_waitpid] returns [EINVAL] when
    [options] is not 0, [ESRCH] when [proc_get] finds no process under
    [pid] (the PID lies outside [PID_MIN, PID_MAX) or its slot of the PID
    table is empty), [ECHILD] when the target's parent is not the caller;
    it sleeps
    while the target has not exited; once it has, the packed status is
    copied to [status] unless that is [NULL], the child is destroyed, its
    PID slot falls free and the child's PID is returned.  When the copy
    to user space fails the call returns the error of [copyout] and the
    child is left in place.  A child that ran [sys__exit(code)] leaves
    [_MKWAIT_EXIT(code & 0xff)] as the status its parent receives. *)
Theorem sys_waitpid_spec uaddr_ok cur pid status options k me :
  procs k !! cur = Some me ->
  pid_table_ok k ->
  (options <> 0%Z ->
   sys_waitpid uaddr_ok cur pid status options k = Returns (Err EINVAL) k) /\
  (proc_get pid k = None ->
   sys_waitpid uaddr_ok cur pid status 0 k = Returns (Err ESRCH) k) /\
  ((pid < PID_MIN \/ PID_MAX <= pid)%Z \/ pid_table k !! pid = None ->
   sys_waitpid uaddr_ok cur pid status 0 k = Returns (Err ESRCH) k) /\
  (forall c,
      proc_get pid k = Some c <->
      (PID_MIN <= pid < PID_MAX)%Z /\ pid_table k !! pid = Some c) /\
  (forall c child,
      proc_get pid k = Some c -> procs k !! c = Some child ->
      (p_parent child <> p_pid me ->
       sys_waitpid uaddr_ok cur pid status 0 k = Returns (Err ECHILD) k) /\
      (p_parent child = p_pid me -> p_exited child = false ->
       sys_waitpid uaddr_ok cur pid status 0 k = Sleeps) /\
      (p_parent child = p_pid me -> p_exited child = true ->
       status <> 0%Z -> uaddr_ok status = false ->
       sys_waitpid uaddr_ok cur pid status 0 k = Returns (Err EFAULT) k) /\
      (p_parent child = p_pid me -> p_exited child = true ->
       status = 0%Z \/ uaddr_ok status = true ->
       exists k',
         sys_waitpid uaddr_ok cur pid status 0 k = Returns (Ok pid) k' /\
         procs k' = delete c (procs k) /\
         pid_table k' = delete pid (pid_table k) /\
         proc_get pid k' = None /\
         umem k' = (if (status =? 0)%Z then umem k
                    else <[status := p_exitcode child]> (umem k))) /\
      (forall code k1,
          p_parent child = p_pid me -> c <> cur ->
          status <> 0%Z -> uaddr_ok status = true ->
          sys__exit c code k = Some k1 ->
          exists k',
            sys_waitpid uaddr_ok cur pid status 0 k1 = Returns (Ok pid) k' /\
            umem k' !! status = Some (MKWAIT_EXIT (Z.land code 0xff)) /\
            proc_get pid k' = None)).
Proof.
  intros Hme Hok. split_and!.
  - intros Hopt. unfold sys_waitpid.
    by destruct (Z.eqb_spec options 0).
  - intros Hget. unfold sys_waitpid. cbn [Z.eqb negb]. by rewrite Hget.
  - intros Hout. unfold sys_waitpid, proc_get. cbn [Z.eqb negb].
    destruct (Z.leb_spec PID_MIN pid), (Z.ltb_spec pid PID_MAX);
      cbn [andb]; try done.
    destruct Hout as [[|]| ->]; [lia..|done].
  - intros c. unfold proc_get.
    destruct (Z.leb_spec PID_MIN pid), (Z.ltb_spec pid PID_MAX);
      cbn [andb]; (split; [intros Hc|intros [Hr Hc]]); try done; try lia.
  - intros c child Hget Hc. split_and!.
    + intros Hpar. unfold sys_waitpid. cbn [Z.eqb negb].
      rewrite Hget, Hc, Hme. by destruct (Z.eqb_spec (p_parent child) (p_pid me)).
    + intros Hpar Hex. unfold sys_waitpid. cbn [Z.eqb negb].
      by rewrite Hget, Hc, Hme, Hpar, Z.eqb_refl, Hex.
    + intros Hpar Hex Hnz Hu. unfold sys_waitpid. cbn [Z.eqb negb].
      rewrite Hget, Hc, Hme, Hpar, Z.eqb_refl, Hex. cbn [negb].
      destruct (Z.eqb_spec status 0); [done|]. cbn [negb].
      unfold copyout_int. by rewrite Hu.
    + intros Hpar Hex Hst. by eapply sys_waitpid_reaps.
    + intros code k1 Hpar Hne Hnz Hu Hexit.
      unfold sys__exit in Hexit. rewrite Hc in Hexit. injection Hexit as <-.
      set (child' := Proc _ _ _ _ _ _ _ _).
      set (k1 := set_procs _ _).
      destruct (sys_waitpid_reaps uaddr_ok cur pid status k1 me c child')
        as (k' & Hrun & _ & _ & Hfree & Hum); try done.
      * subst k1. cbn. by rewrite lookup_insert_ne.
      * intros i c0 Hi. subst k1. cbn in *.
        destruct (Hok _ _ Hi) as (Hnk & pr & Hpr & Hpid). split; [done|].
        destruct (decide (c0 = c)) as [->|].
        -- exists child'. rewrite lookup_insert_eq. split; [done|].
           simplify_eq. done.
        -- exists pr. by rewrite lookup_insert_ne.
      * subst k1. cbn. apply lookup_insert_eq.
      * by right.
      * exists k'. split; [done|]. split; [|done].
        rewrite Hum. destruct (Z.eqb_spec status 0); [done|].
        apply lookup_insert_eq.
Qed.

End Generic.

Section Runs.
Local Existing Instance os161.

(** C9 with a full PID table.  Every PID from 2 to 32766 is taken.
    [proc_create("sh")] nevertheless returns a process structure (it does
    not fail), whatever the memory it gets held before: the PID table is
    unchanged, and the new process has PID 12, the integer of [ENPROC],
    which is the PID of the live process registered in slot 12. *)
Theorem proc_create_full_table :
  table_full crowded = true /\
  pid_table crowded !! 12%Z = Some 12%Z /\
  forall stale, exists k',
    proc_create (Some 40000%Z) true stale "sh" crowded = (Some 40000%Z, k') /\
    pid_table k' = pid_table crowded /\
    p_pid <$> procs k' !! 40000%Z = Some (errno_code ENPROC) /\
    errno_code ENPROC = 12%Z /\
    (forall i, pid_table k' !! i <> Some 40000%Z).
Proof.
  pose proof crowded_full as Hfull.
  split; [exact Hfull|].
  split; [apply crowded_lookup; unfold PID_MIN, PID_MAX; simpl; lia|].
  intros stale.
  destruct (proc_create_full_effect 40000 stale "sh" crowded Hfull)
    as (k' & Hrun & Hpt & Hpid); [done|].
  exists k'. split; [exact Hrun|]. split; [exact Hpt|]. split; [exact Hpid|].
  split; [reflexivity|].
  intros i Hi. rewrite Hpt in Hi.
  apply crowded_lookup_inv in Hi as [Hi Heq].
  unfold PID_MIN, PID_MAX in Hi. simpl in Hi. lia.
Qed.

Lemma family_ok : pid_table_ok family.
Proof.
  intros i c Hi. unfold family in *. cbn [pid_table procs kproc] in *.
  destruct (decide (i = 2%Z)) as [->|]; [|destruct (decide (i = 3%Z)) as [->|]].
  - rewrite lookup_insert_eq in Hi. injection Hi as <-.
    split; [done|]. eexists. split; [by vm_compute|done].
  - rewrite lookup_insert_ne, lookup_singleton_eq in Hi by done.
    injection Hi as <-. split; [done|]. eexists. split; [by vm_compute|done].
  - rewrite lookup_insert_ne, lookup_singleton_ne in Hi by done. done.
Qed.

(** The child (PID 3) exits with code 7; its parent then waits for it,
    receives the status word 28 at user address 0x1000, and PID 3 is
    free again. *)
Lemma sys_waitpid_spec_witness :
  exists k1 k',
    sys__exit 2 7 family = Some k1 /\
    sys_waitpid (fun _ => true) 1 3 0x1000 0 k1 = Returns (Ok 3%Z) k' /\
    umem k' !! 0x1000%Z = Some 28%Z /\
    proc_get 3 k' = None.
Proof.
  destruct (sys_waitpid_spec (fun _ => true) 1 3 0x1000 0 family
              (Proc "sh" (Some 1) (Some 50) (Some 1) 2 (-1) 0 false))
    as (_ & _ & _ & _ & Hchild).
  - reflexivity.
  - exact family_ok.
  - destruct (Hchild 2%Z (Proc "sh" (Some 2) (Some 50) (Some 2) 3 2 0 false))
      as (_ & _ & _ & _ & Hexit); [reflexivity|reflexivity|].
    destruct (Hexit 7%Z family_after_exit) as (k' & Hrun & Hst & Hfree);
      [reflexivity|done|done|reflexivity|reflexivity|].
    exists family_after_exit, k'. split; [reflexivity|]. split; [exact Hrun|].
    split; [exact Hst|exact Hfree].
Defined.

(** C7 as stated fails in two places.  (1) Where the status pointer
    cannot be written: the child has exited and is the caller's, yet the
    call returns [EFAULT], not the child's PID, and the child keeps its
    PID slot.  (2) For the PID of the kernel process: the process
    [proc_create("[kernel]")] makes carries PID 1 and is in no slot of
    the PID table; in [family] it is live and its parent is not the
    caller, yet waiting for PID 1 gives [ESRCH], not [ECHILD], because
    [proc_get] answers [NULL] for every PID outside
    [PID_MIN, PID_MAX). *)
Lemma sys_waitpid_departs :
  (let k := family_after_exit in
   proc_get 3 k = Some 2%Z /\
   (p_parent <$> procs k !! 2%Z) = (p_pid <$> procs k !! 1%Z) /\
   (p_exited <$> procs k !! 2%Z) = Some true /\
   sys_waitpid (fun _ => false) 1 3 0x1000 0 k = Returns (Err EFAULT) k /\
   (forall k', sys_waitpid (fun _ => false) 1 3 0x1000 0 k
               <> Returns (Ok 3%Z) k')) /\
  (let boot := {| procs := ∅; pid_table := ∅; kproc := 0; calls := [];
                  umem := ∅ |} in
   let k0 := snd (proc_create (Some 0%Z) true None "[kernel]" boot) in
   procs k0 !! 0%Z = procs family !! 0%Z /\ pid_table k0 = ∅ /\
   (p_pid <$> procs family !! 0%Z) = Some 1%Z /\
   (p_exited <$> procs family !! 0%Z) = Some false /\
   (p_parent <$> procs family !! 0%Z) <> (p_pid <$> procs family !! 1%Z) /\
   (forall i, pid_table family !! i <> Some 0%Z) /\
   sys_waitpid (fun _ => true) 1 1 0 0 family = Returns (Err ESRCH) family /\
   sys_waitpid (fun _ => true) 1 1 0 0 family <> Returns (Err ECHILD) family).
Proof.
  assert (sys_waitpid (fun _ => false) 1 3 0x1000 0 family_after_exit
          = Returns (Err EFAULT) family_after_exit) as Hrun by (by vm_compute).
  assert (sys_waitpid (fun _ => true) 1 1 0 0 family
          = Returns (Err ESRCH) family) as Hrun1 by (by vm_compute).
  split.
  - split_and!; [by vm_compute..|exact Hrun|].
    intros k'. rewrite Hrun. discriminate.
  - split_and!; [by vm_compute..| |exact Hrun1|by rewrite Hrun1].
    intros i. unfold family. cbn [pid_table].
    destruct (decide (i = 2%Z)) as [->|];
      [|destruct (decide (i = 3%Z)) as [->|]].
    + by rewrite lookup_insert_eq.
    + by rewrite lookup_insert_ne, lookup_singleton_eq.
    + by rewrite lookup_insert_ne, lookup_singleton_ne.
Qed.

End Runs.
End ProcsSpec.


(* ------------------------------------------------------------------ *)
(** ** More on the frame allocator *)

Module CoremapLaws.
Import Coremap CoremapSpec.

Section Generic.
Context {hdr : headers}.

Lemma set_coremap_same s : set_coremap s (coremap s) = s.
Proof. by destruct s. Qed.

(** A free frame of a well-shaped map is the entry [{true, 0}]. *)
Lemma blocks_free_entry cm i e :
  blocks cm -> cm !! i = Some e -> free e = true -> e = Entry true 0.
Proof.
  intros Hb Hi Hf.
  destruct (blocks_split_free _ _ _ Hb Hi Hf) as (l1 & l2 & -> & <- & _).
  rewrite lookup_app_r in Hi by lia. rewrite Nat.sub_diag in Hi.
  by injection Hi as <-.
Qed.

Lemma first_free_some cm i n k :
  first_free cm i n = Some k ->
  i <= k < i + n /\
  (exists e, cm !! k = Some e /\ free e = true) /\
  (forall j e, i <= j < k -> cm !! j = Some e -> free e = false).
Proof.
  revert i. induction n as [|n IH]; intros i; simpl; [done|].
  destruct (cm !! i) as [e|] eqn:E.
  - destruct (free e) eqn:F.
    + intros [= <-]. split_and!; [lia..|eauto|]. intros j e' Hj. lia.
    + intros H. destruct (IH _ H) as (Hk & Hfree & Hlow).
      split_and!; [lia..|done|].
      intros j e' Hj Hje. destruct (decide (j = i)) as [->|]; [congruence|].
      eapply Hlow; [|done]. lia.
  - intros H. destruct (IH _ H) as (Hk & Hfree & Hlow).
    split_and!; [lia..|done|].
    intros j e' Hj Hje. destruct (decide (j = i)) as [->|]; [congruence|].
    eapply Hlow; [|done]. lia.
Qed.




(** *** Addresses and indices *)

Lemma frame_paddr_exact s i :
  addressable s -> i < total_pages s ->
  frame_paddr s i = (first_paddr s + Z.of_nat i * PAGE_SIZE)%Z /\
  (0 <= frame_paddr s i < 2 ^ 32)%Z.
Proof.
  unfold addressable, frame_paddr, u32, PAGE_SIZE. intros [H0 H1] Hi.
  rewrite Z.mod_small by lia. lia.
Qed.

Lemma frame_index s i :
  addressable s -> i < total_pages s ->
  (frame_paddr s i <? first_paddr s)%Z = false /\
  Z.to_nat (u32 (frame_paddr s i - first_paddr s) / PAGE_SIZE) = i.
Proof.
  intros Ha Hi. destruct (frame_paddr_exact s i Ha Hi) as [-> _].
  unfold addressable, u32, PAGE_SIZE in *. split.
  - apply Z.ltb_ge. lia.
  - replace (first_paddr s + Z.of_nat i * 4096 - first_paddr s)%Z
      with (Z.of_nat i * 4096)%Z by lia.
    rewrite Z.mod_small by lia. rewrite Z.div_mul by lia. lia.
Qed.

Lemma kvaddr_paddr pa :
  (0 <= pa < 2 ^ 32)%Z -> KVADDR_TO_PADDR (PADDR_TO_KVADDR pa) = pa.
Proof.
  intros H. unfold KVADDR_TO_PADDR, PADDR_TO_KVADDR, u32.
  rewrite Zminus_mod_idemp_l.
  replace (pa + MIPS_KSEG0 - MIPS_KSEG0)%Z with pa by lia.
  by apply Z.mod_small.
Qed.

(** Allocating a page and freeing it again gives the map back. *)
Theorem alloc_page_free_page steal s pa s' :
  coremap_ready s = true -> wf s -> addressable s ->
  alloc_page steal s = (pa, s') -> pa <> 0%Z ->
  free_page pa s' = Ret s.
Proof.
  intros Hready [Hb Hl] Ha. unfold alloc_page. rewrite Hready. cbn [negb].
  destruct (first_free _ _ _) as [k|] eqn:E; [|by intros [= <- <-]].
  apply first_free_some in E as (Hk & (e & He & Hf) & _).
  pose proof (blocks_free_entry _ _ _ Hb He Hf) as ->.
  intros [= <- <-] _.
  destruct (frame_index s k Ha) as [Hge Hidx]; [lia|].
  unfold free_page. cbn [coremap_ready set_coremap first_paddr total_pages coremap].
  rewrite Hready, Hge, Hidx. cbn [negb].
  destruct (Nat.ltb_spec k (total_pages s)); [|lia]. cbn [negb].
  rewrite list_lookup_insert_eq by lia. cbn [block_size Nat.eqb negb].
  rewrite list_insert_insert_eq, (list_insert_id _ _ _ He).
  unfold set_coremap. cbn. by destruct s.
Qed.

(** *** Runs of free frames *)

Lemma run_ok_free_run s i n :
  wf s -> (run_ok s i n = true <-> free_run (coremap s) i n).
Proof.
  intros [Hb Hl]. split.
  - intros H j Hj. destruct (run_ok_spec _ _ _ H j Hj) as (e & He & Hf).
    by rewrite He, (blocks_free_entry _ _ _ Hb He Hf).
  - intros H. unfold run_ok. apply forallb_forall. intros j Hj.
    apply in_seq in Hj. pose proof (H j ltac:(lia)) as Hj'.
    rewrite Hj'. cbn. apply lookup_lt_Some in Hj'. rewrite Hl in Hj'.
    destruct (Nat.leb_spec (total_pages s) (i + j)); [lia|done].
Qed.

Lemma find_run_some s npages i n k :
  0 < npages ->
  find_run s npages i n = Some k ->
  i <= k < i + n /\ run_ok s k npages = true /\
  (forall j, i <= j < k -> run_ok s j npages = false).
Proof.
  intros Hn. revert i. induction n as [|n IH]; intros i; simpl; [done|].
  assert (from_option free false (coremap s !! i) = false ->
          run_ok s i npages = false) as Hnot.
  { intros Hf. unfold run_ok. destruct npages as [|m]; [lia|].
    simpl. rewrite Nat.add_0_r, Hf. by rewrite orb_true_r. }
  destruct (from_option free false (coremap s !! i)) eqn:F; cbn [negb].
  - destruct (run_ok s i npages) eqn:R.
    + intros [= <-]. split_and!; [lia..|done|]. intros j Hj. lia.
    + intros H. destruct (IH _ H) as (Hk & Hrun & Hlow).
      split_and!; [lia..|done|].
      intros j Hj. destruct (decide (j = i)) as [->|]; [done|]. apply Hlow. lia.
  - intros H. destruct (IH _ H) as (Hk & Hrun & Hlow).
    split_and!; [lia..|done|].
    intros j Hj. destruct (decide (j = i)) as [->|]; [by apply Hnot|].
    apply Hlow. lia.
Qed.

Lemma find_run_none s npages i n :
  0 < npages ->
  find_run s npages i n = None ->
  forall j, i <= j < i + n -> run_ok s j npages = false.
Proof.
  intros Hn. revert i. induction n as [|n IH]; intros i; simpl; [intros; lia|].
  assert (from_option free false (coremap s !! i) = false ->
          run_ok s i npages = false) as Hnot.
  { intros Hf. unfold run_ok. destruct npages as [|m]; [lia|].
    simpl. rewrite Nat.add_0_r, Hf. by rewrite orb_true_r. }
  destruct (from_option free false (coremap s !! i)) eqn:F; cbn [negb].
  - destruct (run_ok s i npages) eqn:R; [done|].
    intros H j Hj. destruct (decide (j = i)) as [->|]; [done|].
    apply (IH _ H). lia.
  - intros H j Hj. destruct (decide (j = i)) as [->|]; [by apply Hnot|].
    apply (IH _ H). lia.
Qed.

Lemma free_run_in_map s i n :
  wf s -> 0 < n -> free_run (coremap s) i n -> i + n <= total_pages s.
Proof.
  intros [_ Hl] Hn H. specialize (H (n - 1) ltac:(lia)).
  apply lookup_lt_Some in H. lia.
Qed.

(** [alloc_kpages] is first fit.  On a bootstrapped, well-shaped map and
    for at least one page: with no run of [npages] free frames it returns
    0 and changes nothing; otherwise it takes the run with the lowest
    start, whose first frame becomes the head (recording [npages]) and
    whose other frames become interior frames; frames outside the run are
    untouched and [npages] more frames are in use. *)
Theorem alloc_kpages_first_fit steal npages s :
  coremap_ready s = true -> wf s -> 0 < npages ->
  ((forall i, ~ free_run (coremap s) i npages) ->
   alloc_kpages steal npages s = (0%Z, s)) /\
  (forall i0, free_run (coremap s) i0 npages ->
   exists i s',
     i <= i0 /\
     free_run (coremap s) i npages /\
     (forall j, j < i -> ~ free_run (coremap s) j npages) /\
     alloc_kpages steal npages s = (PADDR_TO_KVADDR (frame_paddr s i), s') /\
     is_head (coremap s') i npages /\
     (forall j, 0 < j < npages ->
                coremap s' !! (i + j) = Some (Entry false 0)) /\
     (forall j, ~ (i <= j < i + npages) ->
                coremap s' !! j = coremap s !! j) /\
     used_frames (coremap s') = used_frames (coremap s) + npages).
Proof.
  intros Hready Hwf Hn. pose proof Hwf as [Hb Hl].
  unfold alloc_kpages. rewrite Hready. cbn [negb]. split.
  - intros Hnone.
    destruct (find_run _ _ _ _) as [k|] eqn:E; [|done].
    apply find_run_some in E as (_ & Hrun & _); [|done].
    apply run_ok_free_run in Hrun; [|done]. by destruct (Hnone k).
  - intros i0 Hi0.
    pose proof (free_run_in_map _ _ _ Hwf Hn Hi0) as Hin.
    destruct (find_run _ _ _ _) as [k|] eqn:E.
    2:{ pose proof (find_run_none _ _ _ _ Hn E i0 ltac:(lia)) as Hno.
        apply (run_ok_free_run _ _ _ Hwf) in Hi0. congruence. }
    apply find_run_some in E as (Hk & Hrun & Hlow); [|done].
    pose proof (proj1 (run_ok_free_run _ _ _ Hwf) Hrun) as Hfree.
    destruct npages as [|m]; [lia|].
    destruct (blocks_split_run (coremap s) k m Hb) as (l1 & l2 & Hcm & Hlen & H1 & H2).
    { intros j Hj. exists (Entry true 0). split; [by apply Hfree|done]. }
    assert (fill (<[k := Entry false (S m)]> (coremap s)) (k + 1) (S m - 1)
                 (Entry false 0)
            = l1 ++ Entry false (S m) :: replicate m (Entry false 0) ++ l2)
      as Hs'.
    { rewrite <- Hlen, Hcm. apply alloc_block_shape. }
    eexists k, _. split_and!; try done.
    + destruct (decide (k <= i0)); [done|].
      apply (run_ok_free_run _ _ _ Hwf) in Hi0.
      rewrite Hlow in Hi0 by lia. done.
    + intros j Hj Hf. apply (run_ok_free_run _ _ _ Hwf) in Hf.
      rewrite Hlow in Hf by lia. done.
    + cbn [coremap set_coremap]. split; [lia|]. rewrite Hs', <- Hlen.
      rewrite lookup_app_r by lia. by rewrite Nat.sub_diag.
    + intros j Hj. cbn [coremap set_coremap]. rewrite Hs', <- Hlen.
      rewrite lookup_app_r by lia.
      replace (length l1 + j - length l1) with j by lia.
      rewrite lookup_cons_ne_0 by lia.
      rewrite lookup_app_l by (rewrite length_replicate; lia).
      apply lookup_replicate. split; [done|lia].
    + intros j Hj. cbn [coremap set_coremap]. rewrite Hs', Hcm.
      rewrite <- Hlen in Hj.
      destruct (decide (j < length l1)) as [Hlt|Hge].
      * by rewrite !lookup_app_l by done.
      * assert (exists d, j = length l1 + S m + d) as [d ->]
          by (exists (j - length l1 - S m); lia).
        pose proof (lookup_past_segment l1
          (Entry false (S m) :: replicate m (Entry false 0)) l2 d) as Ha.
        pose proof (lookup_past_segment l1 (replicate (S m) (Entry true 0)) l2 d)
          as Hb'.
        simpl in Ha, Hb'. rewrite length_replicate in Ha, Hb'.
        simpl. by rewrite Ha, Hb'.
    + cbn [coremap set_coremap]. rewrite Hs', Hcm.
      rewrite !used_app, used_cons, !used_app, used_replicate_interior,
        used_replicate_free. simpl. lia.
Qed.

(** Allocating a block and freeing it again gives the map back. *)
Theorem alloc_kpages_free_kpages steal npages s kva s' :
  coremap_ready s = true -> wf s -> addressable s -> 0 < npages ->
  alloc_kpages steal npages s = (kva, s') -> kva <> 0%Z ->
  free_kpages kva s' = Ret s.
Proof.
  intros Hready Hwf Ha Hn. pose proof Hwf as [Hb Hl].
  unfold alloc_kpages. rewrite Hready. cbn [negb].
  destruct (find_run _ _ _ _) as [k|] eqn:E; [|by intros [= <- <-]].
  apply find_run_some in E as (Hk & Hrun & _); [|done].
  pose proof (proj1 (run_ok_free_run _ _ _ Hwf) Hrun) as Hfree.
  destruct npages as [|m]; [lia|].
  destruct (blocks_split_run (coremap s) k m Hb) as (l1 & l2 & Hcm & Hlen & H1 & H2).
  { intros j Hj. exists (Entry true 0). split; [by apply Hfree|done]. }
  intros [= <- <-] _.
  destruct (frame_paddr_exact s k Ha) as [_ Hpa]; [lia|].
  destruct (frame_index s k Ha) as [Hge Hidx]; [lia|].
  unfold free_kpages.
  cbn [coremap_ready set_coremap first_paddr total_pages coremap].
  rewrite Hready, (kvaddr_paddr _ Hpa), Hge, Hidx. cbn [negb].
  destruct (Nat.ltb_spec k (total_pages s)); [|lia]. cbn [negb].
  assert (fill (<[k := Entry false (S m)]> (coremap s)) (k + 1) (S m - 1)
               (Entry false 0)
          = l1 ++ Entry false (S m) :: replicate m (Entry false 0) ++ l2)
    as Hs'.
  { rewrite <- Hlen, Hcm. apply alloc_block_shape. }
  change (S m - 1) with (m - 0) in Hs'.
  rewrite !Hs', <- Hlen.
  rewrite lookup_app_r by lia. rewrite Nat.sub_diag.
  cbn [lookup list_lookup block_size Nat.ltb Nat.leb negb].
  rewrite free_block_shape, <- Hcm. unfold set_coremap. cbn. by destruct s.
Qed.

(** *** Freeing twice *)

(** A page that was just freed cannot be freed again: the second
    [free_page] finds [block_size == 0] and stops in its assertion. *)
Theorem free_page_twice pa s s' :
  coremap_ready s = true -> (first_paddr s <= pa)%Z ->
  free_page pa s = Ret s' -> free_page pa s' = Panic.
Proof.
  intros Hready Hpa. unfold free_page. rewrite Hready. cbn [negb].
  destruct (Z.ltb_spec pa (first_paddr s)); [lia|].
  destruct (Nat.ltb_spec (Z.to_nat (u32 (pa - first_paddr s) / PAGE_SIZE))
              (total_pages s)); cbn [negb]; [|done].
  destruct (coremap s !! _) as [e|] eqn:He; [|done].
  destruct (block_size e =? 1); cbn [negb]; [|done].
  intros [= <-]. cbn [coremap_ready set_coremap first_paddr total_pages coremap].
  rewrite Hready. cbn [negb].
  destruct (Z.ltb_spec pa (first_paddr s)); [lia|].
  destruct (Nat.ltb_spec (Z.to_nat (u32 (pa - first_paddr s) / PAGE_SIZE))
              (total_pages s)); [|lia]. cbn [negb].
  rewrite list_lookup_insert_eq by (by eapply lookup_lt_Some). done.
Qed.

Lemma fill_lookup_below cm i n e j :
  j < i -> fill cm i n e !! j = cm !! j.
Proof.
  revert cm i. induction n as [|n IH]; intros cm i Hj; [done|].
  cbn [fill]. rewrite IH by lia. apply list_lookup_insert_ne. lia.
Qed.

Lemma fill_lookup_in cm i n e j :
  i <= j < i + n -> j < length cm -> fill cm i n e !! j = Some e.
Proof.
  revert cm i. induction n as [|n IH]; intros cm i Hj Hlen; [lia|].
  cbn [fill]. destruct (decide (j = i)) as [->|].
  - rewrite fill_lookup_below by lia. by apply list_lookup_insert_eq.
  - apply IH; [lia|by rewrite length_insert].
Qed.

(** A block that was just freed cannot be freed again: the second
    [free_kpages] reads [block_size == 0] at the head and stops in its
    assertion. *)
Theorem free_kpages_twice kva s s' :
  coremap_ready s = true -> (first_paddr s <= KVADDR_TO_PADDR kva)%Z ->
  free_kpages kva s = Ret s' -> free_kpages kva s' = Panic.
Proof.
  intros Hready Hpa. unfold free_kpages. rewrite Hready. cbn [negb].
  destruct (Z.ltb_spec (KVADDR_TO_PADDR kva) (first_paddr s)); [lia|].
  set (index := Z.to_nat (u32 (KVADDR_TO_PADDR kva - first_paddr s) / PAGE_SIZE)).
  destruct (Nat.ltb_spec index (total_pages s)); cbn [negb]; [|done].
  destruct (coremap s !! index) as [e|] eqn:He; [|done].
  destruct (Nat.ltb_spec 0 (block_size e)); cbn [negb]; [|done].
  intros [= <-]. cbn [coremap_ready set_coremap first_paddr total_pages coremap].
  rewrite Hready. cbn [negb].
  destruct (Z.ltb_spec (KVADDR_TO_PADDR kva) (first_paddr s)); [lia|].
  fold index.
  destruct (Nat.ltb_spec index (total_pages s)); [|lia]. cbn [negb].
  rewrite fill_lookup_in; [done|lia|by eapply lookup_lt_Some].
Qed.

(** *** [vm_bootstrap] *)

(** [vm_bootstrap] on a machine whose free RAM [lo0, hi0) lies in the
    32-bit address space.  The map is ready and well shaped with every
    frame free; the array of [total_pages] entries, placed at the
    page-aligned start of free RAM, ends at or below the first managed
    frame; and the managed frames end at or below the end of RAM. *)
Theorem vm_bootstrap_layout hi0 lo0 :
  (0 <= lo0)%Z -> (lo0 + PAGE_SIZE <= hi0)%Z -> (hi0 < 2 ^ 32)%Z ->
  let s := vm_bootstrap hi0 lo0 in
  let lo := ((lo0 + PAGE_SIZE - 1) / PAGE_SIZE * PAGE_SIZE)%Z in
  coremap_ready s = true /\ wf s /\ addressable s /\
    used_frames (coremap s) = 0 /\
    (lo0 <= lo)%Z /\
    (lo + Z.of_nat (total_pages s) * sizeof_coremap_entry <= first_paddr s)%Z /\
    (first_paddr s + Z.of_nat (total_pages s) * PAGE_SIZE <= hi0)%Z /\
    (first_paddr s mod PAGE_SIZE = 0)%Z.
Proof.
  intros H0 H1 H2 s lo.
  assert (wf s) as Hwf.
  { subst s. unfold wf, vm_bootstrap. cbn [coremap total_pages].
    split; [apply blocks_replicate_free|apply length_replicate]. }
  assert (used_frames (coremap s) = 0) as Hused.
  { subst s. unfold vm_bootstrap. cbn [coremap]. apply used_replicate_free. }
  assert (exists n c : Z,
            (0 <= c <= n /\ n * 8 <= c * 4096 /\ lo0 <= lo /\ lo mod 4096 = 0 /\
             lo + n * 4096 <= hi0 /\ hi0 < 2 ^ 32 /\
             first_paddr s = lo + c * 4096 /\
             Z.of_nat (total_pages s) = n - c)%Z) as (n & c & Hex).
  { subst s lo. unfold vm_bootstrap. cbn [first_paddr total_pages].
    unfold u32, PAGE_SIZE, sizeof_coremap_entry in *.
    set (hi := (hi0 / 4096 * 4096)%Z).
    set (lo := ((lo0 + 4096 - 1) / 4096 * 4096)%Z).
    assert (lo0 <= lo < lo0 + 4096 /\ lo mod 4096 = 0)%Z as [Hlo Hlom].
    { subst lo; split; [|apply Z.mod_mul; lia].
      pose proof (Z.div_mod (lo0 + 4096 - 1) 4096 ltac:(lia)).
      pose proof (Z.mod_pos_bound (lo0 + 4096 - 1) 4096 ltac:(lia)). lia. }
    assert (hi0 - 4096 < hi <= hi0 /\ hi mod 4096 = 0)%Z as [Hhi Hhim].
    { subst hi; split; [|apply Z.mod_mul; lia].
      pose proof (Z.div_mod hi0 4096 ltac:(lia)).
      pose proof (Z.mod_pos_bound hi0 4096 ltac:(lia)). lia. }
    assert (lo <= hi)%Z as Hle.
    { pose proof Hlom as Ha. pose proof Hhim as Hb.
      apply Z.mod_divide in Ha, Hb; [|lia..].
      destruct Ha as [a Ha], Hb as [b Hb]. lia. }
    clearbody lo hi.
    rewrite (Z.mod_small lo (2 ^ 32)) by lia.
    rewrite (Z.mod_small (hi - lo) (2 ^ 32)) by lia.
    set (n := ((hi - lo) / 4096)%Z).
    assert (hi - lo = n * 4096)%Z as Hn.
    { subst n. pose proof Hlom as Ha. pose proof Hhim as Hb.
      apply Z.mod_divide in Ha, Hb; [|lia..].
      destruct Ha as [a Ha], Hb as [b Hb].
      replace (hi - lo)%Z with ((b - a) * 4096)%Z by lia.
      by rewrite Z.div_mul by lia. }
    assert (0 <= n < 2 ^ 20)%Z as Hnb by lia.
    rewrite (Z.mod_small (n * 8) (2 ^ 32)) by lia.
    rewrite (Z.mod_small (n * 8 + 4096 - 1) (2 ^ 32)) by lia.
    set (c := ((n * 8 + 4096 - 1) / 4096)%Z).
    assert (n * 8 <= c * 4096 /\ 0 <= c <= n)%Z as [Hc1 Hc2].
    { subst c. split_and!.
      - pose proof (Z.div_mod (n * 8 + 4096 - 1) 4096 ltac:(lia)).
        pose proof (Z.mod_pos_bound (n * 8 + 4096 - 1) 4096 ltac:(lia)). lia.
      - apply Z.div_pos; lia.
      - apply Z.lt_succ_r, Z.div_lt_upper_bound; lia. }
    rewrite (Z.mod_small (lo + c * 4096) (2 ^ 32)) by lia.
    rewrite (Z.mod_small (hi - (lo + c * 4096)) (2 ^ 32)) by lia.
    replace (hi - (lo + c * 4096))%Z with ((n - c) * 4096)%Z by lia.
    rewrite Z.div_mul by lia. rewrite Z2Nat.id by lia.
    exists n, c. split_and!; try done; lia. }
  destruct Hex as (Hc & Hnc & Hlo & Hlom & Hhi & Hhi0 & Hfirst & Htotal).
  unfold addressable. rewrite Hfirst.
  unfold PAGE_SIZE, sizeof_coremap_entry in *. fold lo.
  split_and!; try done; try lia.
  rewrite Z.add_mod, Hlom, Z.mod_mul by lia. done.
Qed.

End Generic.

Section Runs.
Local Existing Instance os161.

Lemma small_ram_wf : wf small_ram.
Proof. apply wf_vm_bootstrap. Qed.

Lemma small_ram_addressable : addressable small_ram.
Proof. by vm_compute. Qed.


Lemma alloc_page_free_page_witness :
  free_page 0x2000 (snd (alloc_page 0 small_ram)) = Ret small_ram.
Proof.
  apply (alloc_page_free_page 0 small_ram 0x2000 _ eq_refl small_ram_wf
           small_ram_addressable); [reflexivity|lia].
Defined.

Lemma alloc_kpages_first_fit_witness :
  exists i s',
    i <= 1 /\
    free_run (coremap small_ram) i 3 /\
    (forall j, j < i -> ~ free_run (coremap small_ram) j 3) /\
    alloc_kpages 0 3 small_ram = (PADDR_TO_KVADDR (frame_paddr small_ram i), s') /\
    is_head (coremap s') i 3 /\
    (forall j, 0 < j < 3 -> coremap s' !! (i + j) = Some (Entry false 0)) /\
    (forall j, ~ (i <= j < i + 3) -> coremap s' !! j = coremap small_ram !! j) /\
    used_frames (coremap s') = used_frames (coremap small_ram) + 3.
Proof.
  apply (proj2 (alloc_kpages_first_fit 0 3 small_ram eq_refl small_ram_wf
                  ltac:(lia)) 1).
  intros [|[|[|j]]] Hj; [reflexivity..|lia].
Defined.

Lemma alloc_kpages_free_kpages_witness :
  free_kpages 0x80002000 (snd (alloc_kpages 0 3 small_ram)) = Ret small_ram.
Proof.
  apply (alloc_kpages_free_kpages 0 3 small_ram 0x80002000 _ eq_refl
           small_ram_wf small_ram_addressable); [lia|reflexivity|lia].
Defined.

Lemma free_page_twice_witness :
  free_page 0x2000 small_ram = Panic /\
  free_page 0x2000 (snd (alloc_page 0 small_ram)) = Ret small_ram.
Proof.
  split; [|reflexivity].
  apply (free_page_twice 0x2000 (snd (alloc_page 0 small_ram)) small_ram);
    [reflexivity|vm_compute; discriminate|reflexivity].
Defined.

Lemma free_kpages_twice_witness :
  free_kpages 0x80002000 small_ram = Panic /\
  free_kpages 0x80002000 (snd (alloc_kpages 0 3 small_ram)) = Ret small_ram.
Proof.
  split; [|reflexivity].
  apply (free_kpages_twice 0x80002000 (snd (alloc_kpages 0 3 small_ram))
           small_ram); [reflexivity|vm_compute; discriminate|reflexivity].
Defined.

Lemma vm_bootstrap_layout_witness :
  wf small_ram /\ addressable small_ram /\
  first_paddr small_ram = 0x2000%Z /\ total_pages small_ram = 4.
Proof.
  pose proof (vm_bootstrap_layout 0x6000 0x1000 ltac:(lia)
                ltac:(unfold PAGE_SIZE; lia) ltac:(lia)) as H.
  cbv zeta in H. destruct H as (_ & Hwf & Ha & _).
  split_and!; [exact Hwf|exact Ha|reflexivity..].
Defined.

End Runs.
End CoremapLaws.

(* ------------------------------------------------------------------ *)
(** ** More on address spaces and page faults *)

Module VMLaws.
Import VM.

Section Generic.
Context {hdr : headers}.

(** *** Page arithmetic *)

(** [x & PAGE_FRAME] keeps bits 12 to 31. *)
Lemma land_PAGE_FRAME x :
  Z.land x PAGE_FRAME = ((x / 2 ^ 12) mod 2 ^ 20 * 2 ^ 12)%Z.
Proof.
  rewrite <- Z.shiftr_div_pow2, <- Z.land_ones, <- Z.shiftl_mul_pow2 by lia.
  change PAGE_FRAME with (Z.shiftl (Z.ones 20) 12).
  apply Z.bits_inj'. intros n Hn.
  destruct (Z.lt_ge_cases n 12).
  - rewrite Z.land_spec, !Z.shiftl_spec_low by lia. apply andb_false_r.
  - rewrite Z.land_spec, !Z.shiftl_spec, Z.land_spec, Z.shiftr_spec by lia.
    by replace (n - 12 + 12)%Z with n by lia.
Qed.

Lemma page_bounds x :
  (0 <= Z.land x PAGE_FRAME < 2 ^ 32 /\ Z.land x PAGE_FRAME mod 4096 = 0)%Z.
Proof.
  rewrite land_PAGE_FRAME.
  pose proof (Z.mod_pos_bound (x / 2 ^ 12) (2 ^ 20) ltac:(lia)).
  split; [lia|]. apply Z.mod_mul. lia.
Qed.

Lemma page_of_u32 x :
  (0 <= x < 2 ^ 32)%Z -> Z.land x PAGE_FRAME = (x - x mod 4096)%Z.
Proof.
  intros Hx. rewrite land_PAGE_FRAME.
  change (2 ^ 12)%Z with 4096%Z.
  rewrite Z.mod_small.
  - pose proof (Z.div_mod x 4096 ltac:(lia)). lia.
  - split; [apply Z.div_pos; lia|].
    apply Z.div_lt_upper_bound; lia.
Qed.

Lemma land_page_offset x :
  Z.land x (Z.lxor PAGE_FRAME 0xffffffff) = (x mod 4096)%Z.
Proof.
  change (Z.lxor PAGE_FRAME 0xffffffff) with (Z.ones 12).
  by rewrite Z.land_ones by lia.
Qed.

(** A page address is its two table indices side by side. *)
Lemma page_indices x :
  let page := Z.land x PAGE_FRAME in
  l1_index page < PT_L1_SIZE /\ l2_index page < PT_L2_SIZE /\
  page = ((Z.of_nat (l1_index page) * 1024 + Z.of_nat (l2_index page)) * 4096)%Z.
Proof.
  intros page. subst page. rewrite land_PAGE_FRAME.
  set (q := ((x / 2 ^ 12) mod 2 ^ 20)%Z).
  assert (0 <= q < 2 ^ 20)%Z as Hq by (apply Z.mod_pos_bound; lia).
  unfold l1_index, l2_index, PT_L1_SHIFT, PT_L2_SHIFT, PT_INDEX_MASK,
    PT_L1_SIZE, PT_L2_SIZE.
  change 0x3ff%Z with (Z.ones 10).
  rewrite !Z.land_ones, !Z.shiftr_div_pow2 by lia.
  change (2 ^ 22)%Z with (2 ^ 12 * 2 ^ 10)%Z.
  rewrite <- Z.div_div by lia. rewrite !Z.div_mul by lia.
  rewrite (Z.mod_small (q / 2 ^ 10)).
  2:{ split; [apply Z.div_pos; lia|apply Z.div_lt_upper_bound; lia]. }
  pose proof (Z.mod_pos_bound q (2 ^ 10) ltac:(lia)).
  pose proof (Z.div_mod q (2 ^ 10) ltac:(lia)).
  assert (0 <= q / 2 ^ 10 < 2 ^ 10)%Z
    by (split; [apply Z.div_pos; lia|apply Z.div_lt_upper_bound; lia]).
  split_and!; [lia..|]. rewrite !Z2Nat.id by lia. lia.
Qed.

(** Two pages with the same pair of indices are the same page. *)
Lemma page_indices_inj x y :
  l1_index (Z.land x PAGE_FRAME) = l1_index (Z.land y PAGE_FRAME) ->
  l2_index (Z.land x PAGE_FRAME) = l2_index (Z.land y PAGE_FRAME) ->
  Z.land x PAGE_FRAME = Z.land y PAGE_FRAME.
Proof.
  intros H1 H2.
  pose proof (page_indices x) as (_ & _ & Hx).
  pose proof (page_indices y) as (_ & _ & Hy).
  congruence.
Qed.

(** *** [as_define_region] *)

(** What [as_define_region] computes for a segment that ends a page
    below the top of the address space: the base rounded down, the end
    rounded up, both without wrap-around. *)
Lemma as_define_region_exact a vaddr sz r w x :
  (0 <= vaddr)%Z -> (0 <= sz)%Z -> (vaddr + sz + PAGE_SIZE <= 2 ^ 32)%Z ->
  exists vb np,
    (vb = vaddr - vaddr mod 4096 /\ 0 <= np /\
     vaddr + sz <= vb + np * 4096 < vaddr + sz + 4096)%Z /\
    as_define_region true a vaddr sz r w x =
      Ok {| regions := Region vb np r w x :: regions a;
            pt_l1 := pt_l1 a;
            heap_base := if (heap_base a =? 0)%Z
                            || (heap_base a <? vb + np * 4096)%Z
                         then (vb + np * 4096)%Z else heap_base a;
            heap_end := if (heap_base a =? 0)%Z
                           || (heap_base a <? vb + np * 4096)%Z
                        then (vb + np * 4096)%Z else heap_end a;
            stack_base := stack_base a; stack_end := stack_end a;
            loading := loading a |}.
Proof.
  unfold PAGE_SIZE. intros Hv Hs Htop.
  pose proof (Z.mod_pos_bound vaddr 4096 ltac:(lia)) as Ho.
  pose proof (Z.mod_le vaddr 4096 ltac:(lia) ltac:(lia)) as Ho'.
  set (o := (vaddr mod 4096)%Z) in *.
  pose proof (Z.mod_pos_bound (sz + o + 4096 - 1) 4096 ltac:(lia)) as Hm.
  pose proof (Z.div_mod (sz + o + 4096 - 1) 4096 ltac:(lia)) as Hd.
  set (m := ((sz + o + 4096 - 1) mod 4096)%Z) in *.
  set (np := ((sz + o + 4096 - 1) / 4096)%Z) in *.
  exists (vaddr - o)%Z, np. split; [split_and!; lia|].
  unfold as_define_region. cbn [negb].
  rewrite land_page_offset, page_of_u32 by lia. fold o.
  unfold u32, PAGE_SIZE.
  rewrite (Z.mod_small (sz + o) (2 ^ 32)) by lia.
  rewrite (Z.mod_small (sz + o + 4096 - 1) (2 ^ 32)) by lia.
  rewrite page_of_u32 by lia. fold m.
  replace (sz + o + 4096 - 1 - m)%Z with (np * 4096)%Z by lia.
  rewrite Z.div_mul by lia.
  rewrite (Z.mod_small (vaddr - o + np * 4096) (2 ^ 32)) by lia.
  done.
Qed.

(** [as_define_region] covers the segment it is given.  For a segment
    [vaddr, vaddr + sz) that ends a page below the top of the address
    space, the region put at the head of the list starts at the page of
    [vaddr], ends at the first page boundary at or above [vaddr + sz],
    carries the three permission flags, and every address of the segment
    passes the region test of [vm_fault]. *)
Theorem as_define_region_covers a vaddr sz r w x :
  (0 <= vaddr)%Z -> (0 <= sz)%Z -> (vaddr + sz + PAGE_SIZE <= 2 ^ 32)%Z ->
  exists a' reg,
    as_define_region true a vaddr sz r w x = Ok a' /\
    regions a' = reg :: regions a /\
    region_ok reg /\
    (vbase reg mod PAGE_SIZE = 0)%Z /\
    (vbase reg <= vaddr < vbase reg + PAGE_SIZE)%Z /\
    (vaddr + sz <= region_end reg < vaddr + sz + PAGE_SIZE)%Z /\
    (region_end reg mod PAGE_SIZE = 0)%Z /\
    readable reg = r /\ writeable reg = w /\ executable reg = x /\
    (forall addr, (vaddr <= addr < vaddr + sz)%Z ->
       find_region (regions a') (Z.land addr PAGE_FRAME) = Some reg).
Proof.
  intros Hv Hs Htop.
  destruct (as_define_region_exact a vaddr sz r w x Hv Hs Htop)
    as (vb & np & (Hvb & Hnp & Hend) & Hrun).
  unfold PAGE_SIZE in *.
  pose proof (Z.mod_pos_bound vaddr 4096 ltac:(lia)) as Ho.
  pose proof (Z.div_mod vaddr 4096 ltac:(lia)) as Hdv.
  assert (vb mod 4096 = 0)%Z as Hal.
  { replace vb with (vaddr / 4096 * 4096)%Z by lia. apply Z.mod_mul. lia. }
  eexists _, (Region vb np r w x). split; [exact Hrun|].
  cbn [regions vbase npages readable writeable executable].
  unfold region_ok, region_end, PAGE_SIZE.
  cbn [vbase npages].
  split_and!; try done; try lia.
  - rewrite Z.add_mod, Hal, Z.mod_mul by lia. done.
  - intros addr Haddr. cbn [find_region].
    replace (region_contains _ _) with true; [done|]. symmetry.
    unfold region_contains, u32, PAGE_SIZE. cbn [vbase npages].
    rewrite (Z.mod_small (vb + np * 4096) (2 ^ 32)) by lia.
    rewrite page_of_u32 by lia.
    pose proof (Z.mod_pos_bound addr 4096 ltac:(lia)).
    apply andb_true_iff. split; [apply Z.leb_le|apply Z.ltb_lt; lia].
    pose proof (Z.div_mod addr 4096 ltac:(lia)).
    assert (vaddr / 4096 <= addr / 4096)%Z by (apply Z.div_le_mono; lia).
    lia.
Qed.

(** The invariant [as_define_region] keeps on the way from [as_create] to
    a loaded program: the heap is empty and begins at or above the end of
    every region defined so far; after the call it begins at the larger
    of its old base and the end of the new region. *)
Theorem as_define_region_heap a vaddr sz r w x :
  heap_above_regions a -> (0 <= heap_base a)%Z ->
  (0 <= vaddr)%Z -> (0 <= sz)%Z -> (vaddr + sz + PAGE_SIZE <= 2 ^ 32)%Z ->
  heap_above_regions as_create /\
  exists a' reg,
    as_define_region true a vaddr sz r w x = Ok a' /\
    regions a' = reg :: regions a /\
    heap_above_regions a' /\
    heap_base a' = Z.max (heap_base a) (region_end reg) /\
    stack_base a' = stack_base a /\ stack_end a' = stack_end a /\
    loading a' = loading a /\ pt_l1 a' = pt_l1 a.
Proof.
  intros [Hempty Hregs] Hhb Hv Hs Htop.
  split; [split; [done|constructor]|].
  destruct (as_define_region_exact a vaddr sz r w x Hv Hs Htop)
    as (vb & np & (Hvb & Hnp & Hend) & Hrun).
  pose proof (Z.mod_pos_bound vaddr 4096 ltac:(lia)) as Ho.
  pose proof (Z.mod_le vaddr 4096 ltac:(lia) ltac:(lia)) as Ho'.
  eexists _, (Region vb np r w x). split; [exact Hrun|].
  cbn [regions heap_base heap_end stack_base stack_end pt_l1 loading].
  assert (region_end (Region vb np r w x) = vb + np * 4096)%Z as Hre by done.
  rewrite Hre.
  assert ((if (heap_base a =? 0)%Z || (heap_base a <? vb + np * 4096)%Z
           then (vb + np * 4096)%Z else heap_base a)
          = Z.max (heap_base a) (vb + np * 4096)) as Hmax.
  { destruct (Z.eqb_spec (heap_base a) 0); cbn [orb]; [lia|].
    destruct (Z.ltb_spec (heap_base a) (vb + np * 4096)); lia. }
  split_and!; try done.
  - split; cbn [regions heap_base heap_end].
    + rewrite Hempty. done.
    + rewrite Hmax. constructor.
      * split; [unfold region_ok; cbn; lia|]. rewrite Hre. lia.
      * eapply Forall_impl; [exact Hregs|]. cbn. intros r0 [? ?].
        split; [done|lia].
Qed.

(** *** [vm_fault] on a legal address *)

Lemma classify_same_layout a a' va :
  same_layout a a' -> classify a' va = classify a va.
Proof.
  intros (Hr & Hb & He & Hsb & Hse & Hl).
  unfold classify, in_heap, in_stack. by rewrite Hr, Hb, He, Hsb, Hse, Hl.
Qed.

Lemma same_layout_refl a : same_layout a a.
Proof. by repeat split. Qed.

Lemma same_layout_set_pt a a' pt :
  same_layout a a' -> same_layout a (set_pt a' pt).
Proof. by intros (? & ? & ? & ? & ? & ?). Qed.

Lemma perm_ok faulttype w :
  (faulttype = VM_FAULT_READONLY -> w = true) ->
  (faulttype =? VM_FAULT_READONLY)%Z && negb w = false.
Proof.
  intros H. destruct (Z.eqb_spec faulttype VM_FAULT_READONLY); [|done].
  by rewrite H.
Qed.

(** The table [get_l2_table] returns is in place at index [l1]; the
    mappings are those of before, a fresh table holding zeros only. *)
Lemma get_l2_table_spec e a l1 t a1 :
  pt_ok a -> l1 < PT_L1_SIZE ->
  get_l2_table e a l1 = Some (t, a1) ->
  pt_l1 a1 !! l1 = Some (Some t) /\ length t = PT_L2_SIZE /\
  pt_ok a1 /\ same_layout a a1 /\
  (forall va, pt_lookup a1 va = pt_lookup a va) /\
  (a1 = a \/ t = replicate PT_L2_SIZE 0%Z).
Proof.
  intros [Hlen Htabs] Hl1. unfold get_l2_table.
  destruct (pt_l1 a !! l1) as [[t0|]|] eqn:E.
  - intros [= <- <-].
    split_and!;
      [done|by eapply Htabs|done|apply same_layout_refl|done|by left].
  - destruct (kmalloc_ok e); [|done]. cbv zeta.
    remember (replicate PT_L2_SIZE 0%Z) as zeros eqn:Hzeros.
    intros [= <- <-].
    assert (length zeros = PT_L2_SIZE) as Hzlen
      by (subst zeros; apply length_replicate).
    cbn [pt_l1 set_pt]. split_and!.
    + apply list_lookup_insert_eq. lia.
    + done.
    + split; cbn [pt_l1 set_pt]; [by rewrite length_insert|].
      intros i t0. destruct (decide (i = l1)) as [->|].
      * rewrite list_lookup_insert_eq by lia. by intros [= <-].
      * rewrite list_lookup_insert_ne by done. apply Htabs.
    + apply same_layout_set_pt, same_layout_refl.
    + intros va. unfold pt_lookup. cbn [pt_l1 set_pt].
      destruct (decide (l1_index va = l1)) as [->|].
      * rewrite list_lookup_insert_eq, E by lia.
        destruct (zeros !! l2_index va) as [z|] eqn:R; [|done].
        rewrite Hzeros in R. by apply lookup_replicate in R as [-> _].
      * by rewrite list_lookup_insert_ne.
    + by right.
  - apply lookup_ge_None in E. lia.
Qed.

(** A fault on a page that has a frame: no memory is asked for. *)
Lemma vm_fault_mapped e faulttype va k a w :
  cur_as k = Some a ->
  classify a (Z.land va PAGE_FRAME) = Some w ->
  (faulttype = VM_FAULT_READONLY -> w = true) ->
  pt_lookup a (Z.land va PAGE_FRAME) <> 0%Z ->
  vm_fault e faulttype va k =
    (None,
     {| cur_as := Some a;
        tlb := tlb_install e (Z.land va PAGE_FRAME)
                 (tlb_lo (pt_lookup a (Z.land va PAGE_FRAME)) w) (tlb k);
        cm := cm k |}).
Proof.
  intros Ha Hcl Hperm Hmap. unfold vm_fault.
  rewrite Ha, Hcl, (perm_ok _ _ Hperm).
  fold (l1_index (Z.land va PAGE_FRAME)) (l2_index (Z.land va PAGE_FRAME)).
  unfold pt_lookup in *. unfold get_l2_table.
  destruct (pt_l1 a !! l1_index (Z.land va PAGE_FRAME)) as [[t|]|]; [|done..].
  by destruct (Z.eqb_spec (default 0%Z (t !! l2_index (Z.land va PAGE_FRAME))) 0).
Qed.

(** The effect of a fault that is legal and can be given memory. *)
Lemma vm_fault_success e faulttype va k a w :
  cur_as k = Some a -> pt_ok a ->
  classify a (Z.land va PAGE_FRAME) = Some w ->
  (faulttype = VM_FAULT_READONLY -> w = true) ->
  out_of_memory e k a (Z.land va PAGE_FRAME) = false ->
  exists a' pa cm',
    vm_fault e faulttype va k =
      (None,
       {| cur_as := Some a';
          tlb := tlb_install e (Z.land va PAGE_FRAME) (tlb_lo pa w) (tlb k);
          cm := cm' |}) /\
    pa <> 0%Z /\ pt_lookup a' (Z.land va PAGE_FRAME) = pa /\
    pt_ok a' /\ same_layout a a' /\
    (forall va', Z.land va' PAGE_FRAME <> Z.land va PAGE_FRAME ->
       pt_lookup a' (Z.land va' PAGE_FRAME) =
       pt_lookup a (Z.land va' PAGE_FRAME)) /\
    (pt_lookup a (Z.land va PAGE_FRAME) <> 0%Z ->
       pa = pt_lookup a (Z.land va PAGE_FRAME) /\ a' = a /\ cm' = cm k) /\
    (pt_lookup a (Z.land va PAGE_FRAME) = 0%Z ->
       Coremap.alloc_page (steal e) (cm k) = (pa, cm')).
Proof.
  intros Ha Hpt Hcl Hperm Hoom.
  destruct (decide (pt_lookup a (Z.land va PAGE_FRAME) = 0%Z)) as [Hz|Hnz].
  2:{ exists a, (pt_lookup a (Z.land va PAGE_FRAME)), (cm k).
      split; [by apply vm_fault_mapped|].
      split_and!; done. }
  set (page := Z.land va PAGE_FRAME) in *.
  destruct (page_indices va) as (Hl1 & Hl2 & _). fold page in Hl1, Hl2.
  unfold vm_fault. fold page. rewrite Ha, Hcl, (perm_ok _ _ Hperm).
  fold (l1_index page) (l2_index page).
  unfold out_of_memory in Hoom.
  destruct (get_l2_table e a (l1_index page)) as [[t a1]|] eqn:Hg; [|done].
  destruct (get_l2_table_spec _ _ _ _ _ Hpt Hl1 Hg)
    as (Hlk & Hlen & Hpt1 & Hlay & Hsame & _).
  assert (default 0%Z (t !! l2_index page) = 0%Z) as Hdz.
  { transitivity (pt_lookup a1 page); [|by rewrite Hsame].
    unfold pt_lookup. by rewrite Hlk. }
  rewrite Hdz in *. cbn [andb] in Hoom.
  destruct (Coremap.alloc_page (steal e) (cm k)) as [pa cm'] eqn:Halloc.
  cbn [fst] in Hoom. change (0 =? 0)%Z with true. cbn match.
  destruct (Z.eqb_spec pa 0); [done|].
  destruct Hpt1 as [Hlen1 Htabs1].
  eexists _, pa, cm'. split; [reflexivity|]. split_and!; try done.
  - unfold pt_lookup. cbn [pt_l1 set_pt].
    rewrite list_lookup_insert_eq by lia.
    by rewrite list_lookup_insert_eq by lia.
  - split; cbn [pt_l1 set_pt]; [by rewrite length_insert|].
    intros i t0. destruct (decide (i = l1_index page)) as [->|].
    + rewrite list_lookup_insert_eq by lia. intros [= <-].
      by rewrite length_insert.
    + rewrite list_lookup_insert_ne by done. apply Htabs1.
  - intros va' Hne. rewrite <- Hsame. unfold pt_lookup. cbn [pt_l1 set_pt].
    destruct (decide (l1_index (Z.land va' PAGE_FRAME) = l1_index page))
      as [E1|N1].
    + rewrite E1, list_lookup_insert_eq, Hlk by lia.
      destruct (decide (l2_index (Z.land va' PAGE_FRAME) = l2_index page))
        as [E2|N2].
      * destruct Hne. by apply page_indices_inj.
      * by rewrite list_lookup_insert_ne.
    + by rewrite list_lookup_insert_ne.
Qed.

(** A fault that returns 0 was legal and found memory. *)
Lemma vm_fault_success_inv e faulttype va k a k' :
  cur_as k = Some a ->
  vm_fault e faulttype va k = (None, k') ->
  exists w,
    classify a (Z.land va PAGE_FRAME) = Some w /\
    (faulttype = VM_FAULT_READONLY -> w = true) /\
    out_of_memory e k a (Z.land va PAGE_FRAME) = false.
Proof.
  intros Ha. unfold vm_fault, out_of_memory. rewrite Ha.
  destruct (classify a _) as [w|]; [|done].
  exists w. split; [done|].
  destruct (Z.eqb_spec faulttype VM_FAULT_READONLY) as [->|Hne].
  - destruct w; [|done]. cbn [negb andb] in *. split; [done|].
    fold (l1_index (Z.land va PAGE_FRAME)) (l2_index (Z.land va PAGE_FRAME)) in *.
    destruct (get_l2_table _ _ _) as [[t a1]|]; [|done].
    destruct (_ =? 0)%Z; [|done].
    destruct (Coremap.alloc_page _ _) as [pa cm']. cbn [fst andb].
    by destruct (pa =? 0)%Z.
  - cbn [andb] in *. split; [done|].
    fold (l1_index (Z.land va PAGE_FRAME)) (l2_index (Z.land va PAGE_FRAME)) in *.
    destruct (get_l2_table _ _ _) as [[t a1]|]; [|done].
    destruct (_ =? 0)%Z; [|done].
    destruct (Coremap.alloc_page _ _) as [pa cm']. cbn [fst andb].
    by destruct (pa =? 0)%Z.
Qed.

(** A legal fault that finds memory returns 0 and leaves the page mapped:
    the page table gives the page a frame other than 0, the frame it
    already had or else the one [alloc_page] returns; every other page
    keeps its entry; regions, heap and stack bounds and the loading flag
    are as before. *)
Theorem vm_fault_maps e faulttype va k a w :
  cur_as k = Some a -> pt_ok a ->
  classify a (Z.land va PAGE_FRAME) = Some w ->
  (faulttype = VM_FAULT_READONLY -> w = true) ->
  out_of_memory e k a (Z.land va PAGE_FRAME) = false ->
  exists a' pa cm',
    vm_fault e faulttype va k =
      (None,
       {| cur_as := Some a';
          tlb := tlb_install e (Z.land va PAGE_FRAME) (tlb_lo pa w) (tlb k);
          cm := cm' |}) /\
    pa <> 0%Z /\ pt_lookup a' (Z.land va PAGE_FRAME) = pa /\
    pt_ok a' /\ same_layout a a' /\
    (forall va', Z.land va' PAGE_FRAME <> Z.land va PAGE_FRAME ->
       pt_lookup a' (Z.land va' PAGE_FRAME) =
       pt_lookup a (Z.land va' PAGE_FRAME)) /\
    (pt_lookup a (Z.land va PAGE_FRAME) <> 0%Z ->
       pa = pt_lookup a (Z.land va PAGE_FRAME) /\ a' = a /\ cm' = cm k) /\
    (pt_lookup a (Z.land va PAGE_FRAME) = 0%Z ->
       Coremap.alloc_page (steal e) (cm k) = (pa, cm')).
Proof. apply vm_fault_success. Qed.

(** Once a fault on a page has returned 0, a fault of the same type on
    any address of that page returns 0 again whatever [kmalloc] and
    [alloc_page] would answer: it asks for no memory, and leaves the
    address space and the frame allocator as they are. *)
Theorem vm_fault_again e e' faulttype va va' k k1 a :
  cur_as k = Some a -> pt_ok a ->
  vm_fault e faulttype va k = (None, k1) ->
  Z.land va' PAGE_FRAME = Z.land va PAGE_FRAME ->
  exists k2,
    vm_fault e' faulttype va' k1 = (None, k2) /\
    cur_as k2 = cur_as k1 /\ cm k2 = cm k1.
Proof.
  intros Ha Hpt Hrun Hpage.
  destruct (vm_fault_success_inv _ _ _ _ _ _ Ha Hrun) as (w & Hcl & Hperm & Hoom).
  destruct (vm_fault_success _ _ _ _ _ _ Ha Hpt Hcl Hperm Hoom)
    as (a' & pa & cm' & Hrun' & Hpa & Hlk & _ & Hlay & _).
  rewrite Hrun in Hrun'. injection Hrun' as ->.
  eexists. split.
  - apply (vm_fault_mapped e' faulttype va' _ a' w); try done.
    + by rewrite Hpage, (classify_same_layout a a').
    + rewrite Hpage. congruence.
  - done.
Qed.

(** *** The TLB *)

Lemma tlb_free_slot_some t i0 i :
  tlb_free_slot t i0 = Some i ->
  exists j hi lo,
    i = i0 + j /\ t !! j = Some (hi, lo) /\
    Z.land lo TLBLO_VALID = 0%Z /\
    (forall j' hi' lo', j' < j -> t !! j' = Some (hi', lo') ->
       Z.land lo' TLBLO_VALID <> 0%Z).
Proof.
  revert i0. induction t as [|[hi lo] t IH]; intros i0; simpl; [done|].
  destruct (Z.eqb_spec (Z.land lo TLBLO_VALID) 0) as [Hz|Hnz].
  - intros [= <-]. exists 0, hi, lo. split_and!; [lia|done|done|].
    intros j' hi' lo' Hj'. lia.
  - intros H. destruct (IH _ H) as (j & hi1 & lo1 & -> & Hj & Hv & Hlow).
    exists (S j), hi1, lo1. split_and!; [lia|done|done|].
    intros [|j'] hi' lo' Hj'; simpl.
    + by intros [= <- <-].
    + apply Hlow. lia.
Qed.

Lemma tlb_free_slot_none t i0 :
  tlb_free_slot t i0 = None ->
  forall j hi lo, t !! j = Some (hi, lo) -> Z.land lo TLBLO_VALID <> 0%Z.
Proof.
  revert i0. induction t as [|[hi lo] t IH]; intros i0; simpl; [done|].
  destruct (Z.eqb_spec (Z.land lo TLBLO_VALID) 0) as [Hz|Hnz]; [done|].
  intros H [|j] hi' lo'; simpl; [by intros [= <- <-]|]. by eapply IH.
Qed.

(** The slot [tlb_install] writes. *)
Lemma tlb_install_slot e ehi elo t :
  0 < NUM_TLB -> length t = NUM_TLB ->
  exists i,
    i < NUM_TLB /\ tlb_install e ehi elo t = <[i := (ehi, elo)]> t /\
    ((exists hi lo, t !! i = Some (hi, lo) /\ Z.land lo TLBLO_VALID = 0%Z /\
        forall j hi' lo', j < i -> t !! j = Some (hi', lo') ->
          Z.land lo' TLBLO_VALID <> 0%Z) \/
     ((forall j hi lo, t !! j = Some (hi, lo) -> Z.land lo TLBLO_VALID <> 0%Z) /\
      i = Z.to_nat (rnd e mod Z.of_nat NUM_TLB))).
Proof.
  intros Hpos Hlen. unfold tlb_install.
  rewrite firstn_all2 by lia.
  destruct (tlb_free_slot t 0) as [i|] eqn:E.
  - destruct (tlb_free_slot_some _ _ _ E) as (j & hi & lo & -> & Hj & Hv & Hlow).
    exists (0 + j). split_and!; [|done|left; by exists hi, lo].
    apply lookup_lt_Some in Hj. simpl. lia.
  - eexists. split_and!; [|done|right; split; [|done]].
    + assert (0 < Z.of_nat NUM_TLB)%Z as Hz by lia.
      pose proof (Z.mod_pos_bound (rnd e) (Z.of_nat NUM_TLB) Hz) as Hm.
      revert Hm. generalize (rnd e mod Z.of_nat NUM_TLB)%Z. intros m Hm. lia.
    + by eapply tlb_free_slot_none.
Qed.

(** The TLB after a fault that returns 0.  Exactly one slot is written,
    with the page as [entryhi] and the page's frame, the valid bit and,
    for a writable page, the dirty bit as [entrylo]; it is the lowest
    slot whose valid bit was clear, and slot [random() % NUM_TLB] only
    when every slot was valid. *)
Theorem vm_fault_tlb e faulttype va k a k' :
  cur_as k = Some a -> pt_ok a ->
  0 < NUM_TLB -> length (tlb k) = NUM_TLB ->
  vm_fault e faulttype va k = (None, k') ->
  exists a' w i,
    cur_as k' = Some a' /\
    classify a (Z.land va PAGE_FRAME) = Some w /\
    i < NUM_TLB /\
    tlb k' !! i =
      Some (Z.land va PAGE_FRAME,
            tlb_lo (pt_lookup a' (Z.land va PAGE_FRAME)) w) /\
    (forall j, j <> i -> tlb k' !! j = tlb k !! j) /\
    length (tlb k') = NUM_TLB /\
    ((exists hi lo, tlb k !! i = Some (hi, lo) /\
        Z.land lo TLBLO_VALID = 0%Z /\
        forall j hi' lo', j < i -> tlb k !! j = Some (hi', lo') ->
          Z.land lo' TLBLO_VALID <> 0%Z) \/
     ((forall j hi lo, tlb k !! j = Some (hi, lo) ->
         Z.land lo TLBLO_VALID <> 0%Z) /\
      i = Z.to_nat (rnd e mod Z.of_nat NUM_TLB))).
Proof.
  intros Ha Hpt Hpos Hlen Hrun.
  destruct (vm_fault_success_inv _ _ _ _ _ _ Ha Hrun) as (w & Hcl & Hperm & Hoom).
  destruct (vm_fault_success _ _ _ _ _ _ Ha Hpt Hcl Hperm Hoom)
    as (a' & pa & cm' & Hrun' & Hpa & Hlk & _).
  rewrite Hrun in Hrun'. injection Hrun' as ->. cbn [cur_as tlb].
  destruct (tlb_install_slot e (Z.land va PAGE_FRAME) (tlb_lo pa w) (tlb k)
              Hpos Hlen) as (i & Hi & -> & Hwhich).
  exists a', w, i. rewrite Hlk.
  split_and!; try done.
  - apply list_lookup_insert_eq. lia.
  - intros j Hj. by apply list_lookup_insert_ne.
  - by rewrite length_insert.
Qed.

(** *** [as_activate] and the loader's bracket *)

Lemma as_activate_tlb k a i :
  cur_as k = Some a ->
  tlb (as_activate k) !! i =
    if decide (i < NUM_TLB) then Some (TLBHI_INVALID i, TLBLO_INVALID)
    else None.
Proof.
  intros Ha. unfold as_activate. rewrite Ha. cbn [tlb].
  rewrite list_lookup_fmap. destruct (decide (i < NUM_TLB)) as [Hi|Hi].
  - by rewrite lookup_seq_lt.
  - by rewrite lookup_seq_ge by lia.
Qed.

(** [as_activate] flushes the TLB of a process with an address space:
    each of the [NUM_TLB] slots holds its own invalid entry, so no
    translation survives, and the address space and the frames are not
    touched.  A kernel thread without an address space changes nothing. *)
Theorem as_activate_flushes k :
  Z.land TLBLO_INVALID TLBLO_VALID = 0%Z ->
  (cur_as k = None -> as_activate k = k) /\
  (forall a, cur_as k = Some a ->
     cur_as (as_activate k) = Some a /\ cm (as_activate k) = cm k /\
     length (tlb (as_activate k)) = NUM_TLB /\
     (forall i hi lo, tlb (as_activate k) !! i = Some (hi, lo) ->
        i < NUM_TLB /\ hi = TLBHI_INVALID i /\
        Z.land lo TLBLO_VALID = 0%Z) /\
     tlb_free_slot (take NUM_TLB (tlb (as_activate k))) 0 =
       (if decide (0 < NUM_TLB) then Some 0 else None) /\
     as_activate (as_activate k) = as_activate k).
Proof.
  intros Hinv. split.
  - intros Hk. unfold as_activate. by rewrite Hk.
  - intros a Ha.
    assert (length (tlb (as_activate k)) = NUM_TLB) as Hlen.
    { unfold as_activate. rewrite Ha. cbn [tlb].
      by rewrite length_map, length_seq. }
    split_and!; try done.
    + unfold as_activate. by rewrite Ha.
    + unfold as_activate. by rewrite Ha.
    + intros i hi lo. rewrite (as_activate_tlb k a i Ha).
      destruct (decide (i < NUM_TLB)); [|done]. by intros [= <- <-].
    + rewrite firstn_all2 by lia.
      unfold as_activate. rewrite Ha. cbn [tlb].
      destruct NUM_TLB as [|n]; [done|]. cbn. by rewrite Hinv.
    + unfold as_activate at 1. replace (cur_as (as_activate k)) with (Some a)
        by (unfold as_activate; by rewrite Ha).
      unfold as_activate. by rewrite Ha.
Qed.

(** Whatever a fault returns, the current address space keeps its
    layout and the frames of the pages it had mapped. *)
Lemma vm_fault_keeps e faulttype va k a r k' :
  cur_as k = Some a -> pt_ok a ->
  vm_fault e faulttype va k = (r, k') ->
  exists a',
    cur_as k' = Some a' /\ pt_ok a' /\ same_layout a a' /\ pt_extends a a'.
Proof.
  intros Ha Hpt Hrun.
  assert (exists a', cur_as k = Some a' /\ pt_ok a' /\ same_layout a a' /\
                     pt_extends a a') as Hsame.
  { exists a. split_and!; [done..|apply same_layout_refl|by intros va' _]. }
  destruct r as [err|].
  2:{ destruct (vm_fault_success_inv _ _ _ _ _ _ Ha Hrun)
        as (w & Hcl & Hperm & Hoom).
      destruct (vm_fault_success _ _ _ _ _ _ Ha Hpt Hcl Hperm Hoom)
        as (a' & pa & cm' & Hrun' & _ & _ & Hpt' & Hlay & Hother & Hhad & _).
      rewrite Hrun' in Hrun. injection Hrun as <-.
      exists a'. split_and!; try done.
      intros va' Hmapped.
      destruct (decide (Z.land va' PAGE_FRAME = Z.land va PAGE_FRAME))
        as [E|N]; [|by apply Hother].
      rewrite E in *. by destruct (Hhad Hmapped) as (_ & -> & _). }
  revert Hrun. unfold vm_fault. rewrite Ha.
  destruct (classify a _) as [w|]; [|by intros [= <- <-]].
  destruct (_ && _); [by intros [= <- <-]|].
  fold (l1_index (Z.land va PAGE_FRAME)) (l2_index (Z.land va PAGE_FRAME)).
  destruct (page_indices va) as (Hl1 & _).
  destruct (get_l2_table e a _) as [[t a1]|] eqn:Hg; [|by intros [= <- <-]].
  destruct (get_l2_table_spec _ _ _ _ _ Hpt Hl1 Hg)
    as (_ & _ & Hpt1 & Hlay & Hlk & _).
  destruct (_ =? 0)%Z; [|done].
  destruct (Coremap.alloc_page _ _) as [pa cm'].
  destruct (pa =? 0)%Z; [|done].
  intros [= <- <-]. exists a1. split_and!; try done.
  intros va' _. apply Hlk.
Qed.

Lemma same_layout_trans a b c :
  same_layout a b -> same_layout b c -> same_layout a c.
Proof.
  intros (? & ? & ? & ? & ? & ?) (? & ? & ? & ? & ? & ?).
  repeat split; congruence.
Qed.

Lemma pt_extends_trans a b c :
  pt_extends a b -> pt_extends b c -> pt_extends a c.
Proof.
  intros Hab Hbc va Hm. rewrite <- (Hab va Hm). apply Hbc.
  by rewrite (Hab va Hm).
Qed.

Lemma take_faults_keeps fs :
  forall k a,
    cur_as k = Some a -> pt_ok a ->
    exists a',
      cur_as (take_faults fs k) = Some a' /\ pt_ok a' /\
      same_layout a a' /\ pt_extends a a'.
Proof.
  induction fs as [|f fs IH]; intros k a Ha Hpt.
  - exists a. split_and!; [done..|apply same_layout_refl|by intros va _].
  - cbn [take_faults foldl]. unfold take_fault at 2.
    destruct (vm_fault (f_env f) (f_type f) (f_addr f) k) as [r k1] eqn:E.
    destruct (vm_fault_keeps _ _ _ _ _ _ _ Ha Hpt E)
      as (a1 & Ha1 & Hpt1 & Hlay1 & Hext1).
    destruct (IH k1 a1 Ha1 Hpt1) as (a2 & Ha2 & Hpt2 & Hlay2 & Hext2).
    exists a2. split; [exact Ha2|]. split; [done|].
    split; [by eapply same_layout_trans|by eapply pt_extends_trans].
Qed.

(** The loader's bracket.  After [as_prepare_load], and after whatever
    page faults the loader's accesses raise in between, a write to a
    read-only region passes the permission check of [vm_fault].  After
    [as_complete_load] the address space has the regions, heap and stack
    bounds of before [as_prepare_load] and is not loading; every page
    that was mapped keeps its frame (the pages faulted in by the loader
    are added); the TLB holds no valid entry; and the same write gives
    [EFAULT] and changes nothing. *)
Theorem as_complete_load_closes e k a va r fs :
  cur_as k = Some a -> pt_ok a -> loading a = false ->
  find_region (regions a) (Z.land va PAGE_FRAME) = Some r ->
  writeable r = false ->
  let k1 := set_as k (as_prepare_load a) in
  let k2 := take_faults fs k1 in
  let k3 := as_complete_load k2 in
  fst (vm_fault e VM_FAULT_READONLY va k2) <> Some EFAULT /\
  (exists a3,
     cur_as k3 = Some a3 /\ same_layout a a3 /\ pt_ok a3 /\
     pt_extends a a3 /\ (fs = [] -> a3 = a)) /\
  cm k3 = cm k2 /\
  (forall i, tlb k3 !! i =
     if decide (i < NUM_TLB) then Some (TLBHI_INVALID i, TLBLO_INVALID)
     else None) /\
  vm_fault e VM_FAULT_READONLY va k3 = (Some EFAULT, k3).
Proof.
  intros Ha Hpt Hl Hr Hw k1 k2 k3.
  assert (set_loading (as_prepare_load a) false = a) as Hback.
  { destruct a. cbn in *. by subst. }
  destruct (take_faults_keeps fs k1 (as_prepare_load a) eq_refl Hpt)
    as (a2 & Ha2 & Hpt2 & (Hreg & Hhb & Hhe & Hsb & Hse & Hld) & Hext).
  fold k2 in Ha2.
  assert (k3 = as_activate (set_as k2 (set_loading a2 false))) as Hk3.
  { subst k3. unfold as_complete_load. by rewrite Ha2. }
  assert (same_layout a (set_loading a2 false)) as Hlay.
  { by repeat split. }
  split_and!.
  - unfold vm_fault, classify. rewrite Ha2, Hreg, Hld.
    cbn [as_prepare_load set_loading regions loading].
    rewrite Hr, orb_true_r, Z.eqb_refl. cbn [negb andb].
    destruct (get_l2_table _ _ _) as [[t a1]|]; [|done].
    destruct (_ =? 0)%Z; [|done].
    destruct (Coremap.alloc_page _ _) as [pa cm'].
    by destruct (pa =? 0)%Z.
  - exists (set_loading a2 false). split_and!.
    + rewrite Hk3. unfold as_activate. done.
    + done.
    + done.
    + intros va' Hm. apply (Hext va' Hm).
    + intros ->. cbn in Ha2. injection Ha2 as <-. exact Hback.
  - rewrite Hk3. unfold as_activate. done.
  - intros i. rewrite Hk3. by apply (as_activate_tlb _ (set_loading a2 false)).
  - unfold vm_fault, classify.
    replace (cur_as k3) with (Some (set_loading a2 false)) by (rewrite Hk3; done).
    cbn [set_loading regions loading]. rewrite Hreg.
    cbn [as_prepare_load set_loading regions].
    by rewrite Hr, Hw, Z.eqb_refl.
Qed.

(** *** [sys_sbrk] *)

Lemma set_heap_end_same k a :
  cur_as k = Some a -> set_as k (set_heap_end a (heap_end a)) = k.
Proof. intros H. destruct k, a. cbn in *. by subst. Qed.

(** With the break inside the heap and a signed 32-bit amount, the call
    succeeds exactly when the new break stays in
    [[heap_base, stack_end)]. *)
Lemma sys_sbrk_cases amount retval0 k a :
  cur_as k = Some a -> heap_ok a -> is_s32 amount ->
  ((heap_base a <= heap_end a + amount < stack_end a)%Z /\
   sys_sbrk amount retval0 k =
     (None, s32 (heap_end a),
      set_as k (set_heap_end a (heap_end a + amount)))) \/
  (~ (heap_base a <= heap_end a + amount < stack_end a)%Z /\
   exists err, sys_sbrk amount retval0 k = (Some err, s32 (heap_end a), k)).
Proof.
  intros Ha (Hb & He & Hs) Hamt. unfold sys_sbrk. rewrite Ha.
  destruct (Z.eqb_spec amount 0) as [->|Hne].
  { left. rewrite Z.add_0_r, set_heap_end_same by done. split; [lia|done]. }
  destruct (VMSpec.u32_add_cases (heap_end a) amount)
    as [[Hin Heq]|[(H1 & H2 & H3)|(H1 & H2 & H3)]]; [unfold is_u32; lia|done|..].
  - rewrite Heq. unfold is_u32 in Hin.
    destruct (Z.ltb_spec 0 amount), (Z.ltb_spec amount 0),
      (Z.ltb_spec (heap_end a + amount) (heap_end a)),
      (Z.ltb_spec (heap_end a) (heap_end a + amount)); try lia; cbn [andb orb].
    all: destruct (Z.ltb_spec (heap_end a + amount) (heap_base a));
      [right; split; [lia|by eexists]|].
    all: destruct (Z.leb_spec (stack_end a) (heap_end a + amount));
      [right; split; [lia|by eexists]|].
    all: left; split; [lia|done].
  - right. split; [lia|].
    destruct (Z.ltb_spec 0 amount); [|lia].
    destruct (Z.ltb_spec (u32 (heap_end a + amount)) (heap_end a)); [|lia].
    cbn [andb orb]. by eexists.
  - right. split; [lia|].
    destruct (Z.ltb_spec amount 0); [|lia].
    destruct (Z.ltb_spec (heap_end a) (u32 (heap_end a + amount))); [|lia].
    rewrite orb_true_r. by eexists.
Qed.


(** Growing the heap and shrinking it by the same amount gives the state
    back; the second call returns the break the first one set. *)
Theorem sys_sbrk_round_trip amount retval0 retval1 k a rv k1 :
  cur_as k = Some a -> heap_ok a -> is_s32 amount -> is_s32 (- amount) ->
  sys_sbrk amount retval0 k = (None, rv, k1) ->
  sys_sbrk 0 retval1 k1 = (None, s32 (heap_end a + amount), k1) /\
  sys_sbrk (- amount) retval1 k1 = (None, s32 (heap_end a + amount), k).
Proof.
  intros Ha Hok Hamt Hneg Hrun.
  destruct (sys_sbrk_cases amount retval0 k a Ha Hok Hamt)
    as [[Hin Hrun']|[Hout [err Hrun']]]; [|congruence].
  rewrite Hrun in Hrun'. injection Hrun' as -> ->.
  set (a1 := set_heap_end a (heap_end a + amount)).
  assert (heap_ok a1) as Hok1.
  { destruct Hok as (Hb & He & Hs). unfold heap_ok. cbn. lia. }
  split.
  - unfold sys_sbrk. cbn [cur_as set_as]. done.
  - destruct (sys_sbrk_cases (- amount) retval1 (set_as k a1) a1 eq_refl
                Hok1 Hneg) as [[Hin' Hrun']|[Hout [err Hrun']]].
    + rewrite Hrun'. cbn [heap_end a1 set_heap_end]. f_equal.
      replace (heap_end a + amount + - amount)%Z with (heap_end a) by lia.
      destruct k, a. cbn in *. by subst.
    + destruct Hout. destruct Hok as (Hb & He & Hs). cbn. lia.
Qed.

(** Memory obtained from [sys_sbrk] is paged in on demand: after a
    successful call that raises the break, a fault of any type on an
    address between the old and the new break that no region claims is
    legal and writable, so it returns 0 unless memory runs out, and then
    [ENOMEM]. *)
Theorem sys_sbrk_then_fault e amount retval0 k a rv k1 faulttype va :
  cur_as k = Some a -> heap_ok a -> is_s32 amount ->
  (heap_base a mod PAGE_SIZE = 0)%Z ->
  sys_sbrk amount retval0 k = (None, rv, k1) ->
  (heap_end a <= va < heap_end a + amount)%Z ->
  find_region (regions a) (Z.land va PAGE_FRAME) = None ->
  exists a1,
    cur_as k1 = Some a1 /\ cm k1 = cm k /\
    classify a1 (Z.land va PAGE_FRAME) = Some true /\
    fst (vm_fault e faulttype va k1) =
      if out_of_memory e k1 a1 (Z.land va PAGE_FRAME) then Some ENOMEM
      else None.
Proof.
  intros Ha Hok Hamt Hal Hrun Hva Hreg.
  destruct (sys_sbrk_cases amount retval0 k a Ha Hok Hamt)
    as [[Hin Hrun']|[Hout [err Hrun']]]; [|congruence].
  rewrite Hrun in Hrun'. injection Hrun' as -> ->.
  destruct Hok as (Hb & He & Hs). unfold PAGE_SIZE in Hal.
  set (a1 := set_heap_end a (heap_end a + amount)).
  assert (classify a1 (Z.land va PAGE_FRAME) = Some true) as Hcl.
  { unfold classify, in_heap. cbn [a1 regions set_heap_end heap_base heap_end].
    rewrite Hreg, page_of_u32 by lia.
    pose proof (Z.mod_pos_bound va 4096 ltac:(lia)).
    pose proof (Z.div_mod va 4096 ltac:(lia)).
    apply Z.mod_divide in Hal as [q Hq]; [|lia].
    assert (q <= va / 4096)%Z.
    { apply Z.div_le_lower_bound; lia. }
    destruct (Z.leb_spec (heap_base a) (va - va mod 4096)); [|lia].
    destruct (Z.ltb_spec (va - va mod 4096) (heap_end a + amount)); [|lia].
    done. }
  exists a1. split_and!; try done.
  unfold vm_fault, out_of_memory. cbn [cur_as set_as]. rewrite Hcl.
  cbn [negb]. rewrite andb_false_r.
  fold (l1_index (Z.land va PAGE_FRAME)) (l2_index (Z.land va PAGE_FRAME)).
  destruct (get_l2_table _ _ _) as [[t a2]|]; [|done].
  destruct (_ =? 0)%Z; [|done]. cbn [andb cm].
  destruct (Coremap.alloc_page _ _) as [pa cm']. cbn [fst].
  by destruct (pa =? 0)%Z.
Qed.

End Generic.

Section Runs.
Local Existing Instance os161.

Lemma sample_as_pt_ok : pt_ok sample_as.
Proof.
  split; [apply length_replicate|].
  intros i t H. apply lookup_replicate in H as [H _]. done.
Qed.

Lemma sample_as_heap_ok : heap_ok sample_as.
Proof. unfold heap_ok. cbn. unfold USERSTACK, PAGE_SIZE. cbn. lia. Qed.

(** A data segment of 0x1800 bytes at 0x400123 becomes the two pages
    from 0x400000 to 0x402000. *)
Lemma as_define_region_covers_witness :
  exists a' reg,
    as_define_region true as_create 0x400123 0x1800 true true false = Ok a' /\
    regions a' = [reg] /\ vbase reg = 0x400000%Z /\ npages reg = 2%Z.
Proof.
  destruct (as_define_region_covers as_create 0x400123 0x1800 true true false)
    as (a' & reg & Hrun & Hregs & _); [lia|lia|unfold PAGE_SIZE; lia|].
  exists a', reg. split; [exact Hrun|]. split; [exact Hregs|].
  assert (Ok a' = as_define_region true as_create 0x400123 0x1800 true true false)
    as Heq by (by rewrite Hrun).
  vm_compute in Heq. injection Heq as ->.
  cbn in Hregs. by injection Hregs as <-.
Defined.

Lemma as_define_region_heap_witness :
  exists a',
    as_define_region true as_create 0x400123 0x1800 true true false = Ok a' /\
    heap_above_regions a' /\ heap_base a' = 0x402000%Z.
Proof.
  destruct (as_define_region_heap as_create 0x400123 0x1800 true true false)
    as (_ & a' & reg & Hrun & Hregs & Hinv & Hbase & _).
  - split; [done|constructor].
  - cbn. lia.
  - lia.
  - lia.
  - unfold PAGE_SIZE. lia.
  - exists a'. split; [exact Hrun|]. split; [exact Hinv|].
    assert (Ok a' = as_define_region true as_create 0x400123 0x1800 true true false)
      as Heq by (by rewrite Hrun).
    vm_compute in Heq. by injection Heq as ->.
Defined.

(** The first read of the text page of the sample process takes the
    only frame of the machine. *)
Lemma vm_fault_maps_witness :
  exists a' cm',
    vm_fault sample_env 0 0x400123 (sample_kstate sample_as free_coremap) =
      (None,
       {| cur_as := Some a';
          tlb := tlb_install sample_env 0x400000 (tlb_lo 0x2000 false)
                   (replicate NUM_TLB (0%Z, 0%Z));
          cm := cm' |}) /\
    pt_lookup a' 0x400000 = 0x2000%Z /\ cm' = full_coremap.
Proof.
  destruct (vm_fault_maps sample_env 0 0x400123
              (sample_kstate sample_as free_coremap) sample_as false)
    as (a' & pa & cm' & Hrun & Hpa & Hlk & _ & _ & _ & _ & Halloc).
  - reflexivity.
  - apply sample_as_pt_ok.
  - by vm_compute.
  - intros H. vm_compute in H. discriminate.
  - by vm_compute.
  - assert (Coremap.alloc_page (steal sample_env)
              (cm (sample_kstate sample_as free_coremap)) = (pa, cm')) as Ha
      by (apply Halloc; by vm_compute).
    vm_compute in Ha. injection Ha as <- <-.
    exists a', full_coremap. split; [exact Hrun|]. split; [exact Hlk|done].
Defined.

Lemma vm_fault_again_witness :
  let k1 := snd (vm_fault sample_env 0 0x400123
                   (sample_kstate sample_as free_coremap)) in
  exists k2,
    vm_fault (Env false 0 7) 0 0x400ffc k1 = (None, k2) /\
    cur_as k2 = cur_as k1 /\ cm k2 = cm k1.
Proof.
  apply (vm_fault_again sample_env (Env false 0 7) 0 0x400123 0x400ffc
           (sample_kstate sample_as free_coremap) _ sample_as).
  - reflexivity.
  - apply sample_as_pt_ok.
  - by vm_compute.
  - by vm_compute.
Defined.

Lemma vm_fault_tlb_witness :
  let k := sample_kstate sample_as free_coremap in
  exists i,
    i < NUM_TLB /\
    tlb (snd (vm_fault sample_env 0 0x400123 k)) !! i =
      Some (0x400000%Z, 0x2200%Z).
Proof.
  destruct (vm_fault_tlb sample_env 0 0x400123
              (sample_kstate sample_as free_coremap) sample_as
              (snd (vm_fault sample_env 0 0x400123
                      (sample_kstate sample_as free_coremap))))
    as (a' & w & i & Ha' & Hcl & Hi & Hslot & _).
  - reflexivity.
  - apply sample_as_pt_ok.
  - unfold NUM_TLB, os161. lia.
  - apply length_replicate.
  - by vm_compute.
  - exists i. split; [exact Hi|]. cbv zeta. rewrite Hslot.
    assert (Some false = Some w) as Hw by (rewrite <- Hcl; by vm_compute).
    injection Hw as <-.
    assert (Some a' = cur_as (snd (vm_fault sample_env 0 0x400123
                      (sample_kstate sample_as free_coremap)))) as Heq
      by (by rewrite Ha').
    vm_compute in Heq. injection Heq as ->. by vm_compute.
Defined.

Lemma as_activate_flushes_witness :
  let k := sample_kstate sample_as free_coremap in
  cur_as (as_activate k) = Some sample_as /\
  length (tlb (as_activate k)) = 64.
Proof.
  destruct (as_activate_flushes (sample_kstate sample_as free_coremap))
    as [_ H]; [by vm_compute|].
  destruct (H sample_as eq_refl) as (Ha & _ & Hlen & _).
  split; [exact Ha|exact Hlen].
Defined.

Lemma as_complete_load_closes_witness :
  let k := sample_kstate sample_as free_coremap in
  let write := {| f_env := sample_env; f_type := 1; f_addr := 0x400123 |} in
  let k2 := take_faults [write] (set_as k (as_prepare_load sample_as)) in
  let k3 := as_complete_load k2 in
  take_fault write (set_as k (as_prepare_load sample_as)) = (None, k2) /\
  fst (vm_fault sample_env VM_FAULT_READONLY 0x400123 k2) <> Some EFAULT /\
  (exists a3, cur_as k3 = Some a3 /\ same_layout sample_as a3 /\
              pt_lookup a3 0x400000 = 0x2000%Z) /\
  vm_fault sample_env VM_FAULT_READONLY 0x400123 k3 = (Some EFAULT, k3).
Proof.
  intros k write k2 k3.
  destruct (as_complete_load_closes sample_env k sample_as 0x400123
              text_region [write])
    as (H1 & (a3 & Ha3 & Hlay & _) & _ & _ & H2);
    [reflexivity|apply sample_as_pt_ok|reflexivity|by vm_compute|reflexivity|].
  split; [by vm_compute|]. split; [exact H1|]. split; [|exact H2].
  exists a3. split; [exact Ha3|]. split; [exact Hlay|].
  fold k2 k3 in Ha3.
  assert (cur_as k3 = Some (set_loading
            (set_pt (set_pt (as_prepare_load sample_as)
               (<[1 := Some (replicate PT_L2_SIZE 0%Z)]>
                  (pt_l1 sample_as)))
               (<[1 := Some (<[0 := 0x2000%Z]> (replicate PT_L2_SIZE 0%Z))]>
                  (<[1 := Some (replicate PT_L2_SIZE 0%Z)]>
                     (pt_l1 sample_as)))) false)) as Hcur by (by vm_compute).
  rewrite Hcur in Ha3. injection Ha3 as <-. by vm_compute.
Defined.


Lemma sys_sbrk_round_trip_witness :
  let k := sample_kstate sample_as free_coremap in
  sys_sbrk (-4096) 0 (snd (sys_sbrk 4096 0 k)) = (None, 0x402000%Z, k).
Proof.
  destruct (sys_sbrk_round_trip 4096 0 0
              (sample_kstate sample_as free_coremap) sample_as
              0x401000 (snd (sys_sbrk 4096 0
                               (sample_kstate sample_as free_coremap))))
    as [_ H].
  - reflexivity.
  - apply sample_as_heap_ok.
  - unfold is_s32. lia.
  - unfold is_s32. lia.
  - by vm_compute.
  - exact H.
Defined.

Lemma sys_sbrk_then_fault_witness :
  let k1 := snd (sys_sbrk 4096 0 (sample_kstate sample_as free_coremap)) in
  exists a1,
    cur_as k1 = Some a1 /\
    classify a1 (Z.land 0x401abc PAGE_FRAME) = Some true.
Proof.
  destruct (sys_sbrk_then_fault sample_env 4096 0
              (sample_kstate sample_as free_coremap) sample_as 0x401000
              (snd (sys_sbrk 4096 0 (sample_kstate sample_as free_coremap)))
              1 0x401abc)
    as (a1 & Ha1 & _ & Hcl & _).
  - reflexivity.
  - apply sample_as_heap_ok.
  - unfold is_s32. lia.
  - by vm_compute.
  - by vm_compute.
  - cbn. lia.
  - by vm_compute.
  - by exists a1.
Defined.

End Runs.
End VMLaws.

(* ------------------------------------------------------------------ *)
(** ** More on open files and file tables *)

Module FilesLaws.
Import Files FilesSpec.

Section Generic.
Context {hdr : headers}.

(** *** Counting the slots that point to an object *)

Lemma slots_in_cons file s t :
  slots_in file (s :: t) =
  (if decide (s = Some file) then 1 else 0) + slots_in file t.
Proof. unfold slots_in. rewrite filter_cons. by destruct (decide _). Qed.

Lemma slots_in_app file t1 t2 :
  slots_in file (t1 ++ t2) = slots_in file t1 + slots_in file t2.
Proof. unfold slots_in. by rewrite filter_app, length_app. Qed.

Lemma slots_in_replicate file n : slots_in file (replicate n None) = 0.
Proof.
  induction n as [|n IH]; [done|]. cbn [replicate].
  rewrite slots_in_cons, IH. by rewrite decide_False.
Qed.

Lemma slots_in_insert file t i old v :
  t !! i = Some old ->
  slots_in file (<[i := v]> t) + (if decide (old = Some file) then 1 else 0) =
  slots_in file t + (if decide (v = Some file) then 1 else 0).
Proof.
  revert i. induction t as [|s t IH]; intros [|i] H; simplify_eq/=.
  - rewrite !slots_in_cons. lia.
  - rewrite !slots_in_cons. specialize (IH _ H). lia.
Qed.

Lemma slots_in_pos file t i :
  t !! i = Some (Some file) -> 0 < slots_in file t.
Proof.
  revert i. induction t as [|s t IH]; intros [|i] H; simplify_eq/=;
    rewrite slots_in_cons.
  - rewrite decide_True by done. lia.
  - specialize (IH _ H). lia.
Qed.

Lemma slots_in_pos_inv file t :
  slots_in file t <> 0 -> exists i, t !! i = Some (Some file).
Proof.
  induction t as [|s t IH]; [done|]. rewrite slots_in_cons.
  destruct (decide (s = Some file)) as [->|]; [by exists 0|].
  intros H. destruct IH as [i Hi]; [lia|]. by exists (S i).
Qed.

Lemma slot_count_fresh k k' ft t file :
  tables k !! ft = None -> tables k' = <[ft := t]> (tables k) ->
  slot_count k' file = slots_in file t + slot_count k file.
Proof.
  intros Hn Ht. unfold slot_count. rewrite Ht.
  apply (map_fold_insert_L (fun _ t n => slots_in file t + n));
    [intros; lia|done].
Qed.

Lemma slot_count_split k ft t file :
  tables k !! ft = Some t ->
  slot_count k file =
  slots_in file t +
  map_fold (fun _ t n => slots_in file t + n) 0 (delete ft (tables k)).
Proof.
  intros H. unfold slot_count.
  apply (map_fold_delete_L (fun _ t n => slots_in file t + n));
    [intros; lia|done].
Qed.

Lemma slot_count_replace k k' ft t t' file :
  tables k !! ft = Some t -> tables k' = <[ft := t']> (tables k) ->
  slot_count k' file + slots_in file t = slot_count k file + slots_in file t'.
Proof.
  intros H Ht. rewrite (slot_count_split k ft t file H).
  unfold slot_count. rewrite Ht, <- insert_delete_eq.
  rewrite (map_fold_insert_L (fun _ t n => slots_in file t + n));
    [lia|intros; lia|apply lookup_delete_eq].
Qed.

Lemma slot_count_removed k k' ft t file :
  tables k !! ft = Some t -> tables k' = delete ft (tables k) ->
  slot_count k' file + slots_in file t = slot_count k file.
Proof.
  intros H Ht. rewrite (slot_count_split k ft t file H).
  unfold slot_count. rewrite Ht. lia.
Qed.

Lemma slot_count_same k k' file :
  tables k' = tables k -> slot_count k' file = slot_count k file.
Proof. intros H. unfold slot_count. by rewrite H. Qed.

(** Writing one slot moves the count of the object that leaves the slot
    and of the one that enters it. *)
Lemma slot_count_slot k k' ft t i old v file :
  tables k !! ft = Some t -> t !! i = Some old ->
  tables k' = <[ft := <[i := v]> t]> (tables k) ->
  slot_count k' file + (if decide (old = Some file) then 1 else 0) =
  slot_count k file + (if decide (v = Some file) then 1 else 0).
Proof.
  intros Ht Hi Hk'.
  pose proof (slot_count_replace k k' ft t _ file Ht Hk').
  pose proof (slots_in_insert file t i old v Hi). lia.
Qed.

Lemma slots_in_le_count k ft t file :
  tables k !! ft = Some t -> slots_in file t <= slot_count k file.
Proof. intros H. rewrite (slot_count_split k ft t file H). lia. Qed.

Lemma slot_count_pos k ft t i file :
  tables k !! ft = Some t -> t !! i = Some (Some file) ->
  0 < slot_count k file.
Proof.
  intros Ht Hi. pose proof (slots_in_le_count k ft t file Ht).
  pose proof (slots_in_pos file t i Hi). lia.
Qed.

Lemma slot_count_pos_inv k file :
  slot_count k file <> 0 ->
  exists ft t i, tables k !! ft = Some t /\ t !! i = Some (Some file).
Proof.
  unfold slot_count. generalize (tables k). clear k.
  intros ts. induction ts as [|ft t ts Hft IH] using map_ind.
  - by rewrite map_fold_empty.
  - rewrite (map_fold_insert_L (fun _ t n => slots_in file t + n))
      by (intros; lia || done).
    intros H. destruct (decide (slots_in file t = 0)) as [Hz|Hnz].
    + destruct IH as (ft' & t' & i & Ht' & Hi); [lia|].
      exists ft', t', i. split; [|done].
      rewrite lookup_insert_ne; [done|]. intros ->. congruence.
    + destruct (slots_in_pos_inv _ _ Hnz) as [i Hi].
      exists ft, t, i. split; [apply lookup_insert_eq|done].
Qed.

(** The invariant in terms of the counts alone. *)
Lemma refcount_inv_of_counts k :
  (forall ft t, tables k !! ft = Some t -> length t = Z.to_nat OPEN_MAX) ->
  (forall file, slot_count k file <> 0 -> is_Some (objs k !! file)) ->
  (forall file h, objs k !! file = Some h ->
                  reference_count h = Z.of_nat (slot_count k file)) ->
  refcount_inv k.
Proof.
  intros HL HV HC. split_and!; try done.
  intros ft t i file Ht Hi. apply HV.
  pose proof (slot_count_pos k ft t i file Ht Hi). lia.
Qed.

Lemma live_of_count k file :
  refcount_inv k -> slot_count k file <> 0 -> is_Some (objs k !! file).
Proof.
  intros (_ & HV & _) H.
  destruct (slot_count_pos_inv k file H) as (ft & t & i & Ht & Hi).
  by eapply HV.
Qed.

Lemma tables_length_insert k k' ft t i v :
  (forall ft t, tables k !! ft = Some t -> length t = Z.to_nat OPEN_MAX) ->
  tables k !! ft = Some t ->
  tables k' = <[ft := <[i := v]> t]> (tables k) ->
  forall ft' t', tables k' !! ft' = Some t' -> length t' = Z.to_nat OPEN_MAX.
Proof.
  intros HL Ht Hk' ft' t'. rewrite Hk'.
  destruct (decide (ft' = ft)) as [->|Hne].
  - rewrite lookup_insert_eq. intros [= <-]. rewrite length_insert. by eapply HL.
  - rewrite lookup_insert_ne by done. apply HL.
Qed.

(** *** [sys_close] *)

Lemma sys_close_empty cur fd k t :
  tables k !! cur = Some t -> (0 <= fd < OPEN_MAX)%Z ->
  t !! Z.to_nat fd = Some None ->
  sys_close cur fd k = Val (Err EBADF) (log_read k cur fd).
Proof.
  intros Ht Hfd Hs. unfold sys_close.
  destruct (Z.leb_spec OPEN_MAX fd); [lia|].
  destruct (Z.ltb_spec fd 0); [lia|]. cbn [orb].
  by rewrite (bind_val _ _ _ _ _ (read_slot_ok _ _ _ _ _ Ht Hfd Hs)).
Qed.

(** The invariant after a slot was cleared and its object released. *)
Lemma refcount_inv_release k k' cur t i file h :
  refcount_inv k -> tables k !! cur = Some t ->
  t !! i = Some (Some file) -> objs k !! file = Some h ->
  tables k' = <[cur := <[i := None]> t]> (tables k) ->
  objs k' = (if decide (reference_count h = 1%Z) then delete file (objs k)
             else <[file := set_refs h (reference_count h - 1)]> (objs k)) ->
  refcount_inv k'.
Proof.
  intros Hinv Ht Hi Hh Hk' Ho'. pose proof Hinv as (HL & HV & HC).
  pose proof (HC _ _ Hh) as Hrc.
  assert (forall f, slot_count k' f + (if decide (Some file = Some f) then 1 else 0)
                    = slot_count k f) as Hcount.
  { intros f. pose proof (slot_count_slot k k' cur t i _ None f Ht Hi Hk') as H.
    rewrite (decide_False (P := None = Some f)) in H by done. lia. }
  apply refcount_inv_of_counts.
  - by eapply tables_length_insert.
  - intros f Hf. specialize (Hcount f). rewrite Ho'.
    destruct (decide (f = file)) as [->|Hne].
    + rewrite decide_True in Hcount by done.
      destruct (decide (reference_count h = 1%Z)); [lia|].
      rewrite lookup_insert_eq. by eexists.
    + rewrite decide_False in Hcount by congruence.
      destruct (live_of_count k f Hinv) as [h' Hh']; [lia|].
      destruct (decide (reference_count h = 1%Z)).
      * rewrite lookup_delete_ne by done. by eexists.
      * rewrite lookup_insert_ne by done. by eexists.
  - intros f h'. specialize (Hcount f). rewrite Ho'.
    destruct (decide (f = file)) as [->|Hne].
    + rewrite decide_True in Hcount by done.
      destruct (decide (reference_count h = 1%Z)).
      * by rewrite lookup_delete_eq.
      * rewrite lookup_insert_eq. intros [= <-]. cbn. lia.
    + rewrite decide_False in Hcount by congruence.
      destruct (decide (reference_count h = 1%Z)).
      * rewrite lookup_delete_ne by done. intros Hf.
        rewrite (HC _ _ Hf). lia.
      * rewrite lookup_insert_ne by done. intros Hf.
        rewrite (HC _ _ Hf). lia.
Qed.

(** [sys_close] of an open descriptor, in a state that satisfies the
    reference-count invariant.  The slot is cleared and the invariant
    holds again; the vnode is closed, and the object freed, exactly when
    no other slot of any table points to the object; otherwise the count
    drops by one and nothing is closed.  Closing the descriptor a second
    time gives [EBADF] and changes nothing. *)
Theorem sys_close_releases cur fd k t file :
  refcount_inv k -> tables k !! cur = Some t -> (0 <= fd < OPEN_MAX)%Z ->
  t !! Z.to_nat fd = Some (Some file) ->
  exists h k',
    objs k !! file = Some h /\
    sys_close cur fd k = Val (Ok tt) k' /\
    refcount_inv k' /\
    tables k' = <[cur := <[Z.to_nat fd := None]> t]> (tables k) /\
    (if decide (slot_count k file = 1)
     then objs k' = delete file (objs k) /\
          vfs_closed k' = file_vn h :: vfs_closed k
     else objs k' = <[file := set_refs h (reference_count h - 1)]> (objs k) /\
          vfs_closed k' = vfs_closed k) /\
    exists k'', sys_close cur fd k' = Val (Err EBADF) k'' /\ same_files k' k''.
Proof.
  intros Hinv Ht Hfd Hs. pose proof Hinv as (HL & HV & HC).
  destruct (HV _ _ _ _ Ht Hs) as [h Hh].
  pose proof (HC _ _ Hh) as Hrc. pose proof (HL _ _ Ht) as Hlen.
  assert (exists k',
    sys_close cur fd k = Val (Ok tt) k' /\
    tables k' = <[cur := <[Z.to_nat fd := None]> t]> (tables k) /\
    objs k' = (if decide (reference_count h = 1%Z) then delete file (objs k)
               else <[file := set_refs h (reference_count h - 1)]> (objs k)) /\
    vfs_closed k' = (if decide (reference_count h = 1%Z)
                     then file_vn h :: vfs_closed k else vfs_closed k))
    as (k' & Hrun & Hk' & Ho' & Hc').
  { destruct (decide (reference_count h = 1%Z)) as [H1|H1].
    - destruct (sys_close_last cur fd k t file h Ht Hlen Hfd Hs Hh H1)
        as (k' & ? & ? & ? & ?). by exists k'.
    - destruct (sys_close_shared cur fd k t file h Ht Hlen Hfd Hs Hh H1)
        as (k' & ? & ? & ? & ?). by exists k'. }
  exists h, k'. split_and!; try done.
  - by eapply (refcount_inv_release k k' cur t).
  - destruct (decide (slot_count k file = 1)) as [H1|H1],
      (decide (reference_count h = 1%Z)); done || lia.
  - eexists. split; [|apply same_files_log_read].
    apply (sys_close_empty _ _ _ (<[Z.to_nat fd := None]> t)); [|done|].
    + rewrite Hk'. apply lookup_insert_eq.
    + apply list_lookup_insert_eq. lia.
Qed.

(** *** [sys_dup2] onto another object *)

(** What the call does to the heap when [newfd] is free. *)
Lemma sys_dup2_onto_free cur oldfd newfd k t po ho :
  tables k !! cur = Some t -> length t = Z.to_nat OPEN_MAX ->
  (0 <= oldfd < OPEN_MAX)%Z -> (0 <= newfd < OPEN_MAX)%Z -> oldfd <> newfd ->
  t !! Z.to_nat oldfd = Some (Some po) -> t !! Z.to_nat newfd = Some None ->
  objs k !! po = Some ho ->
  exists k',
    sys_dup2 cur oldfd newfd k = Val (Ok newfd) k' /\
    tables k' = <[cur := <[Z.to_nat newfd := Some po]> t]> (tables k) /\
    objs k' = <[po := set_refs ho (reference_count ho + 1)]> (objs k) /\
    vfs_closed k' = vfs_closed k.
Proof.
  intros Ht Hl Ho Hn Hne Hso Hsn Hpo.
  rewrite (sys_dup2_reads _ _ _ _ _ _ _ Ht Ho Hn Hne Hso Hsn).
  cbn zeta. rewrite decide_False by done.
  erewrite bind_val by (by apply (open_file_incref_ok _ _ ho)).
  erewrite bind_val by done.
  erewrite bind_val by (apply (write_slot_ok _ _ t); [done|done|lia]).
  eexists. split; [done|]. done.
Qed.

(** What the call does to the heap when [newfd] holds another object. *)
Lemma sys_dup2_onto_open cur oldfd newfd k t po ho pn hn :
  tables k !! cur = Some t -> length t = Z.to_nat OPEN_MAX ->
  (0 <= oldfd < OPEN_MAX)%Z -> (0 <= newfd < OPEN_MAX)%Z -> oldfd <> newfd ->
  t !! Z.to_nat oldfd = Some (Some po) -> t !! Z.to_nat newfd = Some (Some pn) ->
  pn <> po -> objs k !! po = Some ho -> objs k !! pn = Some hn ->
  exists k',
    sys_dup2 cur oldfd newfd k = Val (Ok newfd) k' /\
    tables k' = <[cur := <[Z.to_nat newfd := Some po]> t]> (tables k) /\
    objs k' =
      (if decide (reference_count hn = 1%Z)
       then delete pn (<[po := set_refs ho (reference_count ho + 1)]> (objs k))
       else <[pn := set_refs hn (reference_count hn - 1)]>
              (<[po := set_refs ho (reference_count ho + 1)]> (objs k))) /\
    vfs_closed k' =
      (if decide (reference_count hn = 1%Z) then file_vn hn :: vfs_closed k
       else vfs_closed k).
Proof.
  intros Ht Hl Ho Hn Hne Hso Hsn Hpn Hpo Hhn.
  rewrite (sys_dup2_reads _ _ _ _ _ _ _ Ht Ho Hn Hne Hso Hsn).
  cbn zeta. rewrite decide_False by congruence.
  erewrite bind_val by (by apply (open_file_incref_ok _ _ ho)).
  set (k2 := set_objs _ _).
  assert (objs k2 !! pn = Some hn) as Hpn2.
  { subst k2. cbn. by rewrite lookup_insert_ne. }
  assert (exists k3,
    open_file_decref (Some pn) k2 = Val tt k3 /\ tables k3 = tables k /\
    objs k3 = (if decide (reference_count hn = 1%Z) then delete pn (objs k2)
               else <[pn := set_refs hn (reference_count hn - 1)]> (objs k2)) /\
    vfs_closed k3 = (if decide (reference_count hn = 1%Z)
                     then file_vn hn :: vfs_closed k else vfs_closed k))
    as (k3 & Hdec & Ht3 & Ho3 & Hc3).
  { destruct (decide (reference_count hn = 1%Z)).
    - eexists. split; [by apply (open_file_decref_last _ _ hn)|done].
    - eexists. split; [by apply (open_file_decref_shared _ _ hn)|done]. }
  erewrite bind_val.
  2:{ erewrite bind_val by exact Hdec.
      apply (write_slot_ok _ _ t); [by rewrite Ht3|done|lia]. }
  erewrite bind_val.
  2:{ apply (write_slot_ok _ _ (<[Z.to_nat newfd := None]> t)).
      - cbn. apply lookup_insert_eq.
      - done.
      - rewrite length_insert. lia. }
  eexists. split; [done|]. cbn.
  rewrite Ht3, insert_insert_eq, list_insert_insert_eq. done.
Qed.

(** [sys_dup2] onto a descriptor that does not already name the object
    of [oldfd], in a state that satisfies the reference-count invariant.
    The call returns [newfd], whose slot now holds the object of
    [oldfd]; that object counts one slot more; the object that was behind
    [newfd] is closed and freed exactly when [newfd] was its last slot;
    only reference counts change in the objects that stay; and the
    invariant holds again. *)
Theorem sys_dup2_redirects cur oldfd newfd k t po sn :
  refcount_inv k -> tables k !! cur = Some t ->
  (0 <= oldfd < OPEN_MAX)%Z -> (0 <= newfd < OPEN_MAX)%Z -> oldfd <> newfd ->
  t !! Z.to_nat oldfd = Some (Some po) -> t !! Z.to_nat newfd = Some sn ->
  sn <> Some po ->
  exists k',
    sys_dup2 cur oldfd newfd k = Val (Ok newfd) k' /\
    refcount_inv k' /\
    tables k' = <[cur := <[Z.to_nat newfd := Some po]> t]> (tables k) /\
    slot_count k' po = S (slot_count k po) /\
    (forall f h, objs k !! f = Some h ->
       objs k' !! f =
         if decide (sn = Some f /\ slot_count k f = 1) then None
         else Some (set_refs h (Z.of_nat (slot_count k' f)))) /\
    (forall pn hn, sn = Some pn -> objs k !! pn = Some hn ->
       vfs_closed k' = if decide (slot_count k pn = 1)
                       then file_vn hn :: vfs_closed k else vfs_closed k) /\
    (sn = None -> vfs_closed k' = vfs_closed k).
Proof.
  intros Hinv Ht Ho Hn Hne Hso Hsn Hdiff. pose proof Hinv as (HL & HV & HC).
  destruct (HV _ _ _ _ Ht Hso) as [ho Hpo].
  pose proof (HL _ _ Ht) as Hl.
  assert (forall k', tables k' = <[cur := <[Z.to_nat newfd := Some po]> t]> (tables k) ->
          forall f, slot_count k' f + (if decide (sn = Some f) then 1 else 0)
                    = slot_count k f + (if decide (po = f) then 1 else 0))
    as Hcount.
  { intros k' Hk' f.
    pose proof (slot_count_slot k k' cur t _ sn (Some po) f Ht Hsn Hk') as H.
    destruct (decide (Some po = Some f)), (decide (po = f)); congruence || lia. }
  assert (forall h, set_refs h (reference_count h) = h) as Hsame
    by (by intros []).
  destruct sn as [pn|].
  - assert (pn <> po) as Hpn by congruence.
    destruct (HV _ _ _ _ Ht Hsn) as [hn Hhn].
    destruct (sys_dup2_onto_open cur oldfd newfd k t po ho pn hn)
      as (k' & Hrun & Hk' & Ho' & Hc'); try done.
    specialize (Hcount k' Hk').
    pose proof (HC _ _ Hpo) as Hrco. pose proof (HC _ _ Hhn) as Hrcn.
    assert (forall f h, objs k !! f = Some h ->
       objs k' !! f =
         if decide (Some pn = Some f /\ slot_count k f = 1) then None
         else Some (set_refs h (Z.of_nat (slot_count k' f)))) as Hobjs.
    { intros f h Hf. pose proof (HC _ _ Hf) as Hrc. specialize (Hcount f).
      rewrite Ho'. destruct (decide (f = pn)) as [->|Hfn].
      - rewrite decide_True in Hcount by done.
        rewrite decide_False in Hcount by done.
        assert (h = hn) as -> by congruence.
        destruct (decide (reference_count hn = 1%Z)).
        + rewrite (decide_True (P := Some pn = Some pn /\ slot_count k pn = 1))
            by (split; [done|lia]).
          by rewrite lookup_delete_eq.
        + rewrite (decide_False (P := Some pn = Some pn /\ slot_count k pn = 1))
            by (intros [_ ?]; lia).
          rewrite lookup_insert_eq. do 2 f_equal. lia.
      - rewrite decide_False in Hcount by congruence.
        rewrite (decide_False (P := Some pn = Some f /\ slot_count k f = 1))
          by (intros [? _]; congruence).
        assert ((if decide (reference_count hn = 1%Z)
                 then delete pn (<[po := set_refs ho (reference_count ho + 1)]> (objs k))
                 else <[pn := set_refs hn (reference_count hn - 1)]>
                        (<[po := set_refs ho (reference_count ho + 1)]> (objs k))) !! f
                = <[po := set_refs ho (reference_count ho + 1)]> (objs k) !! f) as ->.
        { destruct (decide (reference_count hn = 1%Z));
            [by rewrite lookup_delete_ne|by rewrite lookup_insert_ne]. }
        destruct (decide (f = po)) as [->|Hfo].
        + rewrite decide_True in Hcount by done.
          assert (h = ho) as -> by congruence.
          rewrite lookup_insert_eq. do 2 f_equal. lia.
        + rewrite decide_False in Hcount by done.
          rewrite lookup_insert_ne by done. rewrite Hf. f_equal.
          rewrite <- (Hsame h) at 1. f_equal. lia. }
    exists k'. split_and!; try done.
    + apply refcount_inv_of_counts.
      * by eapply tables_length_insert.
      * intros f Hf. specialize (Hcount f).
        destruct (decide (f = po)) as [->|Hfo].
        { rewrite (Hobjs _ _ Hpo).
          rewrite (decide_False (P := Some pn = Some po /\ slot_count k po = 1))
            by (intros [? _]; congruence).
          by eexists. }
        rewrite (decide_False (P := po = f)) in Hcount by done.
        destruct (live_of_count k f Hinv) as [h Hh];
          [destruct (decide (Some pn = Some f)); lia|].
        rewrite (Hobjs _ _ Hh).
        destruct (decide (Some pn = Some f /\ slot_count k f = 1)) as [[E1 E2]|];
          [|by eexists].
        rewrite decide_True in Hcount by done. lia.
      * intros f h' Hf'.
        destruct (objs k !! f) as [h|] eqn:Hf.
        { rewrite (Hobjs _ _ Hf) in Hf'.
          destruct (decide (_ /\ _)); [done|]. by injection Hf' as <-. }
        rewrite Ho' in Hf'.
        destruct (decide (reference_count hn = 1%Z)).
        { apply lookup_delete_Some in Hf' as [_ Hf'].
          apply lookup_insert_Some in Hf' as [[<- _]|[_ Hf']]; congruence. }
        apply lookup_insert_Some in Hf' as [[<- _]|[_ Hf']]; [congruence|].
        apply lookup_insert_Some in Hf' as [[<- _]|[_ Hf']]; congruence.
    + specialize (Hcount po). rewrite decide_False in Hcount by congruence.
      rewrite decide_True in Hcount by done. lia.
    + intros pn' hn' [= <-] Hhn'. simplify_eq. rewrite Hc'.
      destruct (decide (reference_count hn = 1%Z)),
        (decide (slot_count k pn = 1)); done || lia.
  - destruct (sys_dup2_onto_free cur oldfd newfd k t po ho)
      as (k' & Hrun & Hk' & Ho' & Hc'); try done.
    specialize (Hcount k' Hk').
    pose proof (HC _ _ Hpo) as Hrco.
    assert (forall f h, objs k !! f = Some h ->
       objs k' !! f =
         if decide (None = Some f /\ slot_count k f = 1) then None
         else Some (set_refs h (Z.of_nat (slot_count k' f)))) as Hobjs.
    { intros f h Hf. pose proof (HC _ _ Hf) as Hrc. specialize (Hcount f).
      rewrite decide_False in Hcount by done.
      rewrite (decide_False (P := None = Some f /\ slot_count k f = 1))
        by (by intros [? _]).
      rewrite Ho'. destruct (decide (f = po)) as [->|Hfo].
      - rewrite decide_True in Hcount by done.
        assert (h = ho) as -> by congruence.
        rewrite lookup_insert_eq. do 2 f_equal. lia.
      - rewrite decide_False in Hcount by done.
        rewrite lookup_insert_ne by done. rewrite Hf. f_equal.
        rewrite <- (Hsame h) at 1. f_equal. lia. }
    exists k'. split_and!; try done.
    + apply refcount_inv_of_counts.
      * by eapply tables_length_insert.
      * intros f Hf. specialize (Hcount f).
        rewrite decide_False in Hcount by done.
        destruct (decide (f = po)) as [->|Hfo].
        { rewrite (Hobjs _ _ Hpo).
          rewrite (decide_False (P := None = Some po /\ slot_count k po = 1))
            by (by intros [? _]).
          by eexists. }
        rewrite decide_False in Hcount by done.
        destruct (live_of_count k f Hinv) as [h Hh]; [lia|].
        rewrite (Hobjs _ _ Hh).
        rewrite (decide_False (P := None = Some f /\ slot_count k f = 1))
          by (by intros [? _]).
        by eexists.
      * intros f h' Hf'.
        destruct (objs k !! f) as [h|] eqn:Hf.
        { rewrite (Hobjs _ _ Hf) in Hf'.
          destruct (decide (_ /\ _)); [done|]. by injection Hf' as <-. }
        rewrite Ho' in Hf'.
        apply lookup_insert_Some in Hf' as [[<- _]|[_ Hf']]; congruence.
    + specialize (Hcount po). rewrite decide_False in Hcount by done.
      rewrite decide_True in Hcount by done. lia.
Qed.

(** *** [sys_open] *)

Lemma refcount_inv_same k k' :
  tables k' = tables k -> objs k' = objs k ->
  refcount_inv k -> refcount_inv k'.
Proof.
  intros Ht Ho (HL & HV & HC). unfold refcount_inv, slot_count.
  rewrite Ht, Ho. done.
Qed.

(** The scan of [sys_open] for the first slot that is [NULL], from
    index [a] on. *)
Lemma open_scan cur fo t n :
  forall a k,
    tables k !! cur = Some t -> length t = Z.to_nat OPEN_MAX ->
    (0 <= a)%Z -> (a + Z.of_nat n = OPEN_MAX)%Z ->
    exists fd k',
      foldr (fun i (rest : M Z) =>
               slot ← read_slot cur i;
               match slot with
               | None => write_slot cur i fo;; ret i
               | Some _ => rest
               end)
            (ret OPEN_MAX) (seqZ a (Z.of_nat n)) k = Val fd k' /\
      objs k' = objs k /\ vfs_closed k' = vfs_closed k /\
      (a <= fd <= OPEN_MAX)%Z /\
      (forall j, (a <= j < fd)%Z -> t !! Z.to_nat j <> Some None) /\
      (if decide (fd = OPEN_MAX) then tables k' = tables k
       else t !! Z.to_nat fd = Some None /\
            tables k' = <[cur := <[Z.to_nat fd := fo]> t]> (tables k)).
Proof.
  induction n as [|n IH]; intros a k Ht Hl Ha Hn.
  - exists OPEN_MAX, k. cbn. rewrite decide_True by done.
    split_and!; try done; intros; lia.
  - rewrite seqZ_cons by lia.
    replace (Z.pred (Z.of_nat (S n))) with (Z.of_nat n) by lia.
    cbn [foldr].
    destruct (lookup_lt_is_Some_2 t (Z.to_nat a)) as [slot Hs]; [lia|].
    assert (0 <= a < OPEN_MAX)%Z as Hin by lia.
    rewrite (bind_val _ _ _ _ _ (read_slot_ok _ _ _ _ _ Ht Hin Hs)).
    destruct slot as [p|].
    + destruct (IH (Z.succ a) (log_read k cur a))
        as (fd & k' & Hrun & Ho & Hc & Hfd & Hlow & Hwhich);
        [done|done|lia|lia|].
      exists fd, k'. split_and!; try done; try lia.
      intros j Hj. destruct (decide (j = a)) as [->|]; [by rewrite Hs|].
      apply Hlow. lia.
    + erewrite bind_val
        by (apply (write_slot_ok _ _ t); [done|lia|lia]).
      eexists a, _. split; [done|]. rewrite decide_False by lia.
      split_and!; try done; intros; lia.
Qed.

(** [sys_open] in a state that satisfies the reference-count invariant,
    [kmalloc] answering fresh memory.  An error of [copyinstr] or
    [vfs_open] is returned with no change; when the object cannot be
    allocated the vnode is closed again and [ENOMEM] returned; otherwise
    the object (offset 0, the flags, one reference) goes into the lowest
    free slot, whose index is returned; with no free slot the object is
    destroyed, the vnode closed and [EMFILE] returned.  The invariant
    holds again in every case. *)
Theorem sys_open_spec path opened kmalloc cur fl k t :
  (0 <= OPEN_MAX)%Z ->
  refcount_inv k -> tables k !! cur = Some t ->
  (forall file, kmalloc = Some file -> objs k !! file = None) ->
  exists r k',
    sys_open path opened kmalloc cur fl k = Val r k' /\
    refcount_inv k' /\
    match path, opened, kmalloc with
    | Err e, _, _ => r = Err e /\ k' = k
    | Ok _, Err e, _ => r = Err e /\ k' = k
    | Ok _, Ok vn, None =>
        r = Err ENOMEM /\ objs k' = objs k /\ tables k' = tables k /\
        vfs_closed k' = vn :: vfs_closed k
    | Ok _, Ok vn, Some file =>
        (exists fd,
           r = Ok fd /\ (0 <= fd < OPEN_MAX)%Z /\
           t !! Z.to_nat fd = Some None /\
           (forall j, (0 <= j < fd)%Z -> t !! Z.to_nat j <> Some None) /\
           tables k' = <[cur := <[Z.to_nat fd := Some file]> t]> (tables k) /\
           objs k' = <[file := OpenFile 0 fl vn 1]> (objs k) /\
           vfs_closed k' = vfs_closed k) \/
        (r = Err EMFILE /\
         (forall j, (0 <= j < OPEN_MAX)%Z -> t !! Z.to_nat j <> Some None) /\
         objs k' = objs k /\ tables k' = tables k /\
         vfs_closed k' = vn :: vfs_closed k)
    end.
Proof.
  intros Hmax Hinv Ht Hfresh. pose proof Hinv as (HL & HV & HC).
  unfold sys_open.
  destruct path as [[]|e]; [|by exists (Err e), k].
  destruct opened as [vn|e]; [|by exists (Err e), k].
  destruct kmalloc as [file|].
  2:{ eexists _, _. split; [done|]. split; [|done].
      by apply (refcount_inv_same k). }
  specialize (Hfresh file eq_refl).
  set (k1 := set_objs k (<[file := OpenFile 0 fl vn 1]> (objs k))).
  assert (create_open_file (Some file) vn fl k = Val (Some file) k1) as Hnew
    by done.
  rewrite (bind_val _ _ _ _ _ Hnew).
  destruct (open_scan cur (Some file) t (Z.to_nat OPEN_MAX) 0 k1)
    as (fd & k2 & Hrun & Ho2 & Hc2 & Hfd & Hlow & Hwhich);
    [done|by eapply HL|lia|lia|].
  rewrite Z2Nat.id in Hrun by lia.
  rewrite (bind_val _ _ _ _ _ Hrun).
  destruct (Z.eqb_spec fd OPEN_MAX) as [->|Hne].
  - rewrite decide_True in Hwhich by done.
    assert (open_file_destroy file k2 =
            Val tt (set_objs (log_close k2 vn) (delete file (objs k2))))
      as Hdestroy.
    { unfold open_file_destroy.
      erewrite bind_val
        by (apply load_ok; rewrite Ho2; apply lookup_insert_eq).
      done. }
    rewrite (bind_val _ _ _ _ _ Hdestroy).
    eexists _, _. split; [done|].
    assert (delete file (objs k2) = objs k) as Hback.
    { rewrite Ho2. cbn. by apply delete_insert_id. }
    split.
    + apply (refcount_inv_same k); [|done|done]. cbn. by rewrite Hwhich.
    + right. cbn. split_and!; try done. by rewrite Hc2.
  - rewrite decide_False in Hwhich by done. destruct Hwhich as [Hs Hk2].
    exists (Ok fd), k2. split; [done|].
    assert (slot_count k file = 0) as Hzero.
    { destruct (decide (slot_count k file = 0)) as [|Hnz]; [done|].
      destruct (live_of_count k file Hinv Hnz) as [h Hh]. congruence. }
    split.
    + apply refcount_inv_of_counts.
      * by eapply (tables_length_insert k).
      * intros f Hf. rewrite Ho2. cbn.
        destruct (decide (f = file)) as [->|Hfn];
          [rewrite lookup_insert_eq; by eexists|].
        rewrite lookup_insert_ne by done. apply (live_of_count k f Hinv).
        pose proof (slot_count_slot k k2 cur t _ None (Some file) f Ht Hs Hk2)
          as Hcount.
        rewrite decide_False in Hcount by done.
        rewrite decide_False in Hcount by congruence. lia.
      * intros f h. rewrite Ho2. cbn.
        pose proof (slot_count_slot k k2 cur t _ None (Some file) f Ht Hs Hk2)
          as Hcount.
        rewrite decide_False in Hcount by done.
        destruct (decide (f = file)) as [->|Hfn].
        -- rewrite lookup_insert_eq. intros [= <-]. cbn.
           rewrite decide_True in Hcount by done. lia.
        -- rewrite lookup_insert_ne by done. intros Hf.
           rewrite decide_False in Hcount by congruence.
           rewrite (HC _ _ Hf). lia.
    + left. exists fd. split_and!; try done; lia.
Qed.

(** *** [copy_file_table] *)

(** The loop of [copy_file_table] from index [a] on, the first [a] slots
    being copied already. *)
Lemma copy_loop ft new t n :
  forall a k,
    a + n = Z.to_nat OPEN_MAX -> length t = Z.to_nat OPEN_MAX ->
    new <> ft ->
    tables k !! ft = Some t ->
    tables k !! new = Some (take a t ++ replicate n None) ->
    slots_live k t ->
    exists k',
      for_each (seqZ (Z.of_nat a) (Z.of_nat n)) (fun i =>
        f ← read_slot ft i;
        match f with
        | Some file =>
            write_slot new i (Some file);;
            f' ← read_slot ft i;
            open_file_incref f'
        | None => ret tt
        end) k = Val tt k' /\
      tables k' = <[new := t]> (tables k) /\
      vfs_closed k' = vfs_closed k /\
      (forall f, objs k' !! f =
         (fun h => set_refs h (reference_count h
                               + Z.of_nat (slots_in f (drop a t))))
           <$> objs k !! f).
Proof.
  induction n as [|n IH]; intros a k Han Hl Hne Ht Hnew Hlive.
  - exists k. cbn. split_and!; try done.
    + rewrite take_ge, app_nil_r in Hnew by lia. by rewrite insert_id.
    + intros f. rewrite drop_ge by lia.
      destruct (objs k !! f) as [[]|]; cbn; [|done].
      do 2 f_equal. unfold slots_in. cbn. lia.
  - rewrite seqZ_cons by lia.
    replace (Z.pred (Z.of_nat (S n))) with (Z.of_nat n) by lia.
    replace (Z.succ (Z.of_nat a)) with (Z.of_nat (S a)) by lia.
    cbn [for_each].
    destruct (lookup_lt_is_Some_2 t a) as [slot Hs]; [lia|].
    assert (0 <= Z.of_nat a < OPEN_MAX)%Z as Hin by lia.
    assert (t !! Z.to_nat (Z.of_nat a) = Some slot) as Hs'
      by (by rewrite Nat2Z.id).
    assert (take (S a) t = take a t ++ [slot]) as Htake
      by (by apply take_S_r).
    assert (drop a t = slot :: drop (S a) t) as Hdrop
      by (by apply drop_S).
    destruct slot as [file|].
    + destruct (Hlive _ _ Hs) as [h Hh].
      set (k1 := log_read k ft (Z.of_nat a)).
      set (tn := <[a := Some file]> (take a t ++ replicate (S n) None)).
      set (k2 := set_tables k1 (<[new := tn]> (tables k1))).
      set (k3 := log_read k2 ft (Z.of_nat a)).
      set (k4 := set_objs k3 (<[file := set_refs h (reference_count h + 1)]>
                                (objs k3))).
      assert (tn = take (S a) t ++ replicate n None) as Htn.
      { subst tn. rewrite Htake. cbn [replicate].
        rewrite insert_app_r_alt by (rewrite length_take; lia).
        rewrite length_take, Nat.min_l, Nat.sub_diag by lia.
        cbn. by rewrite <- app_assoc. }
      destruct (IH (S a) k4) as (k' & Hrun & Hk' & Hc' & Ho');
        [lia|done|done| | | |].
      { cbn. by rewrite lookup_insert_ne. }
      { cbn. by rewrite lookup_insert_eq, Htn. }
      { intros i f Hi. cbn. destruct (decide (f = file)) as [->|];
          [rewrite lookup_insert_eq; by eexists|].
        rewrite lookup_insert_ne by done. by eapply Hlive. }
      exists k'. split_and!.
      * assert ((f ← read_slot ft (Z.of_nat a);
                 match f with
                 | Some file0 =>
                     write_slot new (Z.of_nat a) (Some file0);;
                     f' ← read_slot ft (Z.of_nat a);
                     open_file_incref f'
                 | None => ret tt
                 end) k = Val tt k4) as Hbody.
        { rewrite (bind_val _ _ _ _ _ (read_slot_ok _ _ _ _ _ Ht Hin Hs')).
          erewrite bind_val.
          2:{ apply (write_slot_ok _ _ (take a t ++ replicate (S n) None));
                [done|done|].
              rewrite length_app, length_take, length_replicate, Nat2Z.id.
              lia. }
          rewrite Nat2Z.id. fold tn. fold k2.
          erewrite bind_val.
          2:{ apply (read_slot_ok _ _ t); [|done|done].
              cbn. by rewrite lookup_insert_ne. }
          fold k3. by apply (open_file_incref_ok _ _ h). }
        by rewrite (bind_val _ _ _ _ _ Hbody).
      * rewrite Hk'. cbn. by rewrite insert_insert_eq.
      * by rewrite Hc'.
      * intros f. rewrite Ho', Hdrop, slots_in_cons. cbn.
        destruct (decide (f = file)) as [->|Hf].
        -- rewrite lookup_insert_eq, Hh, decide_True by done. cbn.
           do 2 f_equal. lia.
        -- rewrite lookup_insert_ne by done.
           rewrite decide_False by congruence.
           destruct (objs k !! f); [|done]. cbn. do 2 f_equal.
    + destruct (IH (S a) (log_read k ft (Z.of_nat a)))
        as (k' & Hrun & Hk' & Hc' & Ho'); [lia|done|done|done| |done|].
      { cbn. rewrite Hnew, Htake. cbn [replicate].
        by rewrite <- app_assoc. }
      exists k'. split_and!; try done.
      * assert ((f ← read_slot ft (Z.of_nat a);
                 match f with
                 | Some file0 =>
                     write_slot new (Z.of_nat a) (Some file0);;
                     f' ← read_slot ft (Z.of_nat a);
                     open_file_incref f'
                 | None => ret tt
                 end) k = Val tt (log_read k ft (Z.of_nat a))) as Hbody
          by (by rewrite (bind_val _ _ _ _ _
                            (read_slot_ok _ _ _ _ _ Ht Hin Hs'))).
        by rewrite (bind_val _ _ _ _ _ Hbody).
      * intros f. rewrite Ho', Hdrop, slots_in_cons.
        by rewrite decide_False.
Qed.

(** [copy_file_table], as [fork] uses it, in a state that satisfies the
    reference-count invariant and with fresh memory for the new table.
    The new table has the parent's slots; every open-file object is
    shared, not copied, and counts as many references more as the parent
    has slots for it; nothing is closed; the invariant holds again.
    When the table cannot be allocated the call returns [NULL] and
    changes nothing. *)
Theorem copy_file_table_shares ft new k t :
  (0 <= OPEN_MAX)%Z ->
  refcount_inv k -> tables k !! ft = Some t -> tables k !! new = None ->
  copy_file_table None ft k = Val None k /\
  exists k',
    copy_file_table (Some new) ft k = Val (Some new) k' /\
    refcount_inv k' /\
    tables k' = <[new := t]> (tables k) /\
    vfs_closed k' = vfs_closed k /\
    (forall f, objs k' !! f =
       (fun h => set_refs h (reference_count h + Z.of_nat (slots_in f t)))
         <$> objs k !! f).
Proof.
  intros Hmax Hinv Ht Hnew. split; [done|].
  pose proof Hinv as (HL & HV & HC). pose proof (HL _ _ Ht) as Hl.
  assert (new <> ft) as Hne by congruence.
  set (k1 := set_tables k (<[new := replicate (Z.to_nat OPEN_MAX) None]>
                             (tables k))).
  destruct (copy_loop ft new t (Z.to_nat OPEN_MAX) 0 k1)
    as (k' & Hrun & Hk' & Hc' & Ho'); [lia|done|done| | | |].
  { cbn. by rewrite lookup_insert_ne. }
  { cbn. by rewrite lookup_insert_eq. }
  { intros i f Hi. by eapply HV. }
  rewrite Z2Nat.id in Hrun by lia. cbn in Hk', Hc', Ho'.
  change (drop 0 t) with t in Ho'.
  rewrite insert_insert_eq in Hk'.
  exists k'. split_and!; try done.
  - unfold copy_file_table.
    assert (create_file_table (Some new) k = Val (Some new) k1) as Hcreate
      by done.
    rewrite (bind_val _ _ _ _ _ Hcreate).
    by rewrite (bind_val _ _ _ _ _ Hrun).
  - assert (forall f, slot_count k' f = slots_in f t + slot_count k f)
      as Hcount by (intros f; by apply (slot_count_fresh k k' new)).
    apply refcount_inv_of_counts.
    + intros ft' t'. rewrite Hk'.
      destruct (decide (ft' = new)) as [->|].
      * rewrite lookup_insert_eq. by intros [= <-].
      * rewrite lookup_insert_ne by done. apply HL.
    + intros f Hf. rewrite Ho', Hcount in *.
      destruct (decide (slots_in f t = 0)) as [Hz|Hnz].
      * destruct (live_of_count k f Hinv) as [h ->]; [lia|]. by eexists.
      * destruct (slots_in_pos_inv _ _ Hnz) as [i Hi].
        destruct (HV _ _ _ _ Ht Hi) as [h ->]. by eexists.
    + intros f h'. rewrite Ho', Hcount.
      destruct (objs k !! f) as [h|] eqn:Hf; [|done].
      cbn. intros [= <-]. cbn. rewrite (HC _ _ Hf). lia.
Qed.

(** *** [sys_read] and [sys_write] *)







End Generic.

Section Runs.
Local Existing Instance os161.

(** Closing descriptor 0 of the console process closes vnode 100. *)
Lemma sys_close_releases_witness :
  exists k',
    sys_close 1 0 console_state = Val (Ok tt) k' /\
    refcount_inv k' /\ vfs_closed k' = [100].
Proof.
  destruct (sys_close_releases 1 0 console_state console_table 10)
    as (h & k' & Hh & Hrun & Hinv & _ & Hlast & _).
  - exact console_state_inv.
  - reflexivity.
  - unfold OPEN_MAX. cbn. lia.
  - reflexivity.
  - exists k'. split; [exact Hrun|]. split; [exact Hinv|].
    rewrite decide_True in Hlast by (by vm_compute).
    destruct Hlast as [_ ->].
    vm_compute in Hh. by injection Hh as <-.
Defined.

(** [dup2(0, 5)] on the console process. *)
Lemma sys_dup2_redirects_witness :
  exists k',
    sys_dup2 1 0 5 console_state = Val (Ok 5%Z) k' /\
    refcount_inv k' /\ slot_count k' 10 = 2.
Proof.
  destruct (sys_dup2_redirects 1 0 5 console_state console_table 10 None)
    as (k' & Hrun & Hinv & _ & Hcount & _).
  - exact console_state_inv.
  - reflexivity.
  - unfold OPEN_MAX. cbn. lia.
  - unfold OPEN_MAX. cbn. lia.
  - lia.
  - reflexivity.
  - reflexivity.
  - done.
  - exists k'. split; [exact Hrun|]. split; [exact Hinv|].
    rewrite Hcount. by vm_compute.
Defined.

(** The console process opens a file: the object lands at address 13
    and the call returns a descriptor. *)
Lemma sys_open_spec_witness :
  exists r k',
    sys_open (Ok tt) (Ok 200) (Some 13) 1 0 console_state = Val r k' /\
    refcount_inv k' /\ r <> Err ENOMEM.
Proof.
  destruct (sys_open_spec (Ok tt) (Ok 200) (Some 13) 1 0 console_state
              console_table)
    as (r & k' & Hrun & Hinv & Hcase).
  - unfold OPEN_MAX. cbn. lia.
  - exact console_state_inv.
  - reflexivity.
  - intros file [= <-]. reflexivity.
  - exists r, k'. split; [exact Hrun|]. split; [exact Hinv|].
    destruct Hcase as [(fd & -> & _)|(-> & _)]; discriminate.
Defined.

(** The console process forks: the child's table at address 2. *)
Lemma copy_file_table_shares_witness :
  exists k',
    copy_file_table (Some 2) 1 console_state = Val (Some 2) k' /\
    refcount_inv k' /\
    tables k' = <[2 := console_table]> (tables console_state).
Proof.
  destruct (copy_file_table_shares 1 2 console_state console_table)
    as (_ & k' & Hrun & Hinv & Ht & _).
  - unfold OPEN_MAX. cbn. lia.
  - exact console_state_inv.
  - reflexivity.
  - reflexivity.
  - by exists k'.
Defined.



End Runs.
End FilesLaws.

(* ------------------------------------------------------------------ *)
(** ** More on processes and PIDs *)

Module ProcsLaws.
Import Procs ProcsSpec.

Section Generic.
Context {hdr : headers}.

Lemma proc_get_in_range pid k :
  (PID_MIN <= pid < PID_MAX)%Z -> proc_get pid k = pid_table k !! pid.
Proof.
  intros H. unfold proc_get.
  destruct (Z.leb_spec PID_MIN pid), (Z.ltb_spec pid PID_MAX); done || lia.
Qed.

Lemma proc_get_table k k' pid :
  pid_table k' = pid_table k -> proc_get pid k' = proc_get pid k.
Proof. intros H. unfold proc_get. by rewrite H. Qed.

Lemma proc_create_fresh p stale name k j :
  pid_table_ok k -> procs k !! p = None -> p <> kproc k ->
  name <> "[kernel]" ->
  (PID_MIN <= j < PID_MAX)%Z -> pid_table k !! j = None ->
  exists pid,
    proc_create (Some p) true stale name k =
      (Some p,
       set_procs (set_pid_table k (<[pid := p]> (pid_table k)))
         (<[p := Proc name None None stale pid (-1) 0 false]> (procs k))) /\
    (PID_MIN <= pid <= j)%Z /\ pid_table k !! pid = None /\
    (forall j', (PID_MIN <= j' < pid)%Z -> is_Some (pid_table k !! j')).
Proof.
  intros Hok Hfresh Hnk Hname Hj Hfree.
  destruct (proc_allocpid_lowest p k j Hj Hfree)
    as (pid & Halloc & Hpid & Hnone & Hlow).
  exists pid. split; [|split_and!; try done; lia].
  unfold proc_create. cbn [negb].
  destruct (String.eqb_spec name "[kernel]") as [E|_]; [by destruct Hname|].
  cbn [negb]. by rewrite Halloc.
Qed.

(** Entering a fresh structure under a free PID keeps the PID table
    consistent. *)
Lemma pid_table_ok_insert k k' p pid c :
  pid_table_ok k -> procs k !! p = None -> p <> kproc k ->
  p_pid c = pid ->
  procs k' = <[p := c]> (procs k) ->
  pid_table k' = <[pid := p]> (pid_table k) -> kproc k' = kproc k ->
  pid_table_ok k'.
Proof.
  intros Hok Hfresh Hnk Hpid Hp Ht Hk i c0. rewrite Hp, Ht, Hk.
  destruct (decide (i = pid)) as [->|Hi].
  - rewrite lookup_insert_eq. intros [= <-]. split; [done|].
    exists c. by rewrite lookup_insert_eq.
  - rewrite lookup_insert_ne by done. intros Hc.
    destruct (Hok _ _ Hc) as (Hck & pr & Hpr & Hpp). split; [done|].
    exists pr. split; [|done].
    rewrite lookup_insert_ne; [done|]. intros ->. congruence.
Qed.

(** [proc_create] for a user process while a PID is free, [kmalloc]
    answering fresh memory.  The structure is registered under the lowest
    free PID of [PID_MIN, PID_MAX) and carries that PID; it has no
    parent yet, has not exited and owns no address space or directory;
    its [file_table] field is not written and holds what the memory held
    before; [proc_get] finds the structure under its PID and answers as
    before for every other PID; the PID table stays consistent with the
    process structures.  When [kmalloc] or [kstrdup] fails nothing is
    created and no PID is used up. *)
Theorem proc_create_registers p stale name k j :
  pid_table_ok k -> procs k !! p = None -> p <> kproc k ->
  name <> "[kernel]" ->
  (PID_MIN <= j < PID_MAX)%Z -> pid_table k !! j = None ->
  proc_create None true stale name k = (None, k) /\
  proc_create (Some p) false stale name k = (None, k) /\
  exists pid k',
    proc_create (Some p) true stale name k = (Some p, k') /\
    (PID_MIN <= pid <= j)%Z /\ proc_get pid k = None /\
    (forall j', (PID_MIN <= j' < pid)%Z -> is_Some (proc_get j' k)) /\
    procs k' = <[p := Proc name None None stale pid (-1) 0 false]> (procs k) /\
    pid_table k' = <[pid := p]> (pid_table k) /\
    proc_get pid k' = Some p /\
    (forall i, i <> pid -> proc_get i k' = proc_get i k) /\
    pid_table_ok k' /\
    calls k' = calls k /\ umem k' = umem k /\ kproc k' = kproc k.
Proof.
  intros Hok Hfresh Hnk Hname Hj Hfree. split; [done|]. split; [done|].
  destruct (proc_create_fresh p stale name k j Hok Hfresh Hnk Hname Hj Hfree)
    as (pid & Hrun & Hpid & Hnone & Hlow).
  exists pid. eexists. split; [exact Hrun|].
  cbn [procs pid_table calls umem kproc set_procs set_pid_table].
  split_and!; try done.
  - lia.
  - lia.
  - rewrite proc_get_in_range by lia. done.
  - intros j' Hj'. rewrite proc_get_in_range by lia. apply Hlow. lia.
  - unfold proc_get. cbn [pid_table set_procs set_pid_table].
    destruct (Z.leb_spec PID_MIN pid), (Z.ltb_spec pid PID_MAX); try lia.
    cbn. apply lookup_insert_eq.
  - intros i Hi. unfold proc_get. cbn [pid_table set_procs set_pid_table].
    by rewrite lookup_insert_ne.
  - apply (pid_table_ok_insert k _ p pid
             (Proc name None None stale pid (-1) 0 false)); done.
Qed.

(** After a child was reaped.  [sys_waitpid] on an exited child of the
    caller makes the three calls of [proc_destroy] (the reference on the
    working directory is dropped, then the address space and then the
    file table are destroyed), frees the structure and the PID; the PID
    table stays consistent; waiting for the same PID again gives
    [ESRCH]; and the next [proc_allocpid] hands out a PID at or below
    the one just freed. *)
Theorem sys_waitpid_frees_pid uaddr_ok cur pid status k me c child :
  procs k !! cur = Some me -> pid_table_ok k ->
  proc_get pid k = Some c -> procs k !! c = Some child ->
  p_parent child = p_pid me -> p_exited child = true ->
  (status = 0%Z \/ uaddr_ok status = true) ->
  exists k',
    sys_waitpid uaddr_ok cur pid status 0 k = Returns (Ok pid) k' /\
    pid_table_ok k' /\
    calls k' =
      (match file_table child with
       | Some ft => [destroy_file_table ft] | None => [] end) ++
      (match p_addrspace child with
       | Some a => [as_destroy a] | None => [] end) ++
      (match p_cwd child with
       | Some vn => [VOP_DECREF vn] | None => [] end) ++ calls k /\
    procs k' !! c = None /\
    (forall c', c' <> c -> procs k' !! c' = procs k !! c') /\
    (forall status', sys_waitpid uaddr_ok cur pid status' 0 k' =
                     Returns (Err ESRCH) k') /\
    (forall p', exists i,
        proc_allocpid p' k' =
          (i, set_pid_table k' (<[i := p']> (pid_table k'))) /\
        (PID_MIN <= i <= pid)%Z).
Proof.
  intros Hme Hok Hget Hc Hpar Hex Hst.
  destruct (proc_get_Some _ _ _ Hget) as [Hrange Hslot].
  destruct (Hok _ _ Hslot) as (Hnk & pr & Hpr & Hpid).
  rewrite Hc in Hpr. injection Hpr as <-.
  set (cs := (match file_table child with
              | Some ft => [destroy_file_table ft] | None => [] end) ++
             (match p_addrspace child with
              | Some a => [as_destroy a] | None => [] end) ++
             (match p_cwd child with
              | Some vn => [VOP_DECREF vn] | None => [] end)).
  assert (exists k',
    sys_waitpid uaddr_ok cur pid status 0 k = Returns (Ok pid) k' /\
    procs k' = delete c (procs k) /\
    pid_table k' = delete pid (pid_table k) /\
    kproc k' = kproc k /\ calls k' = cs ++ calls k)
    as (k' & Hrun & Hp' & Ht' & Hk' & Hc').
  { unfold sys_waitpid. cbn [Z.eqb negb]. rewrite Hget, Hc, Hme, Hpar.
    rewrite Z.eqb_refl, Hex. cbn [negb].
    assert (forall k1, procs k1 = procs k -> pid_table k1 = pid_table k ->
                       kproc k1 = kproc k -> calls k1 = calls k ->
              exists k2, proc_destroy c k1 = Some k2 /\
                         procs k2 = delete c (procs k) /\
                         pid_table k2 = delete pid (pid_table k) /\
                         kproc k2 = kproc k /\ calls k2 = cs ++ calls k)
      as Hdestroy.
    { intros k1 Hp Ht Hk Hcl. unfold proc_destroy.
      rewrite decide_False by (by rewrite Hk). rewrite Hp, Hc.
      eexists. split; [done|]. cbn.
      rewrite Hp, Ht, Hpid, Hk, Hcl. split_and!; try done;
        subst cs; by rewrite <- !app_assoc. }
    destruct (Z.eqb_spec status 0) as [->|Hnz]; cbn [negb].
    - destruct (Hdestroy k) as (k2 & -> & ?); [done..|]. by exists k2.
    - destruct Hst as [?|Hu]; [done|].
      unfold copyout_int. rewrite Hu.
      destruct (Hdestroy (set_umem k (<[status := p_exitcode child]> (umem k))))
        as (k2 & -> & ?); [done..|]. by exists k2. }
  assert (proc_get pid k' = None) as Hgone.
  { unfold proc_get. rewrite Ht', lookup_delete_eq. by destruct (_ && _). }
  exists k'. split_and!; try done.
  - intros i c0. rewrite Ht', Hp', Hk'. intros Hi.
    apply lookup_delete_Some in Hi as [Hne Hi].
    destruct (Hok _ _ Hi) as (Hck & pr & Hpr & Hpp). split; [done|].
    exists pr. split; [|done].
    rewrite lookup_delete_ne; [done|]. intros ->.
    rewrite Hc in Hpr. injection Hpr as <-. congruence.
  - rewrite Hc'. subst cs. by rewrite <- !app_assoc.
  - rewrite Hp'. apply lookup_delete_eq.
  - intros c' Hne. rewrite Hp'. by apply lookup_delete_ne.
  - intros status'. unfold sys_waitpid. cbn [Z.eqb negb]. by rewrite Hgone.
  - intros p'.
    destruct (proc_allocpid_lowest p' k' pid Hrange) as (i & Hi & Hle & _).
    { rewrite Ht'. apply lookup_delete_eq. }
    by exists i.
Qed.

End Generic.

Section Runs.
Local Existing Instance os161.

(** A third process joins the family under PID 4; the memory it gets
    held 9 where the [file_table] field lies. *)
Lemma proc_create_registers_witness :
  exists k',
    proc_create (Some 3%Z) true (Some 9) "ls" family = (Some 3%Z, k') /\
    procs k' !! 3%Z = Some (Proc "ls" None None (Some 9) 4 (-1) 0 false) /\
    proc_get 4 k' = Some 3%Z /\ pid_table_ok k'.
Proof.
  destruct (proc_create_registers 3 (Some 9) "ls" family 4)
    as (_ & _ & pid & k' & Hrun & Hpid & Hnone & _ & Hp & _ & Hget & _ & Hok & _).
  - exact family_ok.
  - reflexivity.
  - discriminate.
  - discriminate.
  - unfold PID_MIN, PID_MAX. cbn. lia.
  - reflexivity.
  - assert (pid = 4%Z) as ->.
    { destruct (decide (pid = 4%Z)) as [|Hne]; [done|].
      assert (pid = 2 \/ pid = 3)%Z as [->| ->]
        by (unfold PID_MIN in Hpid; cbn in Hpid; lia).
      - vm_compute in Hnone. discriminate.
      - vm_compute in Hnone. discriminate. }
    exists k'. split; [exact Hrun|]. split; [|by split].
    rewrite Hp. apply lookup_insert_eq.
Defined.

Lemma family_after_exit_ok : pid_table_ok family_after_exit.
Proof.
  intros i c Hi.
  assert (pid_table family_after_exit = pid_table family) as Ht
    by (by vm_compute).
  rewrite Ht in Hi. unfold family in Hi. cbn [pid_table] in Hi.
  destruct (decide (i = 2%Z)) as [->|]; [|destruct (decide (i = 3%Z)) as [->|]].
  - rewrite lookup_insert_eq in Hi. injection Hi as <-.
    split; [done|]. eexists. split; [by vm_compute|done].
  - rewrite lookup_insert_ne, lookup_singleton_eq in Hi by done.
    injection Hi as <-. split; [done|]. eexists. split; [by vm_compute|done].
  - rewrite lookup_insert_ne, lookup_singleton_ne in Hi by done. done.
Qed.

(** The parent reaps its exited child (PID 3). *)
Lemma sys_waitpid_frees_pid_witness :
  exists k',
    sys_waitpid (fun _ => true) 1 3 0 0 family_after_exit =
      Returns (Ok 3%Z) k' /\
    pid_table_ok k' /\
    calls k' = [destroy_file_table 2; as_destroy 2; VOP_DECREF 50].
Proof.
  destruct (sys_waitpid_frees_pid (fun _ => true) 1 3 0 family_after_exit
              (Proc "sh" (Some 1) (Some 50) (Some 1) 2 (-1) 0 false) 2
              (Proc "sh" (Some 2) (Some 50) (Some 2) 3 2
                    (MKWAIT_EXIT (Z.land 7 0xff)) true))
    as (k' & Hrun & Hok & Hcalls & _).
  - reflexivity.
  - exact family_after_exit_ok.
  - reflexivity.
  - reflexivity.
  - reflexivity.
  - reflexivity.
  - by left.
  - exists k'. split; [exact Hrun|]. split; [exact Hok|exact Hcalls].
Defined.

End Runs.
End ProcsLaws.

(* ------------------------------------------------------------------ *)
(** ** More on [sys_execv] *)

(* ------------------------------------------------------------------ *)
(** ** [sys_execv] *)

Module ExecvSpec.
Import Execv.

(** *** What the accesses to user memory keep *)

Section Invariant.
Context {hdr : headers}.
Variable I : kstate -> Prop.
Hypothesis I_access : forall e uaddr k, I k -> I (user_access e uaddr k).

Lemma measure_arg_inv e p rounds :
  forall arglen k r k',
    I k -> measure_arg e p arglen rounds k = Some (r, k') -> I k'.
Proof using I_access.
  induction rounds as [|n IH]; intros arglen k r k' Hk; cbn [measure_arg];
    [done|].
  pose proof (I_access e (u32 (p + arglen)) k Hk) as Hk1.
  destruct (copyin_byte e _) as [ch|err]; [|by intros [= <- <-]].
  destruct (ARG_MAX <? _)%Z; [by intros [= <- <-]|].
  destruct (ch =? 0)%Z; [by intros [= <- <-]|].
  by apply IH.
Qed.

Lemma count_args_inv e argv rounds :
  forall argc total k r k',
    I k -> count_args e argv argc total rounds k = Some (r, k') -> I k'.
Proof using I_access.
  induction rounds as [|n IH]; intros argc total k r k' Hk; cbn [count_args];
    [done|].
  pose proof (I_access e (u32 (argv + argc * sizeof_ptr)) k Hk) as Hk1.
  destruct (copyin_ptr e _) as [cur|err]; [|by intros [= <- <-]].
  destruct (cur =? 0)%Z; [by intros [= <- <-]|].
  destruct (measure_arg e cur 0 _ _) as [[[arglen|err] k2]|] eqn:E; [| |done].
  - pose proof (measure_arg_inv _ _ _ _ _ _ _ Hk1 E) as Hk2.
    destruct (ARG_MAX <? _)%Z; [by intros [= <- <-]|]. by apply IH.
  - pose proof (measure_arg_inv _ _ _ _ _ _ _ Hk1 E) as Hk2.
    by intros [= <- <-].
Qed.

Lemma copy_args_inv e argv n :
  forall i k r k', I k -> copy_args e argv i n k = (r, k') -> I k'.
Proof using I_access.
  induction n as [|n IH]; intros i k r k' Hk; cbn [copy_args];
    [by intros [= <- <-]|].
  pose proof (I_access e (u32 (argv + i * sizeof_ptr)) k Hk) as Hk1.
  destruct (copyin_ptr e _) as [cur|err]; [|by intros [= <- <-]].
  pose proof (I_access e cur _ Hk1) as Hk2.
  destruct (copyinstr e cur ARG_MAX) as [karg|err]; [|by intros [= <- <-]].
  destruct (ARG_MAX <? _)%Z; [by intros [= <- <-]|].
  destruct (copy_args e argv (i + 1) n _) as [[rest|err] k3] eqn:E;
    intros [= <- <-]; by eapply IH.
Qed.

Lemma push_strings_inv e strs :
  forall sp k r k', I k -> push_strings e strs sp k = (r, k') -> I k'.
Proof using I_access.
  induction strs as [|str strs IH]; intros sp k r k' Hk; cbn [push_strings];
    [by intros [= <- <-]|].
  pose proof (I_access e (u32 (sp - (Z.of_nat (length str) + 1))) k Hk) as Hk1.
  destruct (copyout e _ _); [by intros [= <- <-]|].
  destruct (push_strings e strs _ _) as [[[ptrs sp1]|err] k2] eqn:E;
    intros [= <- <-]; by eapply IH.
Qed.

Lemma push_pointers_inv e ptrs :
  forall sp k r k', I k -> push_pointers e ptrs sp k = (r, k') -> I k'.
Proof using I_access.
  induction ptrs as [|w ptrs IH]; intros sp k r k' Hk; cbn [push_pointers];
    [by intros [= <- <-]|].
  pose proof (I_access e (u32 (sp - sizeof_ptr)) k Hk) as Hk1.
  destruct (copyout e _ _); [by intros [= <- <-]|].
  by apply IH.
Qed.

End Invariant.

Section Generic.
Context {hdr : headers}.

Lemma set_addrspace_back pr a :
  set_addrspace (set_addrspace pr a) (Procs.p_addrspace pr) = pr.
Proof. by destruct pr. Qed.

Lemma kept_refl old v k :
  spaces k !! old = Some v -> VM.pt_ok v -> kept old v k k.
Proof.
  intros Hv Hpt. split; [done|]. exists v.
  split; [by rewrite insert_id|].
  split; [apply VMLaws.same_layout_refl|]. split; [done|]. by intros va _.
Qed.

(** An access to user memory by a process that runs in [old] changes
    that address space only, and only by mapping pages. *)
Lemma user_access_kept old v k e uaddr k1 :
  Procs.p_addrspace (curproc k) = Some old ->
  kept old v k k1 -> kept old v k (user_access e uaddr k1).
Proof.
  intros Hold (Hcur & v1 & Hsp & Hlay & Hpt & Hext).
  unfold user_access, vm_store, vm_view. rewrite Hcur, Hold.
  split; [done|]. cbn [spaces].
  assert (spaces k1 !! old = Some v1) as Hv1
    by (rewrite Hsp; apply lookup_insert_eq).
  rewrite Hv1.
  destruct (VMLaws.take_faults_keeps (faults e k1 uaddr)
              {| VM.cur_as := Some v1; VM.tlb := tlb k1; VM.cm := cm k1 |}
              v1 eq_refl Hpt) as (v2 & -> & Hpt2 & Hlay2 & Hext2).
  exists v2. rewrite Hsp, insert_insert_eq. split; [done|].
  split; [by eapply VMLaws.same_layout_trans|]. split; [done|].
  by eapply VMLaws.pt_extends_trans.
Qed.



Lemma vm_store_switched as_ k1 vk k2 :
  switched as_ k1 k2 -> switched as_ k1 (vm_store vk k2).
Proof.
  intros (Hcur & vn & Hsp). unfold vm_store. split; [done|].
  cbn [spaces]. rewrite Hcur. cbn [set_addrspace Procs.p_addrspace].
  destruct (VM.cur_as vk) as [v|]; [|by exists vn].
  exists v. by rewrite Hsp, insert_insert_eq.
Qed.

Lemma user_access_switched as_ k1 e uaddr k2 :
  switched as_ k1 k2 -> switched as_ k1 (user_access e uaddr k2).
Proof. apply vm_store_switched. Qed.

Lemma set_space_switched as_ k1 k2 a :
  switched as_ k1 k2 -> switched as_ k1 (set_space k2 as_ a).
Proof.
  intros (Hcur & vn & Hsp). split; [done|]. exists a.
  cbn [spaces set_space]. by rewrite Hsp, insert_insert_eq.
Qed.

(** The switch itself. *)
Lemma switch_switched as_ k1 :
  switched as_ k1
    (as_activate (snd (proc_setas (Some as_)
                         (set_space k1 as_ VM.as_create)))).
Proof.
  unfold as_activate, proc_setas, set_space. cbn [snd curproc spaces].
  cbn [set_addrspace Procs.p_addrspace]. split; [done|]. by eexists.
Qed.

(** Backing out of the switch gives the caller its process structure and
    the heap of address spaces back, whatever became of the new address
    space in between. *)
Lemma back_out_restores r as_ k1 k2 err k' :
  switched as_ k1 k2 -> spaces k1 !! as_ = None ->
  back_out r (Procs.p_addrspace (curproc k1)) as_ k2 = Fails err k' ->
  r = err /\ curproc k' = curproc k1 /\ spaces k' = spaces k1.
Proof.
  intros (Hcur & vn & Hsp) Hfresh. unfold back_out, as_destroy.
  assert (spaces (as_activate (snd (proc_setas
                    (Procs.p_addrspace (curproc k1)) k2))) = spaces k2 /\
          curproc (as_activate (snd (proc_setas
                    (Procs.p_addrspace (curproc k1)) k2))) = curproc k1)
    as [-> Hc].
  { unfold as_activate, proc_setas. cbn [snd curproc].
    rewrite Hcur, set_addrspace_back.
    by destruct (Procs.p_addrspace (curproc k1)). }
  rewrite Hsp, lookup_insert_eq.
  destruct (VM.as_destroy vn _) as [s|]; [|done].
  intros [= <- <-]. cbn [curproc spaces]. split; [done|]. split; [done|].
  rewrite delete_insert_eq. by apply delete_id.
Qed.

(** C5, as the code has it.  Whenever [sys_execv] returns an error, the
    process structure is the one of before the call: its address-space
    pointer (the process runs in its old address space again), file
    table, CWD, PID and parent.  That address space has the regions, the
    heap and stack bounds and every page-to-frame mapping it had; the
    page faults raised while the call read path and arguments may have
    mapped further pages.  Every other address space is untouched and
    the one [as_create] made is gone. *)
Theorem sys_execv_failure_restores e path argv k err k' old v :
  Procs.p_addrspace (curproc k) = Some old ->
  spaces k !! old = Some v -> VM.pt_ok v ->
  (forall a, as_create e = Some a -> spaces k !! a = None) ->
  sys_execv e path argv k = Fails err k' ->
  curproc k' = curproc k /\
  exists v',
    spaces k' = <[old := v']> (spaces k) /\
    VM.regions v' = VM.regions v /\
    VM.heap_base v' = VM.heap_base v /\ VM.heap_end v' = VM.heap_end v /\
    VM.stack_base v' = VM.stack_base v /\ VM.stack_end v' = VM.stack_end v /\
    VM.loading v' = VM.loading v /\
    VM.pt_ok v' /\
    (forall va,
       VM.pt_lookup v (Z.land va PAGE_FRAME) <> 0%Z ->
       VM.pt_lookup v' (Z.land va PAGE_FRAME) =
       VM.pt_lookup v (Z.land va PAGE_FRAME)).
Proof.
  intros Hold Hv Hpt Hfresh Hrun.
  enough (kept old v k k') as (Hcur & v' & Hsp & Hlay & Hpt' & Hext).
  { split; [done|]. exists v'. split; [done|].
    destruct Hlay as (? & ? & ? & ? & ? & ?). by split_and!. }
  pose proof (kept_refl old v k Hv Hpt) as H0.
  pose proof (fun e u k1 => user_access_kept old v k e u k1 Hold) as Hacc.
  revert Hrun. unfold sys_execv.
  destruct (path =? 0)%Z; [by intros [= <- <-]|].
  destruct (argv =? 0)%Z; [by intros [= <- <-]|].
  pose proof (Hacc e path k H0) as H1.
  destruct (copyinstr e path PATH_MAX) as [kpath|r]; [|by intros [= <- <-]].
  destruct (decide (kpath = [])); [by intros [= <- <-]|].
  destruct (kmalloc_ok e 0); cbn [negb]; [|by intros [= <- <-]].
  destruct (count_args _ _ _ _ _ _) as [[[[argc total_bytes]|r] k2]|] eqn:Ec;
    [| |done].
  2:{ intros [= <- <-]. by eapply (count_args_inv _ Hacc). }
  pose proof (count_args_inv _ Hacc _ _ _ _ _ _ _ _ H1 Ec) as H2.
  destruct (kmalloc_ok e 1); cbn [negb]; [|by intros [= <- <-]].
  destruct (kmalloc_ok e 2); cbn [negb]; [|by intros [= <- <-]].
  destruct (copy_args _ _ _ _ _) as [[kargv|r] k3] eqn:Ecp.
  2:{ intros [= <- <-]. by eapply (copy_args_inv _ Hacc). }
  pose proof (copy_args_inv _ Hacc _ _ _ _ _ _ _ H2 Ecp) as H3.
  destruct (vfs_open e kpath) as [vn|r]; [|by intros [= <- <-]].
  destruct (as_create e) as [as_|] eqn:Eas; [|by intros [= <- <-]].
  specialize (Hfresh _ eq_refl).
  (* after the switch *)
  destruct H3 as (Hcur3 & v3 & Hsp3 & Hlay3 & Hpt3 & Hext3).
  assert (as_ <> old) as Hne by congruence.
  assert (spaces k3 !! as_ = None) as Hfresh3
    by (by rewrite Hsp3, lookup_insert_ne).
  assert (forall r kx,
            switched as_ k3 kx ->
            back_out r (Procs.p_addrspace (curproc k3)) as_ kx = Fails err k' ->
            kept old v k k') as Hback.
  { intros r kx Hsw Hb.
    destruct (back_out_restores _ _ _ _ _ _ Hsw Hfresh3 Hb) as (_ & Hc & Hs).
    split; [congruence|]. exists v3. by rewrite Hs. }
  pose proof (switch_switched as_ k3) as Hsw.
  change (proc_setas (Some as_) (set_space k3 as_ VM.as_create))
    with (Procs.p_addrspace (curproc k3),
          snd (proc_setas (Some as_) (set_space k3 as_ VM.as_create))).
  cbv iota beta.
  set (k4 := as_activate _) in *.
  destruct (load_elf e vn (vm_view k4)) as [[entrypoint|r] vk].
  2:{ apply Hback. by apply vm_store_switched. }
  pose proof (vm_store_switched _ _ vk _ Hsw) as Hsw5.
  destruct (spaces (vm_store vk k4) !! as_) as [a|]; [|done].
  destruct (VM.as_define_stack a) as [a1 sp0].
  pose proof (set_space_switched _ _ _ a1 Hsw5) as Hsw6.
  destruct (kmalloc_ok e 3); cbn [negb]; [|by apply Hback].
  pose proof (fun e u k2 => user_access_switched as_ k3 e u k2) as Hacc2.
  destruct (push_strings _ _ _ _) as [[[ptrs sp1]|r] k7] eqn:Estr.
  2:{ apply Hback. by eapply (push_strings_inv _ Hacc2). }
  pose proof (push_strings_inv _ Hacc2 _ _ _ _ _ _ Hsw6 Estr) as Hsw7.
  destruct (push_pointers _ _ _ _) as [[sp2|r] k8] eqn:Eptr.
  2:{ apply Hback. by eapply (push_pointers_inv _ Hacc2). }
  destruct (Procs.p_addrspace (curproc k3)); [|done].
  by destruct (as_destroy _ _).
Qed.

End Generic.

Section Runs.
Local Existing Instance os161.

Lemma sample_as_ok : VM.pt_ok sample_as.
Proof.
  destruct (VMLaws.take_faults_keeps
              [{| VM.f_env := VM.sample_env; VM.f_type := 0;
                  VM.f_addr := 0x400000 |}]
              {| VM.cur_as := Some (VM.set_heap_end VM.sample_as 0x402000);
                 VM.tlb := replicate NUM_TLB (0%Z, 0%Z);
                 VM.cm := Coremap.small_ram |}
              (VM.set_heap_end VM.sample_as 0x402000) eq_refl)
    as (a' & Ha' & Hpt & _).
  - apply VMLaws.sample_as_pt_ok.
  - unfold sample_as, started. by rewrite Ha'.
Qed.

(** [load_elf] fails after the switch to the new address space: the call
    returns its error, and the caller still has address space 1 with its
    layout and its text page, its file table, CWD, PID and parent. *)
Lemma sys_execv_failure_restores_witness :
  exists k' v',
    sys_execv failing_env 0x400100 0x400200 sample_state = Fails ENOENT k' /\
    curproc k' = sample_proc /\
    spaces k' = {[ 1 := v' ]} /\
    VM.regions v' = [VM.text_region] /\ VM.heap_end v' = 0x402000%Z /\
    VM.pt_lookup v' 0x400000 = 0x2000%Z.
Proof.
  assert (exists k', sys_execv failing_env 0x400100 0x400200 sample_state
                     = Fails ENOENT k') as [k' Hrun]
    by (eexists; by vm_compute).
  destruct (sys_execv_failure_restores failing_env 0x400100 0x400200
              sample_state ENOENT k' 1 sample_as)
    as (Hcur & v' & Hsp & Hreg & _ & Hend & _ & _ & _ & _ & Hext).
  - reflexivity.
  - reflexivity.
  - apply sample_as_ok.
  - intros a [= <-]. reflexivity.
  - exact Hrun.
  - exists k', v'. split; [exact Hrun|]. split; [exact Hcur|].
    split_and!.
    + rewrite Hsp. cbn [sample_state spaces]. apply insert_singleton_eq.
    + rewrite Hreg. by vm_compute.
    + rewrite Hend. by vm_compute.
    + change 0x400000%Z with (Z.land 0x400000 PAGE_FRAME).
      rewrite (Hext 0x400000%Z); by vm_compute.
Defined.

(** C5 as stated fails for the address space itself.  The path pointer
    leads to a page of heap the caller has not touched yet, so reading
    it raises a page fault, which gives the page a frame; the path read
    from the fresh page is empty, the call returns [EINVAL], and the
    caller's address space has a page-table entry that it did not have
    before the call. *)
Lemma sys_execv_failure_maps_page :
  exists k' v',
    sys_execv blank_env 0x401000 0x400200 sample_state = Fails EINVAL k' /\
    Procs.p_addrspace (curproc sample_state) = Some 1 /\
    spaces sample_state !! 1 = Some sample_as /\
    spaces k' !! 1 = Some v' /\
    VM.classify sample_as 0x401000 = Some true /\
    VM.pt_lookup sample_as 0x401000 = 0%Z /\
    VM.pt_lookup v' 0x401000 = 0x3000%Z /\
    v' <> sample_as /\
    spaces k' <> spaces sample_state.
Proof.
  assert (exists k', sys_execv blank_env 0x401000 0x400200 sample_state
                     = Fails EINVAL k') as [k' Hrun]
    by (eexists; by vm_compute).
  assert (exists v', spaces k' !! 1 = Some v' /\
                     VM.pt_lookup v' 0x401000 = 0x3000%Z) as (v' & Hv' & Hmap).
  { assert (match sys_execv blank_env 0x401000 0x400200 sample_state with
            | Fails _ k1 =>
                (fun v => VM.pt_lookup v 0x401000) <$> spaces k1 !! 1
            | _ => None
            end = Some 0x3000%Z) as H by (by vm_compute).
    rewrite Hrun in H. destruct (spaces k' !! 1) as [v'|]; [|done].
    exists v'. split; [done|]. cbn in H. by injection H. }
  assert (VM.pt_lookup sample_as 0x401000 = 0%Z) as Hun by (by vm_compute).
  exists k', v'. split_and!; try done; try (by vm_compute).
  - intros ->. rewrite Hun in Hmap. done.
  - intros Heq. rewrite Heq in Hv'.
    assert (spaces sample_state !! 1 = Some sample_as) as Hs
      by apply lookup_singleton_eq.
    rewrite Hs in Hv'. injection Hv' as <-. rewrite Hun in Hmap. done.
Qed.

End Runs.
End ExecvSpec.

Module ExecvLaws.
Import Execv ExecvSpec.

Section Generic.
Context {hdr : headers}.

(** *** The first pass terminates *)

(** The byte loop leaves within [ARG_MAX + 1 - arglen] rounds. *)
Lemma measure_arg_some e p f :
  forall arglen k,
    (0 <= arglen <= ARG_MAX)%Z ->
    (ARG_MAX - arglen < Z.of_nat f)%Z ->
    exists r k', measure_arg e p arglen f k = Some (r, k').
Proof.
  induction f as [|f IH]; intros arglen k Ha Hf; [lia|].
  cbn [measure_arg].
  destruct (copyin_byte e _) as [ch|r]; [|by eexists _, _].
  destruct (Z.ltb_spec ARG_MAX (arglen + 1)); [by eexists _, _|].
  destruct (ch =? 0)%Z; [by eexists _, _|]. apply IH; lia.
Qed.

(** What the byte loop returns is the length of the string at [p], its
    terminating 0 included. *)
Lemma measure_arg_ok e p f :
  forall arglen k len k',
    (0 <= arglen)%Z ->
    measure_arg e p arglen f k = Some (Ok len, k') ->
    (arglen < len <= ARG_MAX)%Z /\
    copyin_byte e (u32 (p + (len - 1))) = Ok 0%Z /\
    (forall i, (arglen <= i < len - 1)%Z ->
       exists ch, copyin_byte e (u32 (p + i)) = Ok ch /\ ch <> 0%Z).
Proof.
  induction f as [|f IH]; intros arglen k len k' Ha; cbn [measure_arg];
    [done|].
  destruct (copyin_byte e (u32 (p + arglen))) as [ch|r] eqn:Ech; [|done].
  destruct (Z.ltb_spec ARG_MAX (arglen + 1)); [done|].
  destruct (Z.eqb_spec ch 0) as [->|Hch].
  - intros [= <- <-]. replace (arglen + 1 - 1)%Z with arglen by lia.
    split_and!; [lia..|done|]. intros i Hi. lia.
  - intros Hrec. assert (0 <= arglen + 1)%Z as Ha' by lia.
    destruct (IH _ _ _ _ Ha' Hrec) as (Hlen & Hz & Hnz).
    split_and!; [lia..|done|].
    intros i Hi. destruct (decide (i = arglen)) as [->|]; [by exists ch|].
    apply Hnz. lia.
Qed.

(** The argument loop leaves before its rounds are used up: each round
    adds at least five to [total_bytes + argc * 4], which never exceeds
    [ARG_MAX]. *)
Lemma count_args_some e argv f :
  forall argc total k,
    (0 <= ARG_MAX)%Z -> (0 <= argc)%Z -> (0 <= total)%Z ->
    (total + argc * sizeof_ptr <= ARG_MAX)%Z ->
    (ARG_MAX - (total + argc * sizeof_ptr) < Z.of_nat f)%Z ->
    exists r k', count_args e argv argc total f k = Some (r, k').
Proof.
  unfold sizeof_ptr.
  induction f as [|f IH]; intros argc total k Hmax Ha Ht Hb Hf; [lia|].
  cbn [count_args].
  destruct (copyin_ptr e _) as [cur|r]; [|by eexists _, _].
  destruct (cur =? 0)%Z; [by eexists _, _|].
  destruct (measure_arg_some e cur (S (Z.to_nat ARG_MAX)) 0
              (user_access e (u32 (argv + argc * sizeof_ptr)) k))
    as (r & k1 & E); [lia..|].
  rewrite E.
  destruct r as [arglen|r]; [|by eexists _, _].
  destruct (measure_arg_ok _ _ _ _ _ _ _ (Z.le_refl 0) E) as (Hlen & _).
  unfold sizeof_ptr.
  destruct (Z.ltb_spec ARG_MAX (total + arglen + (argc + 1) * 4));
    [by eexists _, _|].
  apply IH; lia.
Qed.

Lemma count_args_ok e argv f :
  forall argc total k argc' total' k',
    (0 <= argc <= total)%Z ->
    (total + argc * sizeof_ptr <= ARG_MAX)%Z ->
    count_args e argv argc total f k = Some (Ok (argc', total'), k') ->
    (argc <= argc' <= total')%Z /\
    (total' + argc' * sizeof_ptr <= ARG_MAX)%Z /\
    copyin_ptr e (u32 (argv + argc' * sizeof_ptr)) = Ok 0%Z /\
    (forall i, (argc <= i < argc')%Z ->
       exists p len,
         copyin_ptr e (u32 (argv + i * sizeof_ptr)) = Ok p /\ p <> 0%Z /\
         (1 <= len <= ARG_MAX)%Z /\
         copyin_byte e (u32 (p + (len - 1))) = Ok 0%Z /\
         (forall j, (0 <= j < len - 1)%Z ->
            exists ch, copyin_byte e (u32 (p + j)) = Ok ch /\ ch <> 0%Z)).
Proof.
  induction f as [|f IH]; intros argc total k argc' total' k' Ha Hb;
    cbn [count_args]; [done|].
  destruct (copyin_ptr e (u32 (argv + argc * sizeof_ptr))) as [cur|r] eqn:Ecur;
    [|done].
  destruct (Z.eqb_spec cur 0) as [->|Hcur].
  - intros [= <- <- <-]. split_and!; try done; intros; lia.
  - destruct (measure_arg e cur 0 _ _) as [[[arglen|r] k1]|] eqn:E;
      [|done..].
    destruct (measure_arg_ok _ _ _ _ _ _ _ (Z.le_refl 0) E)
      as (Hlen & Hzero & Hbytes).
    destruct (Z.ltb_spec ARG_MAX (total + arglen + (argc + 1) * sizeof_ptr));
      [done|].
    intros Hrec.
    assert (0 <= argc + 1 <= total + arglen)%Z as Ha' by lia.
    assert (total + arglen + (argc + 1) * sizeof_ptr <= ARG_MAX)%Z as Hb'
      by lia.
    destruct (IH _ _ _ _ _ _ Ha' Hb' Hrec) as (Hc & Hbound & Hend & Hargs).
    split_and!; try done; try lia.
    intros i Hi. destruct (decide (i = argc)) as [->|].
    + exists cur, arglen. split_and!; try done; lia.
    + apply Hargs. lia.
Qed.

(** The exits of [back_out] return or stop; they do not spin. *)
Lemma back_out_ends r old_as a k : back_out r old_as a k <> Spins.
Proof. unfold back_out. by destruct (as_destroy _ _). Qed.

(** The first pass of [sys_execv] terminates.  Its two loops are written
    [while (1)] and [do ... while]; run with [ARG_MAX + 1] rounds each,
    they have left before the rounds are used up, whatever user memory
    holds and whatever page faults the reads raise, so [sys_execv] does
    not spin.  When the pass succeeds, [argc] pointers that are not
    [NULL] precede a [NULL] in the user's array, each of them leads to a
    string of non-zero bytes that ends within [ARG_MAX] bytes, and the
    bytes of the strings and the [argc] pointers fit into [ARG_MAX]
    together. *)
Theorem count_args_terminates e argv k :
  (0 <= ARG_MAX)%Z ->
  (forall p k1, exists r k2,
     measure_arg e p 0 (S (Z.to_nat ARG_MAX)) k1 = Some (r, k2)) /\
  (exists r k',
     count_args e argv 0 0 (S (Z.to_nat ARG_MAX)) k = Some (r, k') /\
     curproc k' = curproc k /\
     forall argc total_bytes,
       r = Ok (argc, total_bytes) ->
       (0 <= argc <= total_bytes)%Z /\
       (total_bytes + argc * sizeof_ptr <= ARG_MAX)%Z /\
       copyin_ptr e (u32 (argv + argc * sizeof_ptr)) = Ok 0%Z /\
       (forall i, (0 <= i < argc)%Z ->
          exists p len,
            copyin_ptr e (u32 (argv + i * sizeof_ptr)) = Ok p /\ p <> 0%Z /\
            (1 <= len <= ARG_MAX)%Z /\
            copyin_byte e (u32 (p + (len - 1))) = Ok 0%Z /\
            (forall j, (0 <= j < len - 1)%Z ->
               exists ch, copyin_byte e (u32 (p + j)) = Ok ch /\
                          ch <> 0%Z))) /\
  (forall path, sys_execv e path argv k <> Spins).
Proof.
  intros Hmax.
  assert (forall k0, exists r k',
            count_args e argv 0 0 (S (Z.to_nat ARG_MAX)) k0 = Some (r, k'))
    as Hsome.
  { intros k0. apply count_args_some; unfold sizeof_ptr; lia. }
  split_and!.
  - intros p k1. apply measure_arg_some; lia.
  - destruct (Hsome k) as (r & k' & Hrun). exists r, k'.
    split; [done|]. split.
    + eapply (count_args_inv (fun k1 => curproc k1 = curproc k));
        [|reflexivity|exact Hrun].
      by intros e0 u k1 Hk1.
    + intros argc total ->.
      assert (0 <= 0 <= 0)%Z as H00 by lia.
      assert (0 + 0 * sizeof_ptr <= ARG_MAX)%Z as H0m
        by (unfold sizeof_ptr; lia).
      apply (count_args_ok _ _ _ _ _ _ _ _ _ H00 H0m Hrun).
  - intros path. unfold sys_execv.
    destruct (path =? 0)%Z; [done|].
    destruct (argv =? 0)%Z; [done|].
    destruct (copyinstr e path PATH_MAX) as [kpath|r]; [|done].
    destruct (decide (kpath = [])); [done|].
    destruct (kmalloc_ok e 0); cbn [negb]; [|done].
    destruct (Hsome (user_access e path k)) as (r & k1 & ->).
    destruct r as [[argc total]|r]; [|done].
    destruct (kmalloc_ok e 1); cbn [negb]; [|done].
    destruct (kmalloc_ok e 2); cbn [negb]; [|done].
    destruct (copy_args _ _ _ _ _) as [[kargv|r] k2]; [|done].
    destruct (vfs_open e kpath) as [vn|r]; [|done].
    destruct (as_create e) as [as_|]; [|done].
    destruct (proc_setas _ _) as [old_as k3].
    destruct (load_elf e vn _) as [[entrypoint|r] vk];
      [|apply back_out_ends].
    destruct (spaces _ !! as_) as [a|]; [|done].
    destruct (VM.as_define_stack a) as [a1 sp0].
    destruct (kmalloc_ok e 3); cbn [negb]; [|apply back_out_ends].
    destruct (push_strings _ _ _ _) as [[[ptrs sp1]|r] k7];
      [|apply back_out_ends].
    destruct (push_pointers _ _ _ _) as [[sp2|r] k8];
      [|apply back_out_ends].
    destruct old_as; [|done]. by destruct (as_destroy _ _).
Qed.

(** *** The call that succeeds *)






End Generic.

Section Runs.
Local Existing Instance os161.

(** The argument array holds the address of the string "a" and [NULL]:
    the argument loop runs twice and the byte loop twice. *)
Lemma count_args_terminates_witness :
  exists k',
    count_args failing_env 0x400200 0 0 (S (Z.to_nat ARG_MAX)) sample_state
      = Some (Ok (1%Z, 2%Z), k') /\
    curproc k' = sample_proc.
Proof.
  destruct (count_args_terminates failing_env 0x400200 sample_state)
    as (_ & (r & k' & Hrun & Hcur & _) & _).
  - unfold ARG_MAX. cbn. lia.
  - exists k'. split; [|exact Hcur].
    rewrite Hrun. f_equal. f_equal.
    assert (fst <$> count_args failing_env 0x400200 0 0
                      (S (Z.to_nat ARG_MAX)) sample_state
            = Some (Ok (1%Z, 2%Z))) as Hval by (by vm_compute).
    rewrite Hrun in Hval. cbn in Hval. congruence.
Defined.


End Runs.
End ExecvLaws.

(* ------------------------------------------------------------------ *)
(** ** [sys_fork] *)

Module ForkLaws.
Import Procs Fork ProcsSpec ProcsLaws.

Section Generic.
Context {hdr : headers}.

(** A failure exit none of whose destroy calls is in [gone]: the child's
    structure and PID are given back. *)
Lemma abandon_spec gone child r k c b0 pid :
  procs (base k) = <[child := c]> (procs b0) ->
  pid_table (base k) = <[pid := child]> (pid_table b0) ->
  kproc (base k) = kproc b0 -> child <> kproc b0 -> p_pid c = pid ->
  procs b0 !! child = None -> pid_table b0 !! pid = None ->
  filter (fun cl => cl ∈ gone) (destroys c) = [] ->
  exists k',
    abandon gone child r k = Returns (Err r) k' /\
    procs (base k') = procs b0 /\ pid_table (base k') = pid_table b0 /\
    kproc (base k') = kproc b0 /\ umem (base k') = umem (base k) /\
    increfs k' = increfs k /\
    calls (base k') = rev (destroys c) ++ calls (base k).
Proof.
  intros Hp Ht Hk Hne Hpid Hfresh Hfree Hgone.
  unfold abandon, proc_destroy.
  rewrite Hp, lookup_insert_eq, Hgone.
  rewrite decide_False by (by rewrite Hk).
  eexists. split; [done|].
  cbn [base set_base procs pid_table kproc calls umem increfs set_procs
         set_pid_table add_calls proc_freepid].
  rewrite ?Hp, ?Ht, ?Hpid.
  rewrite !delete_insert_id by done.
  split_and!; try done. unfold destroys.
  by destruct (p_cwd c), (p_addrspace c), (file_table c).
Qed.

(** A failure exit after the child's address space was destroyed:
    [proc_destroy] reaches [as_destroy] on it once more. *)
Lemma abandon_misuse gone child r k c ca :
  procs (base k) !! child = Some c ->
  p_addrspace c = Some ca -> as_destroy ca ∈ gone ->
  (forall vn, VOP_DECREF vn ∉ gone) ->
  abandon gone child r k = Misuses (as_destroy ca).
Proof.
  intros Hc Hca Hin Hout. unfold abandon, destroys. rewrite Hc, Hca.
  destruct (p_cwd c) as [vn|]; cbn [app].
  - rewrite filter_cons_False by apply Hout.
    by rewrite filter_cons_True by done.
  - by rewrite filter_cons_True by done.
Qed.

Local Ltac fork_simpl :=
  repeat (cbn [base set_base VOP_INCREF increfs procs pid_table kproc calls
                 umem set_procs set_pid_table add_calls];
          rewrite ?lookup_insert_eq, ?insert_insert_eq).

Local Ltac fork_done :=
  split_and!; try done; try (by intros [|]);
  try (by intros ? _ _ [= <-]); try (by intros ? _ _ [= <-] _).

(** [sys_fork] when every step succeeds, [kmalloc] answering fresh
    memory and a PID being free.  The child is registered under the
    lowest free PID, which is the value returned; its structure carries
    the caller's name, the copied address space, the caller's working
    directory (one reference more is taken on it), the copied file
    table and the caller's PID as parent; the caller's structure and all
    others are untouched, nothing is destroyed, and the PID table stays
    consistent.  A [sys_waitpid] of the caller for the new PID then
    waits, and that of any process with another PID is refused with
    [ECHILD]. *)
Theorem sys_fork_child e cur k me p j pas pft ca ft :
  procs (base k) !! cur = Some me -> pid_table_ok (base k) ->
  kmalloc_proc e = Some p -> name_ok e = true ->
  procs (base k) !! p = None -> p <> kproc (base k) ->
  p_name me <> "[kernel]" ->
  (PID_MIN <= j < PID_MAX)%Z -> pid_table (base k) !! j = None ->
  p_addrspace me = Some pas -> file_table me = Some pft ->
  as_copy e = Ok ca -> copy_file_table e = Some ft ->
  kmalloc_tf e = true -> thread_fork e = None ->
  exists pid k',
    sys_fork e cur k = Returns (Ok pid) k' /\
    (PID_MIN <= pid <= j)%Z /\ proc_get pid (base k) = None /\
    (forall j', (PID_MIN <= j' < pid)%Z -> is_Some (proc_get j' (base k))) /\
    procs (base k') =
      <[p := Proc (p_name me) (Some ca) (p_cwd me) (Some ft) pid
                  (p_pid me) 0 false]> (procs (base k)) /\
    pid_table (base k') = <[pid := p]> (pid_table (base k)) /\
    proc_get pid (base k') = Some p /\
    pid_table_ok (base k') /\
    calls (base k') = calls (base k) /\
    increfs k' =
      (match p_cwd me with Some vn => [vn] | None => [] end) ++ increfs k /\
    (forall uaddr_ok status,
       sys_waitpid uaddr_ok cur pid status 0 (base k') = Sleeps) /\
    (forall uaddr_ok other him status,
       procs (base k) !! other = Some him -> p_pid him <> p_pid me ->
       sys_waitpid uaddr_ok other pid status 0 (base k') =
         Procs.Returns (Err ECHILD) (base k')).
Proof.
  intros Hme Hok Hkm Hnm Hfresh Hnk Hname Hj Hfree Hpas Hpft Has Hcft Htf Hth.
  destruct (proc_create_fresh p (stale_file_table e) (p_name me) (base k) j
              Hok Hfresh Hnk Hname
              Hj Hfree) as (pid & Hrun & Hpid & Hnone & Hlow).
  assert (cur <> p) as Hcp by congruence.
  set (child := Proc (p_name me) (Some ca) (p_cwd me) (Some ft) pid
                     (p_pid me) 0 false).
  set (b' := set_procs (set_pid_table (base k) (<[pid := p]> (pid_table (base k))))
               (<[p := child]> (procs (base k)))).
  set (k' := {| base := b';
                increfs := (match p_cwd me with Some vn => [vn] | None => [] end)
                           ++ increfs k |}).
  assert (sys_fork e cur k = Returns (Ok pid) k') as Hfork.
  { unfold sys_fork. rewrite Hme, Hkm, Hnm, Hrun, Has, Hpas. cbv zeta.
    rewrite Hcft, Hpft, Htf, Hth. cbn [negb].
    unfold update_proc. destruct (p_cwd me) as [vn|] eqn:Ecwd; fork_simpl.
    - subst k' b' child. reflexivity.
    - subst k' b' child. reflexivity. }
  assert (proc_get pid b' = Some p) as Hget.
  { rewrite proc_get_in_range by lia. apply lookup_insert_eq. }
  exists pid, k'. split_and!; try done.
  - lia.
  - lia.
  - rewrite proc_get_in_range by lia. done.
  - intros j' Hj'. rewrite proc_get_in_range by lia. apply Hlow. lia.
  - apply (pid_table_ok_insert (base k) b' p pid child); done.
  - intros uaddr_ok status. unfold sys_waitpid. cbn [Z.eqb negb].
    cbn [base k']. rewrite Hget. subst b'. cbn [procs set_procs].
    rewrite lookup_insert_eq, lookup_insert_ne, Hme by done.
    cbn [p_parent child]. by rewrite Z.eqb_refl.
  - intros uaddr_ok other him status Hhim Hpid'.
    assert (other <> p) as Hop by congruence.
    unfold sys_waitpid. cbn [Z.eqb negb].
    cbn [base k']. rewrite Hget. subst b'. cbn [procs set_procs].
    rewrite lookup_insert_eq, lookup_insert_ne, Hhim by done.
    cbn [p_parent child].
    destruct (Z.eqb_spec (p_pid me) (p_pid him)); [congruence|done].
Qed.

(** The failure exits of [sys_fork], [kmalloc] answering fresh memory
    and a PID being free.  When [proc_create] fails the call returns
    [ENOMEM] and nothing has changed.  When [as_copy] fails,
    [proc_destroy] runs on a child whose [file_table] field was never
    written: if the memory holds [NULL] there, the error of [as_copy] is
    returned and the state is the one before the call, the child's
    structure and PID given back; otherwise [destroy_file_table] is
    called on what the field holds.  When [copy_file_table], [kmalloc]
    of the trap frame or [thread_fork] fails, [sys_fork] destroys the
    child's address space and then calls [proc_destroy], which finds the
    same pointer in [child->p_addrspace] and hands it to [as_destroy] a
    second time.  So whenever [sys_fork] returns an error the state is
    the one before the call. *)
Theorem sys_fork_failure e cur k me j pas pft :
  procs (base k) !! cur = Some me -> pid_table_ok (base k) ->
  (forall p, kmalloc_proc e = Some p ->
             procs (base k) !! p = None /\ p <> kproc (base k)) ->
  p_name me <> "[kernel]" ->
  (PID_MIN <= j < PID_MAX)%Z -> pid_table (base k) !! j = None ->
  p_addrspace me = Some pas -> file_table me = Some pft ->
  (kmalloc_proc e = None \/ name_ok e = false ->
   sys_fork e cur k = Returns (Err ENOMEM) k) /\
  (forall r,
     kmalloc_proc e <> None -> name_ok e = true -> as_copy e = Err r ->
     match stale_file_table e with
     | Some ft => sys_fork e cur k = Misuses (destroy_file_table ft)
     | None => sys_fork e cur k = Returns (Err r) k
     end) /\
  (forall ca,
     kmalloc_proc e <> None -> name_ok e = true -> as_copy e = Ok ca ->
     copy_file_table e = None \/ kmalloc_tf e = false \/
       thread_fork e <> None ->
     sys_fork e cur k = Misuses (as_destroy ca)) /\
  (forall r k',
     sys_fork e cur k = Returns (Err r) k' ->
     k' = k /\ (r = ENOMEM \/ as_copy e = Err r)).
Proof.
  intros Hme Hok Hfresh' Hname Hj Hfree Hpas Hpft.
  assert (forall vn gone,
            gone = [as_destroy vn] \/
            (exists ft, gone = [as_destroy vn; destroy_file_table ft]) ->
            as_destroy vn ∈ gone /\ forall v, VOP_DECREF v ∉ gone) as Hgone.
  { intros vn gone [->|[ft ->]]; (split; [by left|]); intros v Hin.
    - apply list_elem_of_singleton in Hin. discriminate.
    - apply elem_of_cons in Hin as [?|Hin]; [discriminate|].
      apply list_elem_of_singleton in Hin. discriminate. }
  unfold sys_fork. rewrite Hme.
  destruct (kmalloc_proc e) as [p|] eqn:Hkm.
  2:{ split_and!; try done. intros r k' [= <- <-]. split; [done|by left]. }
  destruct (name_ok e) eqn:Hnm.
  2:{ unfold proc_create. cbn [negb]. split_and!; try done.
      intros r k' [= <- <-]. split; [done|by left]. }
  destruct (Hfresh' p eq_refl) as [Hfresh Hnk].
  destruct (proc_create_fresh p (stale_file_table e) (p_name me) (base k) j
              Hok Hfresh Hnk Hname Hj Hfree)
    as (pid & Hrun & Hpid & Hnone & Hlow).
  rewrite Hrun.
  destruct (as_copy e) as [ca|r0] eqn:Has.
  2:{ (* [as_copy] failed *)
      destruct (stale_file_table e) as [ft|] eqn:Hst.
      - assert (abandon [destroy_file_table ft] p r0
                  (set_base k
                     (set_procs
                        (set_pid_table (base k) (<[pid:=p]> (pid_table (base k))))
                        (<[p:=Proc (p_name me) None None (Some ft) pid (-1) 0
                                   false]> (procs (base k)))))
                = Misuses (destroy_file_table ft)) as ->.
        { unfold abandon, destroys. fork_simpl. cbn [p_cwd p_addrspace file_table app].
          by rewrite filter_cons_True by (by left). }
        fork_done.
      - match goal with
        | |- context [abandon [] p r0 ?K] =>
            destruct (abandon_spec [] p r0 K
                        (Proc (p_name me) None None None pid (-1) 0 false)
                        (base k) pid)
              as (k2 & Hgive & Hp2 & Ht2 & Hk2 & Hu2 & Hi2 & Hc2);
              [by fork_simpl|by fork_simpl|done|done|done|done|done|done|]
        end.
        rewrite Hgive.
        assert (k2 = k) as ->.
        { revert Hp2 Ht2 Hk2 Hu2 Hi2 Hc2. fork_simpl.
          destruct k2 as [[] ?], k as [[] ?]. cbn. by intros -> -> -> -> -> ->. }
        fork_done. intros r k' [= <- <-]. split; [done|by right]. }
  rewrite Hpas. cbv zeta.
  assert (forall gone r K,
            (gone = [as_destroy ca] \/
             exists ft, gone = [as_destroy ca; destroy_file_table ft]) ->
            (exists c, procs (base K) !! p = Some c /\
                       p_addrspace c = Some ca) ->
            abandon gone p r K = Misuses (as_destroy ca)) as Hmis.
  { intros gone r K Hg (c & Hc & Hca). destruct (Hgone ca gone Hg).
    by eapply abandon_misuse. }
  destruct (copy_file_table e) as [ft|] eqn:Hcft.
  - rewrite Hpft.
    match goal with
    | |- context [abandon ?g p ENOMEM ?K] =>
        assert (forall r, abandon g p r K = Misuses (as_destroy ca)) as Hundo
    end.
    { intros r. apply Hmis; [right; by eexists|].
      unfold update_proc. destruct (p_cwd me); fork_simpl; by eexists. }
    destruct (kmalloc_tf e); cbn [negb].
    + destruct (thread_fork e) as [r1|] eqn:Hth.
      * rewrite Hundo. fork_done.
      * fork_done.
        -- intros ca' _ _ _ [|[|]]; done.
        -- intros r k'. unfold update_proc.
           destruct (p_cwd me); fork_simpl; done.
    + rewrite Hundo. fork_done.
  - rewrite Hmis; [|by left|].
    + fork_done.
    + unfold update_proc. destruct (p_cwd me); fork_simpl; by eexists.
Qed.

End Generic.

Section Runs.
Local Existing Instance os161.

(** The shell forks: the child gets PID 4 and the shell's working
    directory. *)
Lemma sys_fork_child_witness :
  exists k',
    sys_fork sample_env 1 sample_state = Returns (Ok 4%Z) k' /\
    procs (base k') !! 3%Z =
      Some (Proc "sh" (Some 3) (Some 50) (Some 3) 4 2 0 false) /\
    increfs k' = [50].
Proof.
  destruct (sys_fork_child sample_env 1 sample_state
              (Proc "sh" (Some 1) (Some 50) (Some 1) 2 (-1) 0 false)
              3 4 1 1 3 3)
    as (pid & k' & Hrun & Hpid & Hnone & _ & Hprocs & _ & _ & _ & _ & Hinc & _).
  - reflexivity.
  - exact family_ok.
  - reflexivity.
  - reflexivity.
  - reflexivity.
  - discriminate.
  - discriminate.
  - unfold PID_MIN, PID_MAX. cbn. lia.
  - reflexivity.
  - reflexivity.
  - reflexivity.
  - reflexivity.
  - reflexivity.
  - reflexivity.
  - reflexivity.
  - assert (pid = 4%Z) as ->.
    { destruct (decide (pid = 4%Z)) as [|Hne]; [done|].
      assert (pid = 2 \/ pid = 3)%Z as [->| ->]
        by (unfold PID_MIN in Hpid; cbn in Hpid; lia).
      - vm_compute in Hnone. discriminate.
      - vm_compute in Hnone. discriminate. }
    exists k'. split; [exact Hrun|]. split; [|exact Hinc].
    rewrite Hprocs. apply lookup_insert_eq.
Defined.

(** The same fork with [thread_fork] failing, and with [as_copy]
    failing. *)
Lemma sys_fork_failure_witness :
  sys_fork failing_env 1 sample_state = Misuses (as_destroy 3) /\
  sys_fork no_space_env 1 sample_state = Returns (Err ENOMEM) sample_state.
Proof.
  assert (forall e : env,
            kmalloc_proc e = Some 3%Z ->
            forall p, kmalloc_proc e = Some p ->
              procs (base sample_state) !! p = None /\
              p <> kproc (base sample_state)) as Hfresh.
  { intros e He p Hp. rewrite He in Hp. injection Hp as <-.
    split; [reflexivity|discriminate]. }
  assert (PID_MIN <= 4 < PID_MAX)%Z as Hj
    by (unfold PID_MIN, PID_MAX; cbn; lia).
  split.
  - destruct (sys_fork_failure failing_env 1 sample_state
                (Proc "sh" (Some 1) (Some 50) (Some 1) 2 (-1) 0 false)
                4 1 1 eq_refl family_ok (Hfresh failing_env eq_refl))
      as (_ & _ & Hlate & _); [discriminate|exact Hj|reflexivity..|].
    apply Hlate; [discriminate|reflexivity|reflexivity|].
    right; right. discriminate.
  - destruct (sys_fork_failure no_space_env 1 sample_state
                (Proc "sh" (Some 1) (Some 50) (Some 1) 2 (-1) 0 false)
                4 1 1 eq_refl family_ok (Hfresh no_space_env eq_refl))
      as (_ & Hcopy & _); [discriminate|exact Hj|reflexivity..|].
    apply (Hcopy ENOMEM); [discriminate|reflexivity|reflexivity].
Defined.

End Runs.
End ForkLaws.
